(** * ACE: the AMP ARI codecs, the nickname converter and the ADM constraints

    A shallow embedding of the Python package [ace] (ANMS ACE) and the
    properties of its text codec, CBOR codec, nickname converter and
    constraint checker.

    Conventions of the embedding.
    - A Python exception is a value of [exn]; a call that may raise returns a
      [result].  Code that mutates its argument and may raise afterwards
      returns the mutated object together with the pending exception.
    - Python values that the ARI model carries dynamically (literal values,
      namespaces, names) are values of [pyval].  Floating point numbers,
      lists and dictionaries are not part of [pyval]; where the Python code
      would produce or need one, the model answers [OutsideModel].
    - A Python [str] is a Rocq [string]; the model is exact on ASCII text and
      answers [OutsideModel] where it would have to encode or decode other
      text.  A Python [bytes] is a [list byte].
    - The library [cbor2] is modelled on the data items of [pyval]
      (RFC 8949 integers, bignums, byte and text strings, booleans, null).
    - Functions that recurse as deep as their input is nested take fuel and
      answer [OutOfFuel] without it; the last part proves that the fuel they
      are given is enough. *)

From Stdlib Require Import ZArith List String Ascii Bool Lia.
From Stdlib.Strings Require Import Byte.
From Stdlib Require Import DecimalString.
From Stdlib Require DecimalPos DecimalFacts.
Import ListNotations.
Open Scope Z_scope.

Set Implicit Arguments.
Set Warnings "-register-all".

(** ** Exceptions and results *)

Inductive exn : Type :=
| ParseError            (* ace.ari_text.ParseError / ace.ari_cbor.ParseError *)
| RuntimeError
| ValueError
| TypeError
| AttributeError
| KeyError
| IndexError
| NotImplementedError
| StructError           (* struct.error *)
| CBORDecodeEOF         (* cbor2.CBORDecodeEOF *)
| CBORDecodeValueError  (* cbor2.CBORDecodeValueError *)
| OverflowError
| MultipleResultsFound  (* sqlalchemy.exc.MultipleResultsFound *)
| OutOfFuel             (* the recursion bound of the model was reached *)
| OutsideModel.         (* the run leaves the modelled fragment *)

Inductive result (A : Type) : Type :=
| Ok (a : A)
| Raise (e : exn).
Arguments Ok {A} a.
Arguments Raise {A} e.

Definition bind {A B : Type} (r : result A) (k : A -> result B) : result B :=
  match r with
  | Ok a => k a
  | Raise e => Raise e
  end.

Declare Scope result_scope.
Delimit Scope result_scope with result.
Notation "x <- c1 ;; c2" := (bind c1 (fun x => c2))
  (at level 61, c1 at next level, right associativity) : result_scope.
Notation "' pat <- c1 ;; c2" := (bind c1 (fun x => match x with pat => c2 end))
  (at level 61, pat pattern, c1 at next level, right associativity) : result_scope.
Open Scope result_scope.

(** [except Exception as err: raise e'] : every Python exception is replaced,
    the two markers of the model pass through. *)
Definition except_Exception {A : Type} (r : result A) (e' : exn) : result A :=
  match r with
  | Ok a => Ok a
  | Raise OutOfFuel => Raise OutOfFuel
  | Raise OutsideModel => Raise OutsideModel
  | Raise _ => Raise e'
  end.

(** Monadic map over a list, left to right, stopping at the first exception. *)
Fixpoint mapM {A B : Type} (f : A -> result B) (l : list A) : result (list B) :=
  match l with
  | [] => Ok []
  | x :: xs => y <- f x ;; ys <- mapM f xs ;; Ok (y :: ys)
  end.

(** ** Bytes and text *)

Definition byte_of_Z (z : Z) : byte :=
  match Byte.of_N (Z.to_N z) with
  | Some b => b
  | None => x00
  end.

Definition Z_of_byte (b : byte) : Z := Z.of_N (Byte.to_N b).

(** [struct.pack('!B', v)] *)
Definition pack_B (v : Z) : result (list byte) :=
  if (0 <=? v) && (v <=? 255) then Ok [byte_of_Z v] else Raise StructError.

Definition is_ascii_char (c : ascii) : bool := (nat_of_ascii c <? 128)%nat.

Fixpoint is_ascii (s : string) : bool :=
  match s with
  | EmptyString => true
  | String c s' => is_ascii_char c && is_ascii s'
  end.

Definition is_ascii_bytes (l : list byte) : bool :=
  forallb (fun b => Z_of_byte b <? 128) l.

(** [str.encode('utf-8')] and [bytes.decode('utf-8')], on ASCII text. *)
Definition str_encode (s : string) : result (list byte) :=
  if is_ascii s then Ok (list_byte_of_string s) else Raise OutsideModel.

Definition bytes_decode (l : list byte) : result string :=
  if is_ascii_bytes l then Ok (string_of_list_byte l) else Raise OutsideModel.

Definition is_upper (c : ascii) : bool :=
  let n := nat_of_ascii c in ((65 <=? n) && (n <=? 90))%nat.
Definition is_lower (c : ascii) : bool :=
  let n := nat_of_ascii c in ((97 <=? n) && (n <=? 122))%nat.
Definition is_alpha (c : ascii) : bool := is_upper c || is_lower c.
Definition is_digit (c : ascii) : bool :=
  let n := nat_of_ascii c in ((48 <=? n) && (n <=? 57))%nat.

Definition to_lower (c : ascii) : ascii :=
  if is_upper c then ascii_of_nat (nat_of_ascii c + 32) else c.
Definition to_upper (c : ascii) : ascii :=
  if is_lower c then ascii_of_nat (nat_of_ascii c - 32) else c.

Fixpoint string_map (f : ascii -> ascii) (s : string) : string :=
  match s with
  | EmptyString => EmptyString
  | String c s' => String (f c) (string_map f s')
  end.

(** [str.casefold()], [str.upper()]: exact on ASCII text. *)
Definition casefold (s : string) : string := string_map to_lower s.
Definition upper (s : string) : string := string_map to_upper s.

(** [f'{n}'] for an [int]. *)
Definition str_of_int (n : Z) : string := NilZero.string_of_int (Z.to_int n).

(** ** Python values *)

Inductive pyval : Type :=
| PyNone
| PyBool (b : bool)
| PyInt (n : Z)
| PyStr (s : string)
| PyBytes (b : list byte).

(** Truth value of an object, as tested by [if x:]. *)
Definition truthy (v : pyval) : bool :=
  match v with
  | PyNone => false
  | PyBool b => b
  | PyInt n => negb (n =? 0)
  | PyStr s => negb (String.length s =? 0)%nat
  | PyBytes b => negb (List.length b =? 0)%nat
  end.

(** [x is not None] *)
Definition is_not_None (v : pyval) : bool :=
  match v with PyNone => false | _ => true end.

(** [str(x)] and [f'{x}'].  The [repr] of a byte string is not modelled. *)
Definition py_str (v : pyval) : result string :=
  match v with
  | PyNone => Ok "None"%string
  | PyBool true => Ok "True"%string
  | PyBool false => Ok "False"%string
  | PyInt n => Ok (str_of_int n)
  | PyStr s => Ok s
  | PyBytes _ => Raise OutsideModel
  end.

(** The integer a [bool] or [int] stands for ([bool] is a subclass of [int]). *)
Definition as_int (v : pyval) : option Z :=
  match v with
  | PyBool b => Some (if b then 1 else 0)
  | PyInt n => Some n
  | _ => None
  end.

(** ** ace.ari : the logical data model of an ARI *)

Module ari.

(** [class StructType(enum.IntEnum)] *)
Module StructType.

Inductive t : Type :=
| MDAT
| CONST | CTRL | EDD | LIT | MAC | OPER | RPTT | SBR | TBLT | TBR | VAR
| BOOL | BYTE | STR | INT | UINT | VAST | UVAST | REAL32 | REAL64 | UNK
| TV | TS | TNVC | ARI | AC | EXPR | BSTR.

(** The members in definition order, the order of [for item in StructType]. *)
Definition members : list t :=
  [ MDAT; CONST; CTRL; EDD; LIT; MAC; OPER; RPTT; SBR; TBLT; TBR; VAR;
    BOOL; BYTE; STR; INT; UINT; VAST; UVAST; REAL32; REAL64; UNK;
    TV; TS; TNVC; ARI; AC; EXPR; BSTR ].

(** [item.value] *)
Definition value (x : t) : Z :=
  match x with
  | MDAT => -1
  | CONST => 0 | CTRL => 1 | EDD => 2 | LIT => 3 | MAC => 4 | OPER => 5
  | RPTT => 7 | SBR => 8 | TBLT => 10 | TBR => 11 | VAR => 12
  | BOOL => 16 | BYTE => 17 | STR => 18 | INT => 19 | UINT => 20
  | VAST => 21 | UVAST => 22 | REAL32 => 23 | REAL64 => 24 | UNK => -25
  | TV => 32 | TS => 33 | TNVC => 35 | ARI => 36 | AC => 37 | EXPR => 38
  | BSTR => 39
  end.

(** [item.name] *)
Definition name (x : t) : string :=
  match x with
  | MDAT => "MDAT"
  | CONST => "CONST" | CTRL => "CTRL" | EDD => "EDD" | LIT => "LIT"
  | MAC => "MAC" | OPER => "OPER" | RPTT => "RPTT" | SBR => "SBR"
  | TBLT => "TBLT" | TBR => "TBR" | VAR => "VAR"
  | BOOL => "BOOL" | BYTE => "BYTE" | STR => "STR" | INT => "INT"
  | UINT => "UINT" | VAST => "VAST" | UVAST => "UVAST" | REAL32 => "REAL32"
  | REAL64 => "REAL64" | UNK => "UNK"
  | TV => "TV" | TS => "TS" | TNVC => "TNVC" | ARI => "ARI" | AC => "AC"
  | EXPR => "EXPR" | BSTR => "BSTR"
  end%string.

Definition eqb (x y : t) : bool := value x =? value y.

(** [StructType(n)]: the member with value [n], else [ValueError]. *)
Definition of_value (n : Z) : result t :=
  match find (fun x => value x =? n) members with
  | Some x => Ok x
  | None => Raise ValueError
  end.

(** [StructType[s]]: the member named [s] exactly, else [KeyError]. *)
Definition of_name (s : string) : result t :=
  match find (fun x => String.eqb (name x) s) members with
  | Some x => Ok x
  | None => Raise KeyError
  end.

End StructType.

(** [LITERAL_TYPES] *)
Definition LITERAL_TYPES (x : StructType.t) : bool :=
  match x with
  | StructType.BOOL | StructType.BYTE | StructType.INT | StructType.UINT
  | StructType.VAST | StructType.UVAST | StructType.REAL32
  | StructType.REAL64 | StructType.UNK | StructType.STR | StructType.BSTR
  | StructType.TV | StructType.TS => true
  | _ => false
  end.

(** [LITERAL_LABEL_TYPES] *)
Definition LITERAL_LABEL_TYPES (x : StructType.t) : bool :=
  match x with
  | StructType.BYTE | StructType.INT | StructType.UINT | StructType.VAST
  | StructType.UVAST | StructType.REAL32 | StructType.REAL64
  | StructType.UNK | StructType.TV | StructType.TS => true
  | _ => false
  end.

(** [NUMERIC_LIMITS].  The limits of REAL32 and REAL64 are the Python floats
    [3.4028235e+38] and [1.7976931348623157e+308]; both are integers, written
    here exactly. *)
Definition NUMERIC_LIMITS (x : StructType.t) : option (Z * Z) :=
  match x with
  | StructType.BYTE => Some (0, 2 ^ 8 - 1)
  | StructType.INT => Some (- 2 ^ 31, 2 ^ 31 - 1)
  | StructType.UINT => Some (0, 2 ^ 32 - 1)
  | StructType.VAST => Some (- 2 ^ 63, 2 ^ 63 - 1)
  | StructType.UVAST => Some (0, 2 ^ 64 - 1)
  | StructType.REAL32 =>
      Some (- 340282349999999991754788743781432688640,
            340282349999999991754788743781432688640)
  | StructType.REAL64 => Some (- (2 ^ 1024 - 2 ^ 971), 2 ^ 1024 - 2 ^ 971)
  | StructType.UNK => Some (0, 0)
  | StructType.TV => Some (0, 2 ^ 64 - 1)
  | StructType.TS => Some (0, 2 ^ 64 - 1)
  | _ => None
  end.

(** [math.isfinite(v)]: an integer converts to a float first, which overflows
    from [2^1024 - 2^970] on. *)
Definition math_isfinite (v : pyval) : result bool :=
  match as_int v with
  | Some n =>
      if Z.abs n <? 2 ^ 1024 - 2 ^ 970 then Ok true else Raise OverflowError
  | None => Raise TypeError
  end.

(** [class Identity] *)
Record Identity : Type := mkIdentity {
  namespace : pyval;
  type_enum : StructType.t;
  name : pyval;
  issuer : pyval;
  tag : pyval
}.

(** [LiteralARI], [ReferenceARI], [AC], [EXPR] and [TNVC].  Python puts no
    static type on list items, so the five classes form one type. *)
Inductive obj : Type :=
| LiteralARI (type_enum : StructType.t) (value : pyval)
| ReferenceARI (ident : Identity) (params : option (list obj))
| AC (items : list obj)
| EXPR (type_enum : StructType.t) (items : list obj)
| TNVC (items : list obj).

(** [LiteralARI.check_type] *)
Definition check_type (type_enum : StructType.t) (value : pyval)
  : result unit :=
  if StructType.eqb type_enum StructType.BOOL then
    match value with
    | PyBool _ => Ok tt
    | PyInt n => if (n =? 0) || (n =? 1) then Ok tt else Raise ValueError
    | _ => Raise ValueError
    end
  else
    match NUMERIC_LIMITS type_enum with
    | Some (lo, hi) =>
        fin <- math_isfinite value ;;
        match as_int value with
        | Some n =>
            if fin && ((n <? lo) || (hi <? n)) then Raise ValueError
            else Ok tt
        | None => Raise TypeError
        end
    | None =>
        if StructType.eqb type_enum StructType.STR then
          match value with PyStr _ => Ok tt | _ => Raise ValueError end
        else if StructType.eqb type_enum StructType.BSTR then
          match value with PyBytes _ => Ok tt | _ => Raise ValueError end
        else Ok tt
    end.

End ari.

(** ** cbor2 : the CBOR data items of [pyval] (RFC 8949) *)

Module cbor2.

(** [sys.maxsize] *)
Definition maxsize : Z := 2 ^ 63 - 1.

(** [v.to_bytes(n, 'big')], also [struct.pack] of a big-endian unsigned. *)
Fixpoint be_bytes (n : nat) (v : Z) : list byte :=
  match n with
  | O => []
  | S k => byte_of_Z ((v / 256 ^ Z.of_nat k) mod 256) :: be_bytes k v
  end.

(** [int.from_bytes(l, 'big')] *)
Definition int_from_bytes (l : list byte) : Z :=
  fold_left (fun acc b => acc * 256 + Z_of_byte b) l 0.

(** [CBOREncoder.encode_length] *)
Definition encode_length (major_tag length : Z) : list byte :=
  let major_tag := Z.shiftl major_tag 5 in
  if length <? 24 then [byte_of_Z (Z.lor major_tag length)]
  else if length <? 256 then
    byte_of_Z (Z.lor major_tag 24) :: be_bytes 1 length
  else if length <? 65536 then
    byte_of_Z (Z.lor major_tag 25) :: be_bytes 2 length
  else if length <? 4294967296 then
    byte_of_Z (Z.lor major_tag 26) :: be_bytes 4 length
  else
    byte_of_Z (Z.lor major_tag 27) :: be_bytes 8 length.

Definition encode_bytestring (b : list byte) : list byte :=
  encode_length 2 (Z.of_nat (List.length b)) ++ b.

(** [value.bit_length()] of a non-negative integer *)
Definition bit_length (value : Z) : Z :=
  if value =? 0 then 0 else Z.log2 value + 1.

(** [CBOREncoder.encode_int] *)
Definition encode_int (value : Z) : list byte :=
  if (18446744073709551616 <=? value) || (value <? -18446744073709551616)
  then
    let major_type := if 0 <=? value then 2 else 3 in
    let value := if 0 <=? value then value else - value - 1 in
    let payload := be_bytes (Z.to_nat ((bit_length value + 7) / 8)) value in
    encode_length 6 major_type ++ encode_bytestring payload
  else if 0 <=? value then encode_length 0 value
  else encode_length 1 (- (value + 1)).

(** [CBOREncoder.encode], also [cbor2.dumps] *)
Definition encode (v : pyval) : result (list byte) :=
  match v with
  | PyNone => Ok [xf6]
  | PyBool true => Ok [xf5]
  | PyBool false => Ok [xf4]
  | PyInt n => Ok (encode_int n)
  | PyStr s =>
      e <- str_encode s ;;
      Ok (encode_length 3 (Z.of_nat (List.length e)) ++ e)
  | PyBytes b => Ok (encode_bytestring b)
  end.

Definition dumps (v : pyval) : result (list byte) := encode v.

(** [CBORDecoder.read] *)
Definition read (n : Z) (buf : list byte) : result (list byte * list byte) :=
  if n <=? Z.of_nat (List.length buf)
  then Ok (firstn (Z.to_nat n) buf, skipn (Z.to_nat n) buf)
  else Raise CBORDecodeEOF.

Definition read_uint (n : Z) (buf : list byte) : result (Z * list byte) :=
  '(b, rest) <- read n buf ;; Ok (int_from_bytes b, rest).

(** [CBORDecoder._decode_length] of a definite length *)
Definition decode_length (subtype : Z) (buf : list byte)
  : result (Z * list byte) :=
  if subtype <? 24 then Ok (subtype, buf)
  else if subtype =? 24 then read_uint 1 buf
  else if subtype =? 25 then read_uint 2 buf
  else if subtype =? 26 then read_uint 4 buf
  else if subtype =? 27 then read_uint 8 buf
  else Raise CBORDecodeValueError.

(** Byte and text strings of definite length.  Indefinite-length strings and
    lengths above [sys.maxsize] are outside the model. *)
Definition decode_string_body (subtype : Z) (buf : list byte)
  : result (list byte * list byte) :=
  if subtype =? 31 then Raise OutsideModel
  else
    '(length, rest) <- decode_length subtype buf ;;
    if maxsize <? length then Raise OutsideModel else read length rest.

(** An item that is not a tag. *)
Definition decode_untagged (buf : list byte) : result (pyval * list byte) :=
  match buf with
  | [] => Raise CBORDecodeEOF
  | ib :: rest =>
      let major_type := Z.shiftr (Z_of_byte ib) 5 in
      let subtype := Z.land (Z_of_byte ib) 31 in
      if major_type =? 0 then
        '(n, rest') <- decode_length subtype rest ;; Ok (PyInt n, rest')
      else if major_type =? 1 then
        '(n, rest') <- decode_length subtype rest ;; Ok (PyInt (- n - 1), rest')
      else if major_type =? 2 then
        '(b, rest') <- decode_string_body subtype rest ;; Ok (PyBytes b, rest')
      else if major_type =? 3 then
        '(b, rest') <- decode_string_body subtype rest ;;
        s <- bytes_decode b ;; Ok (PyStr s, rest')
      else if major_type =? 7 then
        if subtype =? 20 then Ok (PyBool false, rest)
        else if subtype =? 21 then Ok (PyBool true, rest)
        else if subtype =? 22 then Ok (PyNone, rest)
        else Raise OutsideModel
      else Raise OutsideModel
  end.

(** [CBORDecoder.decode]: one data item from the front of [buf], and the rest
    of the buffer.  Of the tags, the bignums 2 and 3 over a non-empty byte
    string are modelled. *)
Definition decode (buf : list byte) : result (pyval * list byte) :=
  match buf with
  | [] => Raise CBORDecodeEOF
  | ib :: rest =>
      let major_type := Z.shiftr (Z_of_byte ib) 5 in
      let subtype := Z.land (Z_of_byte ib) 31 in
      if major_type =? 6 then
        '(tagnum, rest') <- decode_length subtype rest ;;
        if (tagnum =? 2) || (tagnum =? 3) then
          match rest' with
          | [] => Raise CBORDecodeEOF
          | _ =>
              match decode_untagged rest' with
              | Ok (PyBytes (b :: bs), rest'') =>
                  let n := int_from_bytes (b :: bs) in
                  Ok (PyInt (if tagnum =? 2 then n else - n - 1), rest'')
              | Ok _ => Raise OutsideModel
              | Raise CBORDecodeEOF => Raise CBORDecodeEOF
              | Raise _ => Raise OutsideModel
              end
          end
        else Raise OutsideModel
      else decode_untagged buf
  end.

(** [cbor2.loads] *)
Definition loads (buf : list byte) : result pyval :=
  '(v, _) <- decode buf ;; Ok v.

End cbor2.

(** ** ace.util *)

Module util.

(** Membership in [string.printable]. *)
Definition in_string_printable (b : byte) : bool :=
  let n := Z_of_byte b in
  ((32 <=? n) && (n <=? 126)) || ((9 <=? n) && (n <=? 13)).

(** [bytes.isalpha()] on one byte *)
Definition byte_isalpha (b : byte) : bool :=
  let n := Z_of_byte b in
  ((65 <=? n) && (n <=? 90)) || ((97 <=? n) && (n <=? 122)).

(** [is_printable] *)
Definition is_printable (name : list byte) : bool :=
  match name with
  | [] => false
  | b :: _ => byte_isalpha b && forallb in_string_printable name
  end.

(** [str.replace("/", "_")] *)
Definition replace_slash (s : string) : string :=
  string_map (fun c => if Ascii.eqb c "/" then "_"%char else c) s.

(** [normalize_ident] *)
Definition normalize_ident (text : string) : string :=
  replace_slash (casefold text).

End util.

(** ** ace.ari_cbor : the CBOR codec *)

Module ari_cbor.
Import ari.

(** [class AriFlag] *)
Module AriFlag.
Definition HAS_NN : Z := 128.
Definition HAS_PARAMS : Z := 64.
Definition HAS_ISS : Z := 32.
Definition HAS_TAG : Z := 16.
End AriFlag.

(** [class TnvcFlag] *)
Module TnvcFlag.
Definition MIXED : Z := 8.
Definition TYPE : Z := 4.
Definition NAME : Z := 2.
Definition VALUE : Z := 1.
End TnvcFlag.

Definition concat_bytes (parts : list (list byte)) : list byte :=
  List.concat parts.

Module Encoder.

(** The bytes written for [obj.ident.name]: a byte string as it is, anything
    else through [str(...).encode('utf-8')]. *)
Definition name_bytes (name : pyval) : result (list byte) :=
  match name with
  | PyBytes b => Ok b
  | _ => s <- py_str name ;; str_encode s
  end.

(** The type marker [_encode_tnvc] writes for a parameter. *)
Definition param_type_enum (param : obj) : StructType.t :=
  match param with
  | ReferenceARI _ _ => StructType.ARI
  | AC _ => StructType.AC
  | EXPR _ _ => StructType.EXPR
  | TNVC _ => StructType.TNVC
  | LiteralARI type_enum _ => type_enum
  end.

Section bodies.

(** The bodies of [_encode_tnvc] and [_encode_ref_ari], over the encoder
    [encode_obj] they call for nested objects. *)
Variable encode_obj : obj -> bool -> result (list byte).

Definition encode_tnvc_body (params : list obj) : result (list byte) :=
  let flags :=
    match params with
    | [] => 0
    | _ => Z.lor TnvcFlag.TYPE TnvcFlag.VALUE
    end in
  head <- pack_B flags ;;
  count <- (if flags =? 0 then Ok []
            else cbor2.encode (PyInt (Z.of_nat (List.length params)))) ;;
  types <- mapM (fun param =>
                   pack_B (StructType.value (param_type_enum param)))
                params ;;
  values <- mapM (fun param => encode_obj param false) params ;;
  Ok (head ++ count ++ concat_bytes types ++ concat_bytes values).

Definition encode_ref_ari_body (ident : Identity)
    (params : option (list obj)) : result (list byte) :=
  let flags := StructType.value ident.(type_enum) in
  let flags := if is_not_None ident.(namespace)
               then Z.lor flags AriFlag.HAS_NN else flags in
  let flags := match params with
               | Some _ => Z.lor flags AriFlag.HAS_PARAMS
               | None => flags
               end in
  let flags := if is_not_None ident.(issuer)
               then Z.lor flags AriFlag.HAS_ISS else flags in
  let flags := if is_not_None ident.(tag)
               then Z.lor flags AriFlag.HAS_TAG else flags in
  head <- pack_B flags ;;
  ns <- (if is_not_None ident.(namespace)
         then cbor2.encode ident.(namespace) else Ok []) ;;
  nm <- name_bytes ident.(name) ;;
  let nm := cbor2.encode_bytestring nm in
  ps <- match params with
        | Some params => encode_tnvc_body params
        | None => Ok []
        end ;;
  iss <- (if is_not_None ident.(issuer)
          then cbor2.encode ident.(issuer) else Ok []) ;;
  tg <- (if is_not_None ident.(tag)
         then cbor2.encode ident.(tag) else Ok []) ;;
  Ok (head ++ ns ++ nm ++ ps ++ iss ++ tg).

(** [_encode_ref_ari] reads [obj.ident]: an object of another class has no
    such attribute. *)
Definition encode_ref_ari_of (o : obj) : result (list byte) :=
  match o with
  | ReferenceARI ident params => encode_ref_ari_body ident params
  | _ => Raise AttributeError
  end.

(** [bytes([0x80 | len(items)])] *)
Definition ac_head (items : list obj) : result (list byte) :=
  let v := Z.lor 128 (Z.of_nat (List.length items)) in
  if v <=? 255 then Ok [byte_of_Z v] else Raise ValueError.

End bodies.

(** [Encoder._encode_obj] *)
Fixpoint _encode_obj (o : obj) (as_ari : bool) {struct o}
  : result (list byte) :=
  match o with
  | ReferenceARI ident params =>
      encode_ref_ari_body _encode_obj ident params
  | AC items =>
      head <- ac_head items ;;
      body <- mapM (encode_ref_ari_of _encode_obj) items ;;
      Ok (head ++ concat_bytes body)
  | EXPR type_enum items =>
      ty <- cbor2.encode (PyInt (StructType.value type_enum)) ;;
      head <- ac_head items ;;
      body <- mapM (encode_ref_ari_of _encode_obj) items ;;
      Ok (ty ++ head ++ concat_bytes body)
  | TNVC items => encode_tnvc_body _encode_obj items
  | LiteralARI type_enum value =>
      if StructType.eqb type_enum StructType.BSTR then cbor2.encode value
      else
        head <- (if as_ari then
                   pack_B (Z.lor
                     (Z.shiftl (StructType.value type_enum
                                - StructType.value StructType.BOOL) 4)
                     (StructType.value StructType.LIT))
                 else Ok []) ;;
        body <- cbor2.encode value ;;
        Ok (head ++ body)
  end.

(** [Encoder._encode_ref_ari] *)
Definition _encode_ref_ari (o : obj) : result (list byte) :=
  encode_ref_ari_of _encode_obj o.

(** [Encoder._encode_tnvc] *)
Definition _encode_tnvc (params : list obj) : result (list byte) :=
  encode_tnvc_body _encode_obj params.

(** [Encoder.encode]: the bytes written to the buffer, when no exception is
    raised. *)
Definition encode (o : obj) : result (list byte) := _encode_obj o true.

End Encoder.

Module Decoder.

(** [struct.unpack('!B', cbordec.read(1))] *)
Definition read_B (buf : list byte) : result (Z * list byte) :=
  match buf with
  | [] => Raise CBORDecodeEOF
  | b :: rest => Ok (Z_of_byte b, rest)
  end.

(** [flags & f] as a condition *)
Definition has_flag (flags f : Z) : bool := negb (Z.land flags f =? 0).

(** [cbordec.decode() if cond else None] *)
Definition decode_if (cond : bool) (buf : list byte)
  : result (pyval * list byte) :=
  if cond then cbor2.decode buf else Ok (PyNone, buf).

(** The checks of [_decode_ari] on the decoded name. *)
Definition check_name (name : pyval) : result pyval :=
  match name with
  | PyBytes b =>
      if util.is_printable b then s <- bytes_decode b ;; Ok (PyStr s)
      else Ok name
  | PyStr _ => Ok name
  | _ => Raise ParseError
  end.

(** [if x is not None and not isinstance(x, bytes): raise ParseError] *)
Definition check_bytes_or_None (x : pyval) : result unit :=
  match x with
  | PyNone | PyBytes _ => Ok tt
  | _ => Raise ParseError
  end.

(** The type markers of a TNVC: [count] times one octet. *)
Fixpoint read_type_enums (count : Z) (buf : list byte) {struct buf}
  : result (list StructType.t * list byte) :=
  if count <=? 0 then Ok ([], buf)
  else
    match buf with
    | [] => Raise CBORDecodeEOF
    | b :: rest =>
        ty <- StructType.of_value (Z_of_byte b) ;;
        '(tys, rest') <- read_type_enums (count - 1) rest ;;
        Ok (ty :: tys, rest')
    end.

(** [range(count)] needs an integer. *)
Definition range_count (count : pyval) : result Z :=
  match as_int count with
  | Some n => Ok n
  | None => Raise TypeError
  end.

Section loops.
Variable A : Type.
Variable step : list byte -> result (A * list byte).

(** [for _ in range(count): items.append(step(cbordec))] *)
Fixpoint repeat_decode (count : nat) (buf : list byte)
  : result (list A * list byte) :=
  match count with
  | O => Ok ([], buf)
  | S k =>
      '(x, buf1) <- step buf ;;
      '(xs, buf2) <- repeat_decode k buf1 ;;
      Ok (x :: xs, buf2)
  end.

Variable T : Type.
Variable step_for : T -> list byte -> result (A * list byte).

(** [for t in ts: values.append(step_for(t, cbordec))] *)
Fixpoint each_decode (ts : list T) (buf : list byte)
  : result (list A * list byte) :=
  match ts with
  | [] => Ok ([], buf)
  | t :: ts' =>
      '(x, buf1) <- step_for t buf ;;
      '(xs, buf2) <- each_decode ts' buf1 ;;
      Ok (x :: xs, buf2)
  end.
End loops.

(** [Decoder._decode_ari], [_decode_tnvc], [_decode_ac_items] and
    [_decode_obj].  Each returns the decoded object and the unread rest of the
    buffer.  [fuel] bounds the depth of the calls. *)
Fixpoint _decode_ari (fuel : nat) (buf : list byte) {struct fuel}
  : result (obj * list byte) :=
  match fuel with
  | O => Raise OutOfFuel
  | S fuel' =>
      '(flags, buf) <- read_B buf ;;
      str_type <- StructType.of_value (Z.land flags 15) ;;
      if StructType.eqb str_type StructType.LIT then
        '(val, buf) <- except_Exception (cbor2.decode buf) ParseError ;;
        type_enum <- StructType.of_value
                       (Z.shiftr flags 4 + StructType.value StructType.BOOL) ;;
        Ok (LiteralARI type_enum val, buf)
      else
        '(obj_nn, buf) <- decode_if (has_flag flags AriFlag.HAS_NN) buf ;;
        '(name, buf) <- cbor2.decode buf ;;
        name <- check_name name ;;
        '(params, buf) <-
          (if has_flag flags AriFlag.HAS_PARAMS
           then '(l, buf') <- _decode_tnvc fuel' buf ;; Ok (Some l, buf')
           else Ok (None, buf)) ;;
        '(issuer, buf) <- decode_if (has_flag flags AriFlag.HAS_ISS) buf ;;
        _ <- check_bytes_or_None issuer ;;
        '(tag, buf) <- decode_if (has_flag flags AriFlag.HAS_TAG) buf ;;
        _ <- check_bytes_or_None tag ;;
        Ok (ReferenceARI (mkIdentity obj_nn str_type name issuer tag) params,
            buf)
  end

with _decode_tnvc (fuel : nat) (buf : list byte) {struct fuel}
  : result (list obj * list byte) :=
  match fuel with
  | O => Raise OutOfFuel
  | S fuel' =>
      '(flags, buf) <- read_B buf ;;
      '(count, buf) <-
        (if flags =? 0 then Ok (PyInt 0, buf) else cbor2.decode buf) ;;
      '(type_enums, buf) <-
        (if has_flag flags TnvcFlag.TYPE
         then n <- range_count count ;; read_type_enums n buf
         else Ok ([], buf)) ;;
      if has_flag flags TnvcFlag.NAME then Raise NotImplementedError
      else if has_flag flags TnvcFlag.VALUE then
        n <- range_count count ;;
        if has_flag flags TnvcFlag.TYPE then
          each_decode (_decode_obj fuel') type_enums buf
        else if n <=? 0 then Ok ([], buf)
        else Raise IndexError
      else Ok ([], buf)
  end

with _decode_ac_items (fuel : nat) (buf : list byte) {struct fuel}
  : result (list obj * list byte) :=
  match fuel with
  | O => Raise OutOfFuel
  | S fuel' =>
      '(item, buf) <- read_B buf ;;
      let count := Z.land item 31 in
      repeat_decode (_decode_ari fuel') (Z.to_nat count) buf
  end

with _decode_obj (fuel : nat) (type_enum : StructType.t) (buf : list byte)
    {struct fuel} : result (obj * list byte) :=
  match fuel with
  | O => Raise OutOfFuel
  | S fuel' =>
      if StructType.eqb type_enum StructType.ARI then _decode_ari fuel' buf
      else if StructType.eqb type_enum StructType.AC then
        '(items, buf) <- _decode_ac_items fuel' buf ;; Ok (AC items, buf)
      else if StructType.eqb type_enum StructType.EXPR then
        '(ty, buf) <- cbor2.decode buf ;;
        ty <- match as_int ty with
              | Some n => StructType.of_value n
              | None => Raise ValueError
              end ;;
        '(items, buf) <- _decode_ac_items fuel' buf ;;
        Ok (EXPR ty items, buf)
      else if StructType.eqb type_enum StructType.TNVC then
        '(items, buf) <- _decode_tnvc fuel' buf ;; Ok (AC items, buf)
      else if LITERAL_TYPES type_enum then
        '(item, buf) <- cbor2.decode buf ;;
        Ok (LiteralARI type_enum item, buf)
      else Raise ValueError
  end.

(** Every nested call reads at least one octet within three calls. *)
Definition fuel_for (buf : list byte) : nat := 3 + 3 * List.length buf.

(** [Decoder.decode]: the decoded ARI; octets left unread only cause a
    warning. *)
Definition decode (buf : list byte) : result obj :=
  match _decode_ari (fuel_for buf) buf with
  | Ok (res, _) => Ok res
  | Raise CBORDecodeEOF => Raise ParseError
  | Raise e => Raise e
  end.

End Decoder.

End ari_cbor.

(** ** Regular expressions, as Python's [re] matches them

    Leftmost alternative first, greedy repetition, backtracking; under
    [re.IGNORECASE] a literal letter matches both of its cases. *)

Module re.

Inductive regex : Type :=
| Eps
| Chr (c : ascii)
| Class (p : ascii -> bool)
| Seq (r1 r2 : regex)
| Alt (r1 r2 : regex)
| Star (r : regex).

Definition Plus (r : regex) : regex := Seq r (Star r).
Definition Opt (r : regex) : regex := Alt r Eps.

(** A literal string. *)
Fixpoint Lit (s : string) : regex :=
  match s with
  | EmptyString => Eps
  | String c s' => Seq (Chr c) (Lit s')
  end.

(** [r1|r2|...|rn] *)
Fixpoint Alts (rs : list regex) : regex :=
  match rs with
  | [] => Class (fun _ => false)
  | [r] => r
  | r :: rs' => Alt r (Alts rs')
  end.

Definition chr_eq_ignorecase (c c' : ascii) : bool :=
  Ascii.eqb (to_lower c) (to_lower c').

(** [matches r s k]: the first way, in backtracking order, to match [r] at the
    front of [s] such that the continuation [k] accepts the rest. *)
Fixpoint matches {A : Type} (r : regex) (s : string)
    (k : string -> option A) {struct r} : option A :=
  match r with
  | Eps => k s
  | Chr c =>
      match s with
      | String c' s' => if chr_eq_ignorecase c c' then k s' else None
      | EmptyString => None
      end
  | Class p =>
      match s with
      | String c' s' => if p c' then k s' else None
      | EmptyString => None
      end
  | Seq r1 r2 => matches r1 s (fun s' => matches r2 s' k)
  | Alt r1 r2 =>
      match matches r1 s k with
      | Some x => Some x
      | None => matches r2 s k
      end
  | Star r1 =>
      (fix loop (n : nat) (s : string) {struct n} : option A :=
         match n with
         | O => k s
         | S n' =>
             match matches r1 s
                     (fun s' =>
                        if (String.length s' <? String.length s)%nat
                        then loop n' s' else None) with
             | Some x => Some x
             | None => k s
             end
         end) (String.length s) s
  end.

(** [re.match(r, s)]: the length of the match at the front of [s]. *)
Definition match_len (r : regex) (s : string) : option nat :=
  matches r s (fun rest => Some (String.length s - String.length rest)%nat).

(** [\d] and [\s] on ASCII text *)
Definition digit : regex := Class is_digit.
Definition isspace (c : ascii) : bool :=
  let n := nat_of_ascii c in
  (((9 <=? n) && (n <=? 13)) || ((28 <=? n) && (n <=? 32)))%nat.

(** [[c1c2...]] and [[^c1c2...]] *)
Definition one_of (cs : string) : regex :=
  Class (fun c => existsb (Ascii.eqb c) (list_ascii_of_string cs)).
Definition none_of (cs : string) (also : ascii -> bool) : regex :=
  Class (fun c =>
           negb (existsb (Ascii.eqb c) (list_ascii_of_string cs) || also c)).

End re.

(** ** ace.ari_text : the text codec *)

Module ari_text.
Import ari.

(** *** ace.ari_text.lexmod *)

Module lexmod.
Import re.

(** The tokens with their values.  A FLOAT token carries a floating point
    number; the lexer of the model stops with [OutsideModel] where the Python
    lexer would make one. *)
Inductive token : Type :=
| ARI_PREFIX
| SLASH
| COMMA
| LPAREN
| RPAREN
| LSQRB
| RSQRB
| TYPENAME (v : StructType.t)
| TYPEDOT (v : StructType.t)
| BOOL (v : bool)
| INT (v : Z)
| NAME (v : string)
| TSTR (v : string)
| BSTR (v : list byte).

Definition dquote : ascii := "034"%char.
Definition squote : ascii := "039"%char.

(** ['|'.join(re.escape(item.name) for item in StructType)] *)
Definition type_names : regex :=
  Alts (map (fun item => Lit (StructType.name item)) StructType.members).

Definition hexdigit : regex := one_of "0123456789abcdefABCDEF".
Definition sign : regex := one_of "+-".
Definition dot_number : regex := Seq (Star digit) (Seq (Chr ".") (Star digit)).

Definition r_ARI_PREFIX : regex := Lit "ari:".
Definition r_TYPENAME : regex := Seq (Chr "(") (Seq type_names (Chr ")")).
Definition r_TYPEDOT : regex := Seq type_names (Chr ".").
Definition r_BOOL : regex := Alt (Lit "true") (Lit "false").
Definition r_FLOAT : regex :=
  Alt (Seq (Opt sign)
         (Alts [ Seq (Alt (Plus digit) dot_number)
                     (Seq (one_of "eE") (Seq (Opt sign) (Plus digit)));
                 dot_number;
                 Lit "Infinity" ]))
      (Lit "NaN").
Definition r_INT : regex :=
  Seq (Opt sign)
      (Alts [ Seq (Lit "0b") (Plus (one_of "01"));
              Seq (Lit "0x") (Plus hexdigit);
              Plus digit ]).
Definition r_TSTR : regex :=
  Seq (Chr dquote)
      (Seq (Star (Class (fun c => negb (Ascii.eqb c dquote)))) (Chr dquote)).
Definition r_BSTR : regex :=
  Seq (Opt (Alts [Lit "h"; Lit "b32"; Lit "h32"; Lit "b64"]))
      (Seq (Chr squote)
           (Seq (Star (Class (fun c => negb (Ascii.eqb c squote))))
                (Chr squote))).
Definition r_NAME : regex :=
  Seq (Class is_alpha) (Plus (none_of "/()[]," isspace)).

(** Digits of a number in a base up to 16; [None] on another character. *)
Definition digit_value (c : ascii) : option Z :=
  let n := Z.of_nat (nat_of_ascii c) in
  if (48 <=? n) && (n <=? 57) then Some (n - 48)
  else if (97 <=? n) && (n <=? 102) then Some (n - 87)
  else if (65 <=? n) && (n <=? 70) then Some (n - 55)
  else None.

Fixpoint digits_value (base : Z) (acc : Z) (s : string) : option Z :=
  match s with
  | EmptyString => Some acc
  | String c s' =>
      match digit_value c with
      | Some d => if d <? base then digits_value base (acc * base + d) s'
                  else None
      | None => None
      end
  end.

Fixpoint all_zero (s : string) : bool :=
  match s with
  | EmptyString => true
  | String c s' => Ascii.eqb c "0" && all_zero s'
  end.

(** [int(text, 0)] *)
Definition int_base0 (text : string) : result Z :=
  let '(sgn, body) :=
    match text with
    | String "+" r => (1, r)
    | String "-" r => (-1, r)
    | _ => (1, text)
    end in
  let digits base s :=
    match s with
    | EmptyString => Raise ValueError
    | _ => match digits_value base 0 s with
           | Some n => Ok (sgn * n)
           | None => Raise ValueError
           end
    end in
  match body with
  | String "0" (String "b" r) | String "0" (String "B" r) => digits 2 r
  | String "0" (String "x" r) | String "0" (String "X" r) => digits 16 r
  | String "0" (String "o" r) | String "0" (String "O" r) => digits 8 r
  | String "0" r => if all_zero r then Ok 0 else Raise ValueError
  | _ => digits 10 body
  end.

(** [base64.b16decode(val, casefold=True)] *)
Fixpoint b16decode (val : string) : result (list byte) :=
  match val with
  | EmptyString => Ok []
  | String a (String b r) =>
      match digit_value a, digit_value b with
      | Some x, Some y =>
          rest <- b16decode r ;; Ok (byte_of_Z (x * 16 + y) :: rest)
      | _, _ => Raise ValueError
      end
  | String _ EmptyString => Raise ValueError
  end.

(** The text before and after the first occurrence of [c]. *)
Fixpoint split_at (c : ascii) (s : string) : string * string :=
  match s with
  | EmptyString => (EmptyString, EmptyString)
  | String c' s' =>
      if Ascii.eqb c c' then (EmptyString, s')
      else let '(a, b) := split_at c s' in (String c' a, b)
  end.

(** [s[:-1]] *)
Definition drop_last (s : string) : string :=
  substring 0 (String.length s - 1) s.

Definition a_TYPENAME (lexeme : string) : result token :=
  v <- StructType.of_name (upper (drop_last (substring 1 (String.length lexeme) lexeme))) ;;
  Ok (TYPENAME v).

Definition a_TYPEDOT (lexeme : string) : result token :=
  v <- StructType.of_name (upper (drop_last lexeme)) ;; Ok (TYPEDOT v).

Definition a_BOOL (lexeme : string) : result token :=
  Ok (BOOL (String.eqb lexeme "true")).

Definition a_FLOAT (lexeme : string) : result token := Raise OutsideModel.

Definition a_INT (lexeme : string) : result token :=
  v <- int_base0 lexeme ;; Ok (INT v).

Definition a_TSTR (lexeme : string) : result token :=
  Ok (TSTR (drop_last (substring 1 (String.length lexeme) lexeme))).

(** [t_BSTR].  The base32 and base64 payloads are outside the model. *)
Definition a_BSTR (lexeme : string) : result token :=
  let '(enc, rest) := split_at squote lexeme in
  let val := drop_last rest in
  if String.eqb enc "h" then v <- b16decode val ;; Ok (BSTR v)
  else if String.eqb enc "b32" then Raise OutsideModel
  else if String.eqb enc "h32" then Raise NotImplementedError
  else if String.eqb enc "b64" then Raise OutsideModel
  else Ok (BSTR (list_byte_of_string val)).

(** The rules in the order of the master regular expression: the functions in
    the order of their definition, then the strings by decreasing length of
    their regular expression. *)
Definition rules : list (regex * (string -> result token)) :=
  [ (r_ARI_PREFIX, fun _ => Ok ARI_PREFIX);
    (r_TYPENAME, a_TYPENAME);
    (r_TYPEDOT, a_TYPEDOT);
    (r_BOOL, a_BOOL);
    (r_FLOAT, a_FLOAT);
    (r_INT, a_INT);
    (r_TSTR, a_TSTR);
    (r_BSTR, a_BSTR);
    (r_NAME, fun lexeme => Ok (NAME lexeme));
    (Chr "(", fun _ => Ok LPAREN);
    (Chr ")", fun _ => Ok RPAREN);
    (Chr "[", fun _ => Ok LSQRB);
    (Chr "]", fun _ => Ok RSQRB);
    (Chr "/", fun _ => Ok SLASH);
    (Chr ",", fun _ => Ok COMMA) ].

Fixpoint first_match (rs : list (regex * (string -> result token)))
    (s : string) : option (nat * (string -> result token)) :=
  match rs with
  | [] => None
  | (r, act) :: rs' =>
      match match_len r s with
      | Some n => Some (n, act)
      | None => first_match rs' s
      end
  end.

(** [t_ignore = ' \t\n'] *)
Definition ignored (c : ascii) : bool :=
  Ascii.eqb c " " || Ascii.eqb c "009" || Ascii.eqb c "010".

(** The token stream of a text.  [skip] counts the characters of the current
    token still to pass.  A character no rule matches is skipped, as
    [t_error] does. *)
Fixpoint tokens_from (skip : nat) (s : string) {struct s}
  : result (list token) :=
  match s with
  | EmptyString => Ok []
  | String c s' =>
      match skip with
      | S k => tokens_from k s'
      | O =>
          if ignored c then tokens_from 0 s'
          else
            match first_match rules s with
            | Some (O, _) => Raise OutsideModel
            | Some (S n, act) =>
                tok <- act (substring 0 (S n) s) ;;
                toks <- tokens_from n s' ;;
                Ok (tok :: toks)
            | None => tokens_from 0 s'
            end
      end
  end.

(** All tokens of [text], as the loop over [lexer.token()] yields them. *)
Definition tokenize (text : string) : result (list token) :=
  if is_ascii text then tokens_from 0 text else Raise OutsideModel.

End lexmod.

(** *** ace.ari_text.parsemod *)

Module parsemod.
Import lexmod.

(** [p_litvalue_bool], [p_litvalue_int], [p_litvalue_tstr],
    [p_litvalue_bstr] *)
Definition p_litvalue (tok : token) : option obj :=
  match tok with
  | BOOL v => Some (LiteralARI StructType.BOOL (PyBool v))
  | INT v => Some (LiteralARI StructType.VAST (PyInt v))
  | TSTR v => Some (LiteralARI StructType.STR (PyStr v))
  | BSTR v => Some (LiteralARI StructType.BSTR (PyBytes v))
  | _ => None
  end.

(** [p_literal_with_type]: the typed literal, or [RuntimeError] when
    [check_type] raises. *)
Definition p_literal_with_type (type_enum : StructType.t) (lit : obj)
  : result obj :=
  match lit with
  | LiteralARI _ value =>
      _ <- except_Exception (check_type type_enum value) RuntimeError ;;
      Ok (LiteralARI type_enum value)
  | _ => Raise OutsideModel
  end.

(** [p_nsid_int], [p_nsid_name] *)
Definition p_nsid (tok : token) : option pyval :=
  match tok with
  | INT v => Some (PyInt v)
  | NAME v => Some (PyStr v)
  | _ => None
  end.

(** [p_objid_bstr], [p_objid_name] *)
Definition p_objid (tok : token) : option pyval :=
  match tok with
  | BSTR v =>
      if util.is_printable v then Some (PyStr (string_of_list_byte v))
      else Some (PyBytes v)
  | NAME v => Some (PyStr v)
  | _ => None
  end.

(** The outcome of a parsing function: a value and the tokens after it,
    a syntax error, or an exception of a semantic action. *)
Inductive parsed (A : Type) : Type :=
| Parsed (a : A) (rest : list token)
| SyntaxError
| ActionRaised (e : exn).
Arguments Parsed {A} a rest.
Arguments SyntaxError {A}.
Arguments ActionRaised {A} e.

(** literal : litvalue | TYPEDOT litvalue *)
Definition parse_literal (toks : list token) : parsed obj :=
  match toks with
  | TYPEDOT type_enum :: tok :: rest =>
      match p_litvalue tok with
      | Some lit =>
          match p_literal_with_type type_enum lit with
          | Ok v => Parsed v rest
          | Raise e => ActionRaised e
          end
      | None => SyntaxError
      end
  | tok :: rest =>
      match p_litvalue tok with
      | Some lit => Parsed lit rest
      | None => SyntaxError
      end
  | [] => SyntaxError
  end.

(** ident : SLASH nsid SLASH TYPEDOT objid
          | SLASH SLASH TYPEDOT objid
          | SLASH TYPEDOT objid *)
Definition parse_ident (toks : list token) : parsed Identity :=
  match toks with
  | SLASH :: SLASH :: TYPEDOT type_enum :: tok :: rest
  | SLASH :: TYPEDOT type_enum :: tok :: rest =>
      match p_objid tok with
      | Some name =>
          Parsed (mkIdentity PyNone type_enum name PyNone PyNone) rest
      | None => SyntaxError
      end
  | SLASH :: ns :: SLASH :: TYPEDOT type_enum :: tok :: rest =>
      match p_nsid ns, p_objid tok with
      | Some namespace, Some name =>
          Parsed (mkIdentity namespace type_enum name PyNone PyNone) rest
      | _, _ => SyntaxError
      end
  | _ => SyntaxError
  end.

(** The recursive part of the grammar, by recursive descent:
<<
    ari       : ARI_PREFIX ssp | literal
    ssp       : literal | ident | ident LPAREN RPAREN
              | ident LPAREN paramlist RPAREN
    paramlist : paramlist COMMA paramitem | paramitem
    paramitem : ari | LSQRB RSQRB | TYPENAME LSQRB aclist RSQRB
              | LSQRB aclist RSQRB
    aclist    : aclist COMMA ari | ari
>>
    [fuel] bounds the depth of the calls. *)
Fixpoint parse_ari (fuel : nat) (toks : list token) {struct fuel}
  : parsed obj :=
  match fuel with
  | O => ActionRaised OutOfFuel
  | S fuel' =>
      match toks with
      | ARI_PREFIX :: rest => parse_ssp fuel' rest
      | _ => parse_literal toks
      end
  end

with parse_ssp (fuel : nat) (toks : list token) {struct fuel}
  : parsed obj :=
  match fuel with
  | O => ActionRaised OutOfFuel
  | S fuel' =>
      match toks with
      | SLASH :: _ =>
          match parse_ident toks with
          | Parsed ident (LPAREN :: RPAREN :: rest) =>
              Parsed (ReferenceARI ident (Some [])) rest
          | Parsed ident (LPAREN :: rest) =>
              match parse_paramlist fuel' rest with
              | Parsed params (RPAREN :: rest') =>
                  Parsed (ReferenceARI ident (Some params)) rest'
              | Parsed _ _ => SyntaxError
              | SyntaxError => SyntaxError
              | ActionRaised e => ActionRaised e
              end
          | Parsed ident rest => Parsed (ReferenceARI ident None) rest
          | SyntaxError => SyntaxError
          | ActionRaised e => ActionRaised e
          end
      | _ => parse_literal toks
      end
  end

with parse_paramlist (fuel : nat) (toks : list token) {struct fuel}
  : parsed (list obj) :=
  match fuel with
  | O => ActionRaised OutOfFuel
  | S fuel' =>
      match parse_paramitem fuel' toks with
      | Parsed item (COMMA :: rest) =>
          match parse_paramlist fuel' rest with
          | Parsed items rest' => Parsed (item :: items) rest'
          | SyntaxError => SyntaxError
          | ActionRaised e => ActionRaised e
          end
      | Parsed item rest => Parsed [item] rest
      | SyntaxError => SyntaxError
      | ActionRaised e => ActionRaised e
      end
  end

with parse_paramitem (fuel : nat) (toks : list token) {struct fuel}
  : parsed obj :=
  match fuel with
  | O => ActionRaised OutOfFuel
  | S fuel' =>
      match toks with
      | LSQRB :: RSQRB :: rest => Parsed (AC []) rest
      | LSQRB :: rest =>
          match parse_aclist fuel' rest with
          | Parsed items (RSQRB :: rest') => Parsed (AC items) rest'
          | Parsed _ _ => SyntaxError
          | SyntaxError => SyntaxError
          | ActionRaised e => ActionRaised e
          end
      | TYPENAME type_enum :: LSQRB :: rest =>
          match parse_aclist fuel' rest with
          | Parsed items (RSQRB :: rest') =>
              Parsed (EXPR type_enum items) rest'
          | Parsed _ _ => SyntaxError
          | SyntaxError => SyntaxError
          | ActionRaised e => ActionRaised e
          end
      | _ => parse_ari fuel' toks
      end
  end

with parse_aclist (fuel : nat) (toks : list token) {struct fuel}
  : parsed (list obj) :=
  match fuel with
  | O => ActionRaised OutOfFuel
  | S fuel' =>
      match parse_ari fuel' toks with
      | Parsed item (COMMA :: rest) =>
          match parse_aclist fuel' rest with
          | Parsed items rest' => Parsed (item :: items) rest'
          | SyntaxError => SyntaxError
          | ActionRaised e => ActionRaised e
          end
      | Parsed item rest => Parsed [item] rest
      | SyntaxError => SyntaxError
      | ActionRaised e => ActionRaised e
      end
  end.

Definition fuel_for (toks : list token) : nat := 4 + 4 * List.length toks.

(** [parser.parse(text, lexer=lexer)] on the token stream: the value of the
    start symbol [ari] when the whole stream derives from it; [p_error] and
    the semantic actions raise [RuntimeError]. *)
Definition parse (toks : list token) : result obj :=
  match parse_ari (fuel_for toks) toks with
  | Parsed v [] => Ok v
  | Parsed _ (_ :: _) => Raise RuntimeError
  | SyntaxError => Raise RuntimeError
  | ActionRaised e => Raise e
  end.

End parsemod.

(** [class Decoder] *)
Module Decoder.

(** [Decoder.decode].  The Python parser pulls the tokens one at a time, so an
    exception of a lexer action may come before or after the syntax error of
    an earlier token; the model leaves a text on which a lexer action raises
    outside. *)
Definition decode_tokens (toks : list lexmod.token) : result obj :=
  match parsemod.parse toks with
  | Ok res => Ok res
  | Raise RuntimeError => Raise ParseError
  | Raise e => Raise e
  end.

Definition decode (text : string) : result obj :=
  match lexmod.tokenize text with
  | Ok toks => decode_tokens toks
  | Raise _ => Raise OutsideModel
  end.

End Decoder.

(** [ace.cborutil.to_diag] *)
Definition hex_digit (n : Z) : ascii :=
  ascii_of_nat (Z.to_nat (if n <? 10 then 48 + n else 87 + n)).

Fixpoint hex (val : list byte) : string :=
  match val with
  | [] => EmptyString
  | b :: rest =>
      String (hex_digit (Z_of_byte b / 16))
        (String (hex_digit (Z_of_byte b mod 16)) (hex rest))
  end.

Definition to_diag (val : pyval) : string :=
  match val with
  | PyNone => "null"
  | PyBool true => "true"
  | PyBool false => "false"
  | PyInt n => str_of_int n
  | PyStr s => String lexmod.dquote s ++ String lexmod.dquote EmptyString
  | PyBytes b => "h'" ++ hex b ++ "'"
  end%string.

(** [class Encoder] *)
Module Encoder.

(** [', '.join] without the space: the parts separated by commas *)
Fixpoint join_comma (parts : list string) : string :=
  match parts with
  | [] => EmptyString
  | [x] => x
  | x :: rest => (x ++ "," ++ join_comma rest)%string
  end.

(** What [encode] writes for the identity of a reference. *)
Definition encode_ident (ident : Identity) : result string :=
  ns <- (if truthy ident.(namespace)
         then s <- py_str ident.(namespace) ;; Ok ("/" ++ s)%string
         else Ok EmptyString) ;;
  nm <- (if truthy ident.(name)
         then
           s <- match ident.(name) with
                | PyBytes _ => Ok (to_diag ident.(name))
                | _ => py_str ident.(name)
                end ;;
           Ok ("/" ++ StructType.name ident.(type_enum) ++ "." ++ s)%string
         else Ok EmptyString) ;;
  Ok ("ari:" ++ ns ++ nm)%string.

(** [Encoder.encode]: the text written to the buffer, when no exception is
    raised.  [_encode_list] is the map over the items. *)
Fixpoint encode (o : obj) {struct o} : result string :=
  let _encode_list items begin end_ :=
    parts <- mapM encode items ;;
    Ok (begin ++ join_comma parts ++ end_)%string in
  match o with
  | AC items => _encode_list items "[" "]"
  | EXPR type_enum items =>
      l <- _encode_list items "[" "]" ;;
      Ok ("(" ++ StructType.name type_enum ++ ")" ++ l)
  | LiteralARI type_enum value =>
      Ok ((if LITERAL_LABEL_TYPES type_enum
           then StructType.name type_enum ++ "." else "") ++ to_diag value)
  | ReferenceARI ident params =>
      head <- encode_ident ident ;;
      match params with
      | Some params =>
          l <- _encode_list params "(" ")" ;; Ok (head ++ l)
      | None => Ok head
      end
  | TNVC _ => Raise TypeError
  end%string.

End Encoder.

End ari_text.

(** ** ace.models : the ORM classes of an ADM

    A column is an optional value ([None] until it is set).  The children of
    an [AdmFile] are the rows whose [admfile] relationship points to it; the
    model keeps them in the lists of the [AdmFile]. *)

Module models.

Record TypeNameItem : Type := mkTypeNameItem {
  tn_type : option string;
  tn_name : option string
}.

Record TypeNameList : Type := mkTypeNameList {
  tn_items : list TypeNameItem
}.

Record AriAP : Type := mkAriAP {
  ap_type : option string;
  ap_value : option string
}.

Record ARI : Type := mkARI {
  ns : option string;
  nm : option string;
  ap : list AriAP
}.

Record AC : Type := mkAC {
  items : list ARI
}.

Record Expr : Type := mkExpr {
  expr_type : option string;
  postfix : option AC
}.

Record AdmUses : Type := mkAdmUses {
  uses_namespace : option string;
  uses_norm_namespace : option string
}.

(** [class AdmObjMixin] *)
Record AdmObjMixin : Type := mkAdmObj {
  name : option string;
  description : option string;
  norm_name : option string;
  enum : option Z
}.

Record Mdat : Type := mkMdat {
  mdat_base :> AdmObjMixin;
  mdat_type : option string;
  mdat_value : option string
}.

Record Edd : Type := mkEdd {
  edd_base :> AdmObjMixin;
  edd_type : option string;
  edd_parmspec : option TypeNameList
}.

Record Const : Type := mkConst {
  const_base :> AdmObjMixin;
  const_type : option string;
  const_value : option string
}.

Record Ctrl : Type := mkCtrl {
  ctrl_base :> AdmObjMixin;
  ctrl_parmspec : option TypeNameList
}.

Record Mac : Type := mkMac {
  mac_base :> AdmObjMixin;
  mac_parmspec : option TypeNameList;
  action : option AC
}.

Record OperParm : Type := mkOperParm {
  operparm_type : option string
}.

Record Oper : Type := mkOper {
  oper_base :> AdmObjMixin;
  result_type : option string;
  in_type : list OperParm
}.

Record Rptt : Type := mkRptt {
  rptt_base :> AdmObjMixin;
  rptt_parmspec : option TypeNameList;
  definition : option AC
}.

Record Tblt : Type := mkTblt {
  tblt_base :> AdmObjMixin;
  columns : option TypeNameList
}.

Record Var : Type := mkVar {
  var_base :> AdmObjMixin;
  var_type : option string;
  initializer : option Expr
}.

Record AdmFile : Type := mkAdmFile {
  abs_file_path : option string;
  adm_norm_name : option string;
  norm_namespace : option string;
  adm_ns : option string;
  adm_enum : option Z;
  uses : list AdmUses;
  mdat : list Mdat;
  const : list Const;
  ctrl : list Ctrl;
  edd : list Edd;
  mac : list Mac;
  oper : list Oper;
  rptt : list Rptt;
  tblt : list Tblt;
  var : list Var
}.

(** The ORM classes derived from [AdmObjMixin], and an object of one of
    them. *)
Inductive cls : Type :=
| MdatCls | ConstCls | CtrlCls | EddCls | MacCls | OperCls | RpttCls
| TbltCls | VarCls.

Inductive AdmObj : Type :=
| AMdat (x : Mdat)
| AConst (x : Const)
| ACtrl (x : Ctrl)
| AEdd (x : Edd)
| AMac (x : Mac)
| AOper (x : Oper)
| ARptt (x : Rptt)
| ATblt (x : Tblt)
| AVar (x : Var).

Definition base (o : AdmObj) : AdmObjMixin :=
  match o with
  | AMdat x => x | AConst x => x | ACtrl x => x | AEdd x => x | AMac x => x
  | AOper x => x | ARptt x => x | ATblt x => x | AVar x => x
  end.

(** [obj.parmspec] when [hasattr(obj, 'parmspec') and obj.parmspec is not
    None] *)
Definition parmspec (o : AdmObj) : option TypeNameList :=
  match o with
  | ACtrl x => ctrl_parmspec x
  | AEdd x => edd_parmspec x
  | AMac x => mac_parmspec x
  | ARptt x => rptt_parmspec x
  | _ => None
  end.

(** The rows of class [c] whose [admfile] is [adm]. *)
Definition children (adm : AdmFile) (c : cls) : list AdmObj :=
  match c with
  | MdatCls => map AMdat adm.(mdat)
  | ConstCls => map AConst adm.(const)
  | CtrlCls => map ACtrl adm.(ctrl)
  | EddCls => map AEdd adm.(edd)
  | MacCls => map AMac adm.(mac)
  | OperCls => map AOper adm.(oper)
  | RpttCls => map ARptt adm.(rptt)
  | TbltCls => map ATblt adm.(tblt)
  | VarCls => map AVar adm.(var)
  end.

(** The content of a database session: the [AdmFile] rows with their
    children, and the [Mdat] rows that belong to no [AdmFile]. *)
Record Session : Type := mkSession {
  admfiles : list AdmFile;
  loose_mdat : list Mdat
}.

(** [Query.one_or_none] *)
Definition one_or_none {A : Type} (rows : list A) : result (option A) :=
  match rows with
  | [] => Ok None
  | [x] => Ok (Some x)
  | _ => Raise MultipleResultsFound
  end.

(** [column == value] in a filter: a NULL column matches nothing. *)
Definition col_eq_str (col : option string) (v : string) : bool :=
  match col with
  | Some s => String.eqb s v
  | None => false
  end.

Definition col_eq_int (col : option Z) (v : Z) : bool :=
  match col with
  | Some n => n =? v
  | None => false
  end.

End models.

(** ** ace.adm_set *)

Module AdmSet.
Import models.

(** [AdmSet.get_by_norm_name] *)
Definition get_by_norm_name (self : Session) (name : string)
  : result AdmFile :=
  let name := casefold name in
  adm <- one_or_none
           (filter (fun a => col_eq_str a.(adm_norm_name) name)
                   self.(admfiles)) ;;
  match adm with
  | Some adm => Ok adm
  | None => Raise KeyError
  end.

(** [AdmSet.get_by_enum] *)
Definition get_by_enum (self : Session) (enum : Z) : result AdmFile :=
  adm <- one_or_none
           (filter (fun a => col_eq_int a.(adm_enum) enum) self.(admfiles)) ;;
  match adm with
  | Some adm => Ok adm
  | None => Raise KeyError
  end.

(** [AdmSet.contains_namespace] *)
Definition contains_namespace (self : Session) (namespace : string) : bool :=
  existsb (fun a => col_eq_str a.(norm_namespace) namespace) self.(admfiles).

(** [AdmSet.get_child], for an [adm] that is not [None].  [norm_name] is the
    keyword argument as passed: [None], a text, or an object without
    [casefold]. *)
Definition get_child (self : Session) (adm : AdmFile) (c : cls)
    (norm_name : pyval) (enum : option Z) : result (option AdmObj) :=
  let query := children adm c in
  query <- match norm_name with
           | PyNone => Ok query
           | PyStr s =>
               Ok (filter (fun o => col_eq_str (models.norm_name (base o))
                                               (casefold s)) query)
           | _ => Raise AttributeError
           end ;;
  let query := match enum with
               | Some e =>
                   filter (fun o => col_eq_int (models.enum (base o)) e) query
               | None => query
               end in
  one_or_none query.

End AdmSet.

(** ** ace.nickname : conversion to and from nicknames *)

Module nickname.
Import ari.

(** [ORM_TYPE] *)
Definition ORM_TYPE (t : StructType.t) : result models.cls :=
  match t with
  | StructType.MDAT => Ok models.MdatCls
  | StructType.CONST => Ok models.ConstCls
  | StructType.CTRL => Ok models.CtrlCls
  | StructType.EDD => Ok models.EddCls
  | StructType.MAC => Ok models.MacCls
  | StructType.OPER => Ok models.OperCls
  | StructType.RPTT => Ok models.RpttCls
  | StructType.TBLT => Ok models.TbltCls
  | StructType.VAR => Ok models.VarCls
  | _ => Raise KeyError
  end.

(** [class AdmObjType(enum.IntEnum)] *)
Module AdmObjType.

Inductive t : Type :=
| CONST | CTRL | EDD | MAC | OPER | RPTT | SBR | TBLT | TBR | VAR | MDAT.

Definition members : list t :=
  [CONST; CTRL; EDD; MAC; OPER; RPTT; SBR; TBLT; TBR; VAR; MDAT].

Definition value (x : t) : Z :=
  match x with
  | CONST => 0 | CTRL => 1 | EDD => 2 | MAC => 3 | OPER => 4 | RPTT => 5
  | SBR => 6 | TBLT => 7 | TBR => 8 | VAR => 9 | MDAT => 10
  end.

Definition name (x : t) : string :=
  match x with
  | CONST => "CONST" | CTRL => "CTRL" | EDD => "EDD" | MAC => "MAC"
  | OPER => "OPER" | RPTT => "RPTT" | SBR => "SBR" | TBLT => "TBLT"
  | TBR => "TBR" | VAR => "VAR" | MDAT => "MDAT"
  end%string.

(** [AdmObjType[s]] *)
Definition of_name (s : string) : result t :=
  match find (fun x => String.eqb (name x) s) members with
  | Some x => Ok x
  | None => Raise KeyError
  end.

(** [AdmObjType(n)] *)
Definition of_value (n : Z) : result t :=
  match find (fun x => value x =? n) members with
  | Some x => Ok x
  | None => Raise ValueError
  end.

End AdmObjType.

(** [class Mode] *)
Inductive Mode : Type := TO_NN | FROM_NN.

(** An object after a call that mutates it, and the exception the call
    ended with, if any. *)
Record mutated (A : Type) : Type := mkMutated {
  now : A;
  raised : option exn
}.
Arguments mkMutated {A} now raised.
Arguments now {A} m.
Arguments raised {A} m.

(** [s.split(':')[1]] *)
Fixpoint after_colon (s : string) : option string :=
  match s with
  | EmptyString => None
  | String c s' => if Ascii.eqb c ":" then Some s' else after_colon s'
  end.

Fixpoint until_colon (s : string) : string :=
  match s with
  | EmptyString => EmptyString
  | String c s' =>
      if Ascii.eqb c ":" then EmptyString else String c (until_colon s')
  end.

Definition split_colon_1 (s : string) : result string :=
  match after_colon s with
  | Some rest => Ok (until_colon rest)
  | None => Raise IndexError
  end.

(** The loop of [_convert_ari] over [obj.parmspec.items]:
    [ari.params[ix] = TNVC(items=ari.params[ix].items)] where the declared
    type is ['TNVC'].  The assignments made before an exception stay. *)
Definition rewrap_param (params : option (list obj)) (ix : nat)
  : mutated (option (list obj)) :=
  match params with
  | None => mkMutated params (Some TypeError)
  | Some l =>
      match nth_error l ix with
      | None => mkMutated params (Some IndexError)
      | Some (AC items) | Some (EXPR _ items) | Some (TNVC items) =>
          mkMutated
            (Some (firstn ix l ++ TNVC items :: skipn (S ix) l)) None
      | Some _ => mkMutated params (Some AttributeError)
      end
  end.

Fixpoint rewrap_params (specs : list models.TypeNameItem) (ix : nat)
    (params : option (list obj)) : mutated (option (list obj)) :=
  match specs with
  | [] => mkMutated params None
  | spec :: specs' =>
      if models.col_eq_str spec.(models.tn_type) "TNVC" then
        let m := rewrap_param params ix in
        match m.(raised) with
        | Some e => m
        | None => rewrap_params specs' (S ix) m.(now)
        end
      else rewrap_params specs' (S ix) params
  end.

(** [class Converter]: [self._mode], [self._adms], [self._must] *)
Record Converter : Type := mkConverter {
  _mode : Mode;
  _adms : models.Session;
  _must : bool
}.

Section Converter_methods.
Variable self : Converter.

(** The lookups of the [TO_NN] branch of [_convert_ari], up to the point
    where the reference is rewritten: the enumerations and the ADM object,
    [None] where the method returns early, or the exception raised. *)
Definition to_nn_lookup (ident : Identity) (namespace : string)
  : result (option (Z * Z * models.AdmObj)) :=
  adm_name <- split_colon_1 namespace ;;
  let obj_type := ident.(type_enum) in
  let obj_name := ident.(name) in
  adm <- AdmSet.get_by_norm_name self.(_adms) adm_name ;;
  nn_type_enum <- AdmObjType.of_name (StructType.name obj_type) ;;
  c <- ORM_TYPE obj_type ;;
  obj <- AdmSet.get_child self.(_adms) adm c obj_name None ;;
  match adm.(models.adm_enum) with
  | None => if self.(_must) then Raise RuntimeError else Ok None
  | Some adm_enum =>
      match obj with
      | None => if self.(_must) then Raise RuntimeError else Ok None
      | Some obj =>
          match models.enum (models.base obj) with
          | None => if self.(_must) then Raise RuntimeError else Ok None
          | Some obj_enum =>
              Ok (Some (adm_enum * 20 + AdmObjType.value nn_type_enum,
                        obj_enum, obj))
          end
      end
  end.

(** The lookups of the [FROM_NN] branch, up to the two assignments. *)
Definition from_nn_lookup (ident : Identity) (namespace : Z)
  : result (models.AdmFile * option models.AdmObj) :=
  let adm_enum := namespace / 20 in
  adm_type_enum <- AdmObjType.of_value (namespace mod 20) ;;
  obj_enum <- match ident.(name) with
              | PyBytes b => cbor2.loads b
              | _ => Raise TypeError
              end ;;
  obj_enum <- match as_int obj_enum with
              | Some n => Ok n
              | None => Raise ValueError
              end ;;
  adm <- AdmSet.get_by_enum self.(_adms) adm_enum ;;
  c <- ORM_TYPE ident.(type_enum) ;;
  obj <- AdmSet.get_child self.(_adms) adm c PyNone (Some obj_enum) ;;
  Ok (adm, obj).

Definition opt_str (o : option string) : string :=
  match o with
  | Some s => s
  | None => "None"
  end.

Definition opt_pystr (o : option string) : pyval :=
  match o with
  | Some s => PyStr s
  | None => PyNone
  end.

(** [Converter._convert_ari] on a reference with identity [ident] and
    parameters [params]: the identity and parameters after the call, and the
    exception raised, if any. *)
Definition _convert_ari (ident : Identity) (params : option (list obj))
  : mutated (Identity * option (list obj)) :=
  match self.(_mode), ident.(namespace) with
  | TO_NN, PyStr namespace =>
      match to_nn_lookup ident namespace with
      | Raise e => mkMutated (ident, params) (Some e)
      | Ok None => mkMutated (ident, params) None
      | Ok (Some (nn, obj_enum, obj)) =>
          match cbor2.dumps (PyInt obj_enum) with
          | Raise e => mkMutated (ident, params) (Some e)
          | Ok nm =>
              let ident' :=
                mkIdentity (PyInt nn) ident.(type_enum) (PyBytes nm)
                           ident.(issuer) ident.(tag) in
              match models.parmspec obj with
              | Some spec =>
                  let m := rewrap_params spec.(models.tn_items) 0 params in
                  mkMutated (ident', m.(now)) m.(raised)
              | None => mkMutated (ident', params) None
              end
          end
      end
  | FROM_NN, PyInt _ | FROM_NN, PyBool _ =>
      match as_int ident.(namespace) with
      | None => mkMutated (ident, params) None
      | Some namespace =>
          match from_nn_lookup ident namespace with
          | Raise e => mkMutated (ident, params) (Some e)
          | Ok (adm, obj) =>
              let ns' := PyStr ("IANA:" ++ opt_str adm.(models.adm_norm_name)) in
              match obj with
              | None =>
                  mkMutated
                    (mkIdentity ns' ident.(type_enum) ident.(name)
                                ident.(issuer) ident.(tag), params)
                    (Some AttributeError)
              | Some obj =>
                  mkMutated
                    (mkIdentity ns' ident.(type_enum)
                       (opt_pystr (models.norm_name (models.base obj)))
                       ident.(issuer) ident.(tag), params)
                    None
              end
          end
      end
  | _, _ => mkMutated (ident, params) None
  end.

Section items.
Variable call : obj -> mutated obj.

(** [for item in items: self(item)] *)
Fixpoint call_items (items : list obj) : mutated (list obj) :=
  match items with
  | [] => mkMutated [] None
  | item :: rest =>
      let m := call item in
      match m.(raised) with
      | Some e => mkMutated (m.(now) :: rest) (Some e)
      | None =>
          let ms := call_items rest in
          mkMutated (m.(now) :: ms.(now)) ms.(raised)
      end
  end.
End items.

(** [Converter.__call__], with [fuel] bounding the depth of the calls. *)
Fixpoint call (fuel : nat) (o : obj) {struct fuel} : mutated obj :=
  match fuel with
  | O => mkMutated o (Some OutOfFuel)
  | S fuel' =>
      match o with
      | ReferenceARI ident params =>
          let m := _convert_ari ident params in
          let '(ident', params') := m.(now) in
          match m.(raised) with
          | Some e => mkMutated (ReferenceARI ident' params') (Some e)
          | None =>
              match params' with
              | Some (p :: ps) =>
                  let ms := call_items (call fuel') (p :: ps) in
                  mkMutated (ReferenceARI ident' (Some ms.(now))) ms.(raised)
              | _ => mkMutated (ReferenceARI ident' params') None
              end
          end
      | AC items =>
          let ms := call_items (call fuel') items in
          mkMutated (AC ms.(now)) ms.(raised)
      | EXPR type_enum items =>
          let ms := call_items (call fuel') items in
          mkMutated (EXPR type_enum ms.(now)) ms.(raised)
      | TNVC items =>
          let ms := call_items (call fuel') items in
          mkMutated (TNVC ms.(now)) ms.(raised)
      | LiteralARI _ _ => mkMutated o None
      end
  end.

(** The depth of an object: a bound on the nesting of the calls. *)
Fixpoint depth (o : obj) : nat :=
  match o with
  | LiteralARI _ _ => 1
  | ReferenceARI _ None => 1
  | ReferenceARI _ (Some l) => S (list_max (map depth l))
  | AC l | EXPR _ l | TNVC l => S (list_max (map depth l))
  end.

(** [Converter.__call__] *)
Definition __call__ (o : obj) : mutated obj := call (depth o) o.

End Converter_methods.

End nickname.

(** ** ace.constraints : the constraint checker *)

Module constraints.
Import models.

(** The object an [Issue] points to, also the object a constraint is called
    on. *)
Inductive subject : Type :=
| NoObject
| OfAdmFile (adm : AdmFile)
| OfObject (o : AdmObj)
| OfARI (a : ARI).

(** The text of [Issue.detail]: which message, with the values formatted
    into it. *)
Inductive detail_text : Type :=
| MissingMetadata (name : string)
| MultipleAdms (column : string) (value : pyval)
| DifferentFileName (int_name : option string) (abs_file_path : string)
| DuplicatedName (list_name : string) (name : option string)
| TypeNameNotKnown (obj_name : option string) (type_name : option string)
| NotResolvable (obj_name : option string) (ident : ari.Identity).

(** [class Issue] *)
Record Issue : Type := mkIssue {
  check_name : option string;
  adm_name : option string;
  obj : subject;
  detail : detail_text
}.

(** What a constraint does: the issues it appends and the count it returns,
    or the exception it raises. *)
Definition constraint : Type :=
  subject -> Session -> result (list Issue * Z).

(** *** ace.constraints.basic *)

Module basic.

Definition new_issue (o : subject) (d : detail_text) : Issue :=
  mkIssue None None o d.

(** [minimal_metadata] *)
Definition minimal_metadata : constraint := fun obj db_sess =>
  match obj with
  | NoObject =>
      let missing name :=
        match filter (fun m : Mdat => col_eq_str (models.name m) name)
                     db_sess.(loose_mdat) with
        | [] => [new_issue obj (MissingMetadata name)]
        | _ => []
        end in
      Ok (flat_map missing ["name"; "namespace"; "enum"; "version"]%string,
          4)
  | _ => Ok ([], 0)
  end.

Section grouping.
Variable K : Type.
Variable eqb : K -> K -> bool.

Definition count_of (k : K) (keys : list K) : nat :=
  List.length (filter (eqb k) keys).

(** [GROUP BY attr HAVING count(id) > 1]: the values that occur more than
    once.  SQL leaves the order of the groups open; the model takes the order
    of their first occurrence. *)
Fixpoint duplicated (seen keys : list K) (all : list K) : list K :=
  match keys with
  | [] => []
  | k :: keys' =>
      if existsb (eqb k) seen then duplicated seen keys' all
      else if (1 <? count_of k all)%nat
           then k :: duplicated (k :: seen) keys' all
           else duplicated (k :: seen) keys' all
  end.
End grouping.

Definition opt_eqb {A : Type} (eqb : A -> A -> bool) (x y : option A)
  : bool :=
  match x, y with
  | Some a, Some b => eqb a b
  | None, None => true
  | _, _ => false
  end.

Definition py_of_str (o : option string) : pyval :=
  match o with Some s => PyStr s | None => PyNone end.
Definition py_of_int (o : option Z) : pyval :=
  match o with Some n => PyInt n | None => PyNone end.

(** One column of [unique_adm_names]. *)
Definition multiple_adms {K : Type} (eqb : K -> K -> bool)
    (to_py : K -> pyval) (column : string) (attr : AdmFile -> K)
    (db_sess : Session) : list Issue :=
  let keys := map attr db_sess.(admfiles) in
  flat_map
    (fun k =>
       map (fun adm => new_issue (OfAdmFile adm)
                                 (MultipleAdms column (to_py k)))
           (filter (fun adm => eqb (attr adm) k) db_sess.(admfiles)))
    (duplicated eqb [] keys keys).

(** [unique_adm_names], with [is_global = True] *)
Definition unique_adm_names : constraint := fun obj db_sess =>
  Ok (multiple_adms (opt_eqb String.eqb) py_of_str "norm_name"
                    adm_norm_name db_sess
      ++ multiple_adms (opt_eqb String.eqb) py_of_str "norm_namespace"
                       norm_namespace db_sess
      ++ multiple_adms (opt_eqb Z.eqb) py_of_int "enum" adm_enum db_sess,
      3).

(** [os.path.basename] *)
Fixpoint basename_from (acc : string) (s : string) : string :=
  match s with
  | EmptyString => acc
  | String c s' =>
      if Ascii.eqb c "/" then basename_from s' s' else basename_from acc s'
  end.
Definition basename (path : string) : string := basename_from path path.

(** [os.path.splitext(p)[0]] for a name without a separator: the part before
    the last dot, unless only dots come before it. *)
Fixpoint last_dot (s : string) : option nat :=
  match s with
  | EmptyString => None
  | String c s' =>
      match last_dot s' with
      | Some n => Some (S n)
      | None => if Ascii.eqb c "." then Some O else None
      end
  end.

Fixpoint all_dots (s : string) : bool :=
  match s with
  | EmptyString => true
  | String c s' => Ascii.eqb c "." && all_dots s'
  end.

Definition splitext_root (p : string) : string :=
  match last_dot p with
  | Some n => if all_dots (substring 0 n p) then p else substring 0 n p
  | None => p
  end.

(** [same_file_name] *)
Definition same_file_name : constraint := fun obj _db_sess =>
  match obj with
  | OfAdmFile adm =>
      match adm.(abs_file_path) with
      | None => Ok ([], 0)
      | Some path =>
          let int_name := adm.(adm_norm_name) in
          let ext_name := splitext_root (basename path) in
          Ok (if opt_eqb String.eqb int_name (Some ext_name) then []
              else [new_issue obj (DifferentFileName int_name path)],
              1)
      end
  | _ => Ok ([], 0)
  end.

(** The loop of [unique_object_names] over one list: the second object with
    a name already seen is reported, once per name. *)
Fixpoint duplicate_names (list_name : string) (seen dupe : list (option string))
    (obj_list : list AdmObj) : list Issue :=
  match obj_list with
  | [] => []
  | top_obj :: rest =>
      let n := models.name (base top_obj) in
      let is_in := existsb (opt_eqb String.eqb n) in
      if is_in seen && negb (is_in dupe) then
        new_issue (OfObject top_obj) (DuplicatedName list_name n)
        :: duplicate_names list_name (n :: seen) (n :: dupe) rest
      else duplicate_names list_name (n :: seen) dupe rest
  end.

(** The relationships of [AdmFile] to classes derived from [AdmObjMixin]. *)
Definition list_attrs : list (string * cls) :=
  [ ("mdat", MdatCls); ("const", ConstCls); ("ctrl", CtrlCls);
    ("edd", EddCls); ("mac", MacCls); ("oper", OperCls); ("rptt", RpttCls);
    ("tblt", TbltCls); ("var", VarCls) ]%string.

(** [unique_object_names] *)
Definition unique_object_names : constraint := fun obj _db_sess =>
  match obj with
  | OfAdmFile adm =>
      Ok (flat_map (fun '(list_name, c) =>
                      duplicate_names list_name [] [] (children adm c))
                   list_attrs,
          Z.of_nat (List.length list_attrs))
  | _ => Ok ([], 0)
  end.

(** [valid_type_name._check_type]: [ari.StructType[type_name]] looks the name
    up as it is written. *)
Definition _check_type (top_obj : AdmObj) (type_name : option string)
  : list Issue * Z :=
  let known := match type_name with
               | Some s => match ari.StructType.of_name s with
                           | Ok _ => true
                           | Raise _ => false
                           end
               | None => false
               end in
  (if known then []
   else [new_issue (OfObject top_obj)
                   (TypeNameNotKnown (models.name (base top_obj)) type_name)],
   1).

(** Issues and counts of several checks, in order. *)
Definition join_checks (rs : list (list Issue * Z)) : list Issue * Z :=
  (flat_map fst rs, fold_right Z.add 0 (map snd rs)).

(** [valid_type_name.__call__] on an object of an ADM *)
Definition valid_type_name_obj (o : AdmObj) : list Issue * Z :=
  match o with
  | AConst x => _check_type o x.(const_type)
  | AEdd x => _check_type o x.(edd_type)
  | AOper x =>
      join_checks (_check_type o x.(result_type)
                   :: map (fun parm => _check_type o parm.(operparm_type))
                          x.(in_type))
  | AVar x =>
      join_checks (_check_type o x.(var_type)
                   :: match x.(initializer) with
                      | Some init => [_check_type o init.(expr_type)]
                      | None => []
                      end)
  | _ => ([], 0)
  end.

(** [valid_type_name] *)
Definition valid_type_name : constraint := fun obj _db_sess =>
  match obj with
  | OfAdmFile adm =>
      Ok (join_checks
            (map valid_type_name_obj
                 (children adm ConstCls ++ children adm EddCls
                  ++ children adm OperCls ++ children adm VarCls)))
  | OfObject o => Ok (valid_type_name_obj o)
  | _ => Ok ([], 0)
  end.

(** [ace.util.get_ident] *)
Definition get_ident (a : ARI) : result ari.Identity :=
  nm <- match a.(nm) with Some nm => Ok nm | None => Raise AttributeError end ;;
  '(type_name, remain) <-
    (let '(x, y) := ari_text.lexmod.split_at "." nm in
     if existsb (Ascii.eqb ".") (list_ascii_of_string nm)
     then Ok (x, y) else Raise ValueError) ;;
  namespace <- match a.(ns) with
               | Some ns => Ok (util.normalize_ident ns)
               | None => Raise AttributeError
               end ;;
  type_enum <- ari.StructType.of_name (upper type_name) ;;
  Ok (ari.mkIdentity (PyStr namespace) type_enum
        (PyStr (util.normalize_ident remain)) PyNone PyNone).

(** [Identity.strip_name], on a textual name *)
Definition strip_name (name : string) : string :=
  fst (ari_text.lexmod.split_at "(" name).

(** [ace.util.find_ident], on an identity with textual namespace and name *)
Definition find_ident (db_sess : Session) (type_enum : ari.StructType.t)
    (namespace name : string) : result (option AdmObj) :=
  let adm_ns := util.normalize_ident namespace in
  let obj_name := util.normalize_ident name in
  match nickname.ORM_TYPE type_enum with
  | Raise _ => Ok None
  | Ok c =>
      one_or_none
        (flat_map
           (fun adm =>
              if col_eq_str adm.(norm_namespace) adm_ns
              then filter (fun o => col_eq_str (models.norm_name (base o))
                                               obj_name)
                          (children adm c)
              else [])
           db_sess.(admfiles))
  end.

(** [valid_reference_ari.__call__] on an embedded ARI *)
Definition valid_reference_ari_ARI (db_sess : Session) (top_obj : AdmObj)
    (a : ARI) : result (list Issue * Z) :=
  ident <- get_ident a ;;
  match ident.(ari.namespace), ident.(ari.name) with
  | PyStr namespace, PyStr name =>
      let name := strip_name name in
      let ident := ari.mkIdentity (PyStr namespace) ident.(ari.type_enum)
                     (PyStr name) PyNone PyNone in
      found <- find_ident db_sess ident.(ari.type_enum) namespace name ;;
      match found with
      | Some _ => Ok ([], 1)
      | None =>
          Ok ([new_issue (OfObject top_obj)
                 (NotResolvable (models.name (base top_obj)) ident)], 1)
      end
  | _, _ => Raise OutsideModel
  end.

(** Checks in sequence; the first exception ends them. *)
Definition seq_checks (rs : list (result (list Issue * Z)))
  : result (list Issue * Z) :=
  l <- mapM (fun r => r) rs ;; Ok (join_checks l).

(** [obj.items] of an optional [AC] *)
Definition ac_items (ac : option AC) : result (list ARI) :=
  match ac with
  | Some ac => Ok ac.(items)
  | None => Raise AttributeError
  end.

(** [valid_reference_ari.__call__] on an object of an ADM *)
Definition valid_reference_ari_obj (db_sess : Session) (o : AdmObj)
  : result (list Issue * Z) :=
  let over items := seq_checks (map (valid_reference_ari_ARI db_sess o) items) in
  match o with
  | AMac x => items <- ac_items x.(action) ;; over items
  | ARptt x => items <- ac_items x.(definition) ;; over items
  | AVar x =>
      match x.(initializer) with
      | Some init => items <- ac_items init.(postfix) ;; over items
      | None => Ok ([], 0)
      end
  | _ => Ok ([], 0)
  end.

(** [valid_reference_ari] *)
Definition valid_reference_ari : constraint := fun obj db_sess =>
  match obj with
  | OfAdmFile adm =>
      seq_checks
        (map (valid_reference_ari_obj db_sess)
             (children adm MacCls ++ children adm RpttCls
              ++ children adm VarCls))
  | OfObject o => valid_reference_ari_obj db_sess o
  | _ => Ok ([], 0)
  end.

End basic.

(** *** ace.constraints.core *)

(** A registered constraint: its name, whether it has [is_global = True],
    and what it does. *)
Record registered : Type := mkRegistered {
  cst_name : string;
  is_global : bool;
  cst : constraint
}.

(** [CONSTRAINTS], in the order of registration *)
Definition CONSTRAINTS : list registered :=
  [ mkRegistered "ace.constraints.basic.minimal_metadata" false
                 basic.minimal_metadata;
    mkRegistered "ace.constraints.basic.unique_adm_names" true
                 basic.unique_adm_names;
    mkRegistered "ace.constraints.basic.same_file_name" false
                 basic.same_file_name;
    mkRegistered "ace.constraints.basic.unique_object_names" false
                 basic.unique_object_names;
    mkRegistered "ace.constraints.basic.valid_type_name" false
                 basic.valid_type_name;
    mkRegistered "ace.constraints.basic.valid_reference_ari" false
                 basic.valid_reference_ari ].

Module Checker.

Section with_session.
Variable _db_sess : Session.

(** [Checker._add_result]: the issues of one constraint, with the names
    filled in. *)
Definition _add_result (c : registered) (adm : option AdmFile)
  : result (list Issue) :=
  '(issuelist, count) <-
    c.(cst) (match adm with Some a => OfAdmFile a | None => NoObject end)
            _db_sess ;;
  Ok (map (fun issue =>
             let adm_name :=
               match issue.(adm_name) with
               | Some n => Some n
               | None =>
                   match adm, issue.(obj) with
                   | Some a, _ => a.(adm_norm_name)
                   | None, OfAdmFile a => a.(adm_norm_name)
                   | None, _ => None
                   end
               end in
             let check_name :=
               match issue.(check_name) with
               | Some n => Some n
               | None => Some c.(cst_name)
               end in
             mkIssue check_name adm_name issue.(obj) issue.(detail))
          issuelist).

(** [Checker.check] over the registry [registry] *)
Definition check_with (registry : list registered) (src : option AdmFile)
  : result (list Issue) :=
  let adm_list := match src with
                  | Some src => [src]
                  | None => _db_sess.(admfiles)
                  end in
  globals <- mapM (fun c => _add_result c None)
                  (filter is_global registry) ;;
  locals <- mapM (fun adm =>
                    l <- mapM (fun c => _add_result c (Some adm))
                              (filter (fun c => negb c.(is_global)) registry) ;;
                    Ok (List.concat l))
                 adm_list ;;
  Ok (List.concat globals ++ List.concat locals).

(** [Checker.check] *)
Definition check (src : option AdmFile) : result (list Issue) :=
  check_with CONSTRAINTS src.

End with_session.

End Checker.

End constraints.

(** ** ace.cborutil : the hexstr text of a byte string *)

Module cborutil.

(** [base64.b16encode(data).decode('ascii')]: two upper-case hexadecimal
    digits for each octet. *)
Definition HEX_digit (n : Z) : ascii :=
  ascii_of_nat (Z.to_nat (if n <? 10 then 48 + n else 55 + n)).

Fixpoint b16encode (data : list byte) : string :=
  match data with
  | [] => EmptyString
  | b :: rest =>
      String (HEX_digit (Z_of_byte b / 16))
        (String (HEX_digit (Z_of_byte b mod 16)) (b16encode rest))
  end.

(** [to_hexstr] *)
Definition to_hexstr (data : list byte) : string :=
  ("0x" ++ b16encode data)%string.

(** [from_hexstr] *)
Definition from_hexstr (text : string) : result (list byte) :=
  if negb (String.eqb (casefold (substring 0 2 text)) "0x")
  then Raise ValueError
  else ari_text.lexmod.b16decode
         (substring 2 (String.length text - 2) text).

End cborutil.

(** ** ace.tools.ace_ari : the conversion tool

    [decode] is a generator: the model gives the ARIs it yields and the
    exception that ends it, if any.  The input is the list of its lines, each
    with its line end. *)

Module ace_ari.
Import ari.

(** [str.strip()] on ASCII text *)
Fixpoint lstrip (s : string) : string :=
  match s with
  | EmptyString => EmptyString
  | String c s' => if re.isspace c then lstrip s' else s
  end.

Fixpoint rstrip (s : string) : string :=
  match s with
  | EmptyString => EmptyString
  | String c s' =>
      match rstrip s' with
      | EmptyString => if re.isspace c then EmptyString else String c EmptyString
      | r => String c r
      end
  end.

Definition strip (s : string) : string := rstrip (lstrip s).

(** [decode] with [--inform text]: a line that does not parse is kept and
    joined with the next ones; the last ParseError is raised at the end of the
    input. *)
Fixpoint decode_text (buffer : string) (last_err : option exn)
    (lines : list string) : list obj * option exn :=
  match lines with
  | [] => ([], last_err)
  | line :: rest =>
      let buffer := (buffer ++ line)%string in
      match ari_text.Decoder.decode buffer with
      | Ok ari =>
          let '(aris, err) := decode_text EmptyString None rest in
          (ari :: aris, err)
      | Raise ParseError => decode_text buffer (Some ParseError) rest
      | Raise e => ([], Some e)
      end
  end.

(** [decode] with [--inform cborhex] *)
Fixpoint decode_cborhex (lines : list string) : list obj * option exn :=
  match lines with
  | [] => ([], None)
  | line :: rest =>
      let indata := strip line in
      match (buf <- cborutil.from_hexstr indata ;;
             ari_cbor.Decoder.decode buf) with
      | Ok ari =>
          let '(aris, err) := decode_cborhex rest in (ari :: aris, err)
      | Raise e => ([], Some e)
      end
  end.

(** [encode] with [--outform text]: the text written *)
Definition encode_text (ari : obj) : result string :=
  s <- ari_text.Encoder.encode ari ;; Ok (s ++ String "010" EmptyString)%string.

(** [encode] with [--outform cborhex]: the text written *)
Definition encode_cborhex (ari : obj) : result string :=
  buf <- ari_cbor.Encoder.encode ari ;;
  Ok (cborutil.to_hexstr buf ++ String "010" EmptyString)%string.

End ace_ari.

(** * Properties *)

Unset Implicit Arguments.

(** ** Statements

    The predicates the theorems below are about. *)

(** Values that Python can hold and the model describes: a text is ASCII; the
    length of a text or byte string, and of the bytes of an integer, is at
    most [sys.maxsize]. *)
Definition representable (v : pyval) : bool :=
  match v with
  | PyNone | PyBool _ => true
  | PyInt n =>
      (cbor2.bit_length (if 0 <=? n then n else - n - 1) + 7) / 8
      <=? cbor2.maxsize
  | PyStr s => is_ascii s && (Z.of_nat (String.length s) <=? cbor2.maxsize)
  | PyBytes b => Z.of_nat (List.length b) <=? cbor2.maxsize
  end.

(** The literal types [t] with [t - BOOL] in the range of the upper nibble of
    the flag octet that are members of [StructType]. *)
Definition nibble_literal_type (t : ari.StructType.t) : bool :=
  match t with
  | ari.StructType.BOOL | ari.StructType.BYTE | ari.StructType.STR
  | ari.StructType.INT | ari.StructType.UINT | ari.StructType.VAST
  | ari.StructType.UVAST | ari.StructType.REAL32 | ari.StructType.REAL64 =>
      true
  | _ => false
  end.



(** [isinstance(o, ReferenceARI)] *)
Definition is_reference (o : ari.obj) : bool :=
  match o with ari.ReferenceARI _ _ => true | _ => false end.

(** A parsed AC that holds a literal: the tree of the text
    [ari:/ns/CTRL.name([VAST.1])]. *)
Definition ac_with_literal : ari.obj :=
  ari.ReferenceARI
    (ari.mkIdentity (PyStr "ns") ari.StructType.CTRL (PyStr "name")
                    PyNone PyNone)
    (Some [ari.AC [ari.LiteralARI ari.StructType.VAST (PyInt 1)]]).

(** Every reference of a tree, at any depth, has an identity with [P]. *)
Fixpoint all_refs (P : ari.Identity -> bool) (o : ari.obj) : bool :=
  match o with
  | ari.LiteralARI _ _ => true
  | ari.ReferenceARI ident params =>
      P ident && match params with
                 | Some l => forallb (all_refs P) l
                 | None => true
                 end
  | ari.AC l | ari.EXPR _ l | ari.TNVC l => forallb (all_refs P) l
  end.

Definition has_int_namespace (ident : ari.Identity) : bool :=
  match ident.(ari.namespace) with PyInt _ => true | _ => false end.
Definition has_text_namespace (ident : ari.Identity) : bool :=
  match ident.(ari.namespace) with PyStr _ => true | _ => false end.


(** The fixed table of nickname kinds of the AMP draft. *)
Definition nick_kind (t : ari.StructType.t) : option Z :=
  match t with
  | ari.StructType.CONST => Some 0
  | ari.StructType.CTRL => Some 1
  | ari.StructType.EDD => Some 2
  | ari.StructType.MAC => Some 3
  | ari.StructType.OPER => Some 4
  | ari.StructType.RPTT => Some 5
  | ari.StructType.SBR => Some 6
  | ari.StructType.TBLT => Some 7
  | ari.StructType.TBR => Some 8
  | ari.StructType.VAR => Some 9
  | ari.StructType.MDAT => Some 10
  | _ => None
  end.



(** A catalog with the ADM [amp_agent], enumeration 20, and its report
    template [full_report], enumeration 0. *)
Definition sample_adm : models.AdmFile :=
  models.mkAdmFile None (Some "amp_agent"%string) (Some "iana:amp_agent"%string)
    (Some "IANA:amp_agent"%string) (Some 20) [] [] [] [] [] [] []
    [models.mkRptt
       (models.mkAdmObj (Some "full_report"%string) None (Some "full_report"%string) (Some 0))
       None None]
    [] [].
Definition sample_catalog : models.Session := models.mkSession [sample_adm] [].

Definition reference_to (ns : string) (t : ari.StructType.t) (nm : string) : ari.obj :=
  ari.ReferenceARI (ari.mkIdentity (PyStr ns) t (PyStr nm) PyNone PyNone) None.


(** An ADM file without metadata. *)
Definition adm_without_mdat : models.AdmFile :=
  models.mkAdmFile (Some "/adms/myadm.json"%string) (Some "myadm"%string) (Some "myns"%string)
    (Some "myns"%string) (Some 200) [] [] [] [] [] [] [] [] [] [].


(** A type name that equals the name of a [StructType] member when case is
    ignored, the reading of the specification. *)
Definition names_type_ignoring_case (s : string) : bool :=
  existsb (fun t => String.eqb (casefold (ari.StructType.name t)) (casefold s))
          ari.StructType.members.

(** The type strings of an object that [valid_type_name] looks at. *)
Definition type_strings (o : models.AdmObj) : list (option string) :=
  match o with
  | models.AConst x => [x.(models.const_type)]
  | models.AEdd x => [x.(models.edd_type)]
  | models.AOper x =>
      x.(models.result_type) :: map models.operparm_type x.(models.in_type)
  | models.AVar x =>
      x.(models.var_type)
      :: match x.(models.initializer) with
         | Some init => [init.(models.expr_type)]
         | None => []
         end
  | _ => []
  end.

(** A type string that is the name of a [StructType] member as written. *)
Definition names_type_exactly (s : option string) : Prop :=
  exists t, s = Some (ari.StructType.name t).

(** A variable [v] of the type named [s]. *)
Definition var_of_type (s : string) : models.AdmObj :=
  models.AVar (models.mkVar (models.mkAdmObj (Some "v"%string) None (Some "v"%string) (Some 0))
                            (Some s) None).


(** The identity of [ari:/namespace/VAR.hello]. *)
Definition hello_ident : ari.Identity :=
  ari.mkIdentity (PyStr "namespace") ari.StructType.VAR (PyStr "hello")
                 PyNone PyNone.





(** A call that does not stop for lack of fuel. *)
Definition no_fuel {A : Type} (r : result A) : Prop := r <> Raise OutOfFuel.

(** A step of a decoder that does not stop for lack of fuel and leaves at
    most [n] octets unread. *)
Definition good {A : Type} (n : nat) (r : result (A * list byte)) : Prop :=
  match r with
  | Ok (_, rest) => (List.length rest <= n)%nat
  | Raise e => e <> OutOfFuel
  end.

(** With [3 * length buf + rank] units of fuel, a function of the CBOR decoder
    stops on an answer or on an exception of the program. *)
Definition enough_fuel {A : Type} (rank : nat)
    (f : nat -> list byte -> result (A * list byte)) (fuel : nat) : Prop :=
  forall buf, (3 * List.length buf + rank <= fuel)%nat ->
    good (List.length buf) (f fuel buf).

(** A function of the parser that takes at least one token when it
    succeeds. *)
Definition consumes {A : Type}
    (f : list ari_text.lexmod.token -> ari_text.parsemod.parsed A) : Prop :=
  forall toks v rest,
    f toks = ari_text.parsemod.Parsed v rest ->
    (List.length rest < List.length toks)%nat.

(** With [4 * length toks + rank] units of fuel, a function of the parser does
    not stop for lack of fuel. *)
Definition no_fuel_from {A : Type} (rank : nat)
    (f : nat -> list ari_text.lexmod.token -> ari_text.parsemod.parsed A)
    (fuel : nat) : Prop :=
  forall toks, (4 * List.length toks + rank <= fuel)%nat ->
    f fuel toks <> ari_text.parsemod.ActionRaised OutOfFuel.


(** *** The CBOR codec: what the decoder builds, what comes back *)

Section cbor_statements.
Import ari ari_cbor.

(** The types of the objects of an ADM that fit the low nibble of the flag
    octet of a reference: the members of [StructType] with a value from 0 to
    15, without LIT. *)
Definition is_amm_object_type (t : ari.StructType.t) : bool :=
  match t with
  | ari.StructType.CONST | ari.StructType.CTRL | ari.StructType.EDD
  | ari.StructType.MAC | ari.StructType.OPER | ari.StructType.RPTT
  | ari.StructType.SBR | ari.StructType.TBLT | ari.StructType.TBR
  | ari.StructType.VAR => true
  | _ => false
  end.

(** [x is None or isinstance(x, bytes)] *)
Definition bytes_or_None (v : pyval) : bool :=
  match v with PyNone | PyBytes _ => true | _ => false end.

(** The identities the CBOR decoder builds. *)
Definition decoded_ident (ident : ari.Identity) : bool :=
  is_amm_object_type ident.(ari.type_enum)
  && match ident.(ari.name) with
     | PyStr _ => true
     | PyBytes b => negb (util.is_printable b)
     | _ => false
     end
  && bytes_or_None ident.(ari.issuer)
  && bytes_or_None ident.(ari.tag).

(** The trees the CBOR decoder builds. *)
Fixpoint decoded_form (o : ari.obj) : bool :=
  match o with
  | ari.LiteralARI t _ => ari.LITERAL_TYPES t
  | ari.ReferenceARI ident params =>
      decoded_ident ident
      && match params with
         | Some l => forallb decoded_form l
         | None => true
         end
  | ari.AC l | ari.EXPR _ l => forallb decoded_form l
  | ari.TNVC _ => false
  end.

(** What [Decoder.decode] returns at the top: a literal of a type from BOOL to
    REAL64, or a reference. *)
Definition decoded_top (o : ari.obj) : bool :=
  match o with
  | ari.LiteralARI t _ => nibble_literal_type t
  | ari.ReferenceARI _ _ => true
  | _ => false
  end.

(** [f] and [g] agree wherever [f] does not stop for lack of fuel. *)
Definition extends {A : Type} (f g : list byte -> result A) : Prop :=
  forall buf, f buf <> Raise OutOfFuel -> g buf = f buf.

(** The identities that come back from the CBOR form as they went in. *)
Definition roundtrip_ident (ident : ari.Identity) : bool :=
  is_amm_object_type ident.(ari.type_enum)
  && representable ident.(ari.namespace)
  && representable ident.(ari.name)
  && match ident.(ari.name) with
     | PyStr s => util.is_printable (list_byte_of_string s)
     | PyBytes b => negb (util.is_printable b)
     | _ => false
     end
  && bytes_or_None ident.(ari.issuer) && representable ident.(ari.issuer)
  && bytes_or_None ident.(ari.tag) && representable ident.(ari.tag).

(** The trees that come back from the CBOR form as they went in, as a
    parameter of a reference. *)
Fixpoint cbor_roundtrips (o : ari.obj) : bool :=
  match o with
  | ari.LiteralARI t v =>
      ari.LITERAL_TYPES t && negb (ari.StructType.eqb t ari.StructType.UNK)
      && representable v
  | ari.ReferenceARI ident params =>
      roundtrip_ident ident
      && match params with
         | Some l =>
             (Z.of_nat (List.length l) <=? cbor2.maxsize)
             && forallb cbor_roundtrips l
         | None => true
         end
  | ari.AC l | ari.EXPR _ l =>
      (List.length l <=? 31)%nat
      && forallb (fun x => is_reference x && cbor_roundtrips x) l
  | ari.TNVC _ => false
  end.

End cbor_statements.

(** *** The nickname converter *)

Section nickname_statements.
Import ari nickname.

(** A catalog with the ADM [amp_agent], enumeration 20, and its control
    [gen_rpts], enumeration 3, with the parameters [ids], an AC, and
    [rxmgrs], a TNVC. *)
Definition gen_rpts_ctrl : models.Ctrl :=
  models.mkCtrl
    (models.mkAdmObj (Some "gen_rpts"%string) None (Some "gen_rpts"%string)
                     (Some 3))
    (Some (models.mkTypeNameList
             [models.mkTypeNameItem (Some "AC"%string) (Some "ids"%string);
              models.mkTypeNameItem (Some "TNVC"%string)
                                    (Some "rxmgrs"%string)])).

Definition agent_catalog : models.Session :=
  models.mkSession
    [models.mkAdmFile None (Some "amp_agent"%string)
       (Some "iana:amp_agent"%string) (Some "IANA:amp_agent"%string) (Some 20)
       [] [] [] [gen_rpts_ctrl] [] [] [] [] [] []]
    [].

Definition gen_rpts_ident : ari.Identity :=
  ari.mkIdentity (PyStr "IANA:amp_agent") ari.StructType.CTRL
                 (PyStr "gen_rpts") PyNone PyNone.

(** The identity after FROM_NN conversion with the ADM [adm] and the object
    [child]. *)
Definition from_nn_ident (ident : Identity) (adm : models.AdmFile)
    (child : models.AdmObj) : Identity :=
  mkIdentity (PyStr ("IANA:" ++ opt_str adm.(models.adm_norm_name)))
             ident.(type_enum)
             (opt_pystr (models.norm_name (models.base child)))
             ident.(issuer) ident.(tag).

(** [spec.type == 'TNVC'] *)
Definition declares_TNVC (spec : models.TypeNameItem) : bool :=
  models.col_eq_str spec.(models.tn_type) "TNVC".

(** [TNVC(items=p.items)], for the objects that have items *)
Definition as_TNVC (p : obj) : option obj :=
  match p with
  | AC items | EXPR _ items | TNVC items => Some (TNVC items)
  | _ => None
  end.

(** The parameter at position [ix] after the loop over the parameter
    specification [specs] of the object. *)
Definition rewrapped_at (specs : list models.TypeNameItem) (l : list obj)
    (ix : nat) : option obj :=
  match nth_error specs ix, nth_error l ix with
  | Some spec, Some p => if declares_TNVC spec then as_TNVC p else Some p
  | _, p => p
  end.

End nickname_statements.

(** *** The constraints and the normalized names *)

Section constraint_statements.
Import models constraints.
Local Open Scope string_scope.

(** The names of the objects of class [c] of an ADM, as written. *)
Definition names_of (adm : AdmFile) (c : cls) : list (option string) :=
  map (fun o => models.name (base o)) (children adm c).



Fixpoint no_char (c : ascii) (s : string) : bool :=
  match s with
  | EmptyString => true
  | String c' s' => negb (Ascii.eqb c' c) && no_char c s'
  end.

(** The ARI of an ADM with namespace [ns] and name [nm] in upper case. *)
Definition upper_ARI (a : ARI) : ARI :=
  mkARI (option_map upper a.(ns)) (option_map upper a.(nm)) a.(ap).

Definition norm_char (c : ascii) : ascii :=
  let c := to_lower c in if Ascii.eqb c "/" then "_"%char else c.

End constraint_statements.

(** *** The lexer and the text codec *)

Section text_statements.
Import ari ari_text ari_text.lexmod re.

(** The loop of [matches] for [Star r]. *)
Definition star_loop {A : Type} (r : regex) (k : string -> option A)
  : nat -> string -> option A :=
  fix loop (n : nat) (s : string) {struct n} : option A :=
    match n with
    | O => k s
    | S n' =>
        match matches r s
                (fun s' =>
                   if (String.length s' <? String.length s)%nat
                   then loop n' s' else None) with
        | Some x => Some x
        | None => k s
        end
    end.

(** Every character of [s] has [p]. *)
Fixpoint string_forall (p : ascii -> bool) (s : string) : bool :=
  match s with
  | EmptyString => true
  | String c s' => p c && string_forall p s'
  end.

(** The literals that come back from the text form as they went in: byte
    strings, texts of ASCII characters without a double quote, booleans. *)
Definition text_roundtrips (o : ari.obj) : bool :=
  match o with
  | ari.LiteralARI ari.StructType.BSTR (PyBytes _) => true
  | ari.LiteralARI ari.StructType.STR (PyStr s) =>
      is_ascii s
      && string_forall (fun c => negb (Ascii.eqb c ari_text.lexmod.dquote)) s
  | ari.LiteralARI ari.StructType.BOOL (PyBool _) => true
  | _ => false
  end.

End text_statements.

(** *** What a nickname conversion keeps *)

(** The leaves of an ARI: its literals, and of each reference the type, the
    issuer and the tag. *)
Inductive leaf : Type :=
| LitLeaf (t : ari.StructType.t) (v : pyval)
| RefLeaf (t : ari.StructType.t) (issuer tag : pyval).

(** The leaves of an object, from left to right. *)
Fixpoint leaves (o : ari.obj) : list leaf :=
  match o with
  | ari.LiteralARI t v => [LitLeaf t v]
  | ari.ReferenceARI ident params =>
      RefLeaf ident.(ari.type_enum) ident.(ari.issuer) ident.(ari.tag)
      :: match params with
         | Some l => flat_map leaves l
         | None => []
         end
  | ari.AC l | ari.EXPR _ l | ari.TNVC l => flat_map leaves l
  end.

Definition leaves_of_params (params : option (list ari.obj)) : list leaf :=
  match params with
  | Some l => flat_map leaves l
  | None => []
  end.

(** *** The names the text form keeps *)

Section name_statements.
Import ari ari_text ari_text.lexmod re.
Local Open Scope string_scope.

(** [w] is at the front of [s], ignoring the case of letters. *)
Fixpoint starts_with (w s : string) : bool :=
  match w, s with
  | EmptyString, _ => true
  | String a w', String b s' => chr_eq_ignorecase a b && starts_with w' s'
  | String _ _, EmptyString => false
  end.

(** What the rules before NAME take from a text that begins with a letter:
    the prefix of an ARI, a type with its point, a boolean, the two named
    floating point numbers, and the opening of an encoded byte string. *)
Definition keywords : list string :=
  "ari:"
  :: map (fun item => StructType.name item ++ ".") StructType.members
  ++ ["true"; "false"; "Infinity"; "NaN"; "h'"; "b32'"; "h32'"; "b64'"].

(** [[^/\(\)\[\],\s]] *)
Definition name_char (c : ascii) : bool :=
  negb (existsb (Ascii.eqb c) (list_ascii_of_string "/()[],") || isspace c).

(** A text that ends a NAME: the end of the input, or a character that is not
    of a name. *)
Definition stops (rest : string) : bool :=
  match rest with
  | EmptyString => true
  | String c _ => negb (name_char c)
  end.

(** The texts that are read as one NAME and nothing else: ASCII, a letter
    followed by at least one character of a name, and no keyword at the
    front. *)
Definition name_text (s : string) : bool :=
  match s with
  | String c (String c2 rest) =>
      is_alpha c && string_forall name_char (String c2 rest)
  | _ => false
  end
  && is_ascii s
  && negb (existsb (fun w => starts_with w s) keywords).

End name_statements.

(** *** The objects the text form keeps *)

Section roundtrip_statements.
Import ari ari_text ari_text.lexmod ari_text.parsemod.









End roundtrip_statements.

(** ** Bytes *)

Lemma Z_of_byte_range b : 0 <= Z_of_byte b < 256.
Proof. destruct b; vm_compute; split; congruence. Qed.

Lemma Z_of_byte_of_Z z : 0 <= z < 256 -> Z_of_byte (byte_of_Z z) = z.
Proof.
  intros H. unfold Z_of_byte, byte_of_Z.
  pose proof (Byte.to_of_N_option_map (Z.to_N z)) as E.
  destruct (Byte.of_N (Z.to_N z)) as [b|] eqn:Hb; simpl in E.
  - apply Byte.to_of_N in Hb. rewrite Hb. lia.
  - destruct (N.leb_spec (Z.to_N z) 255); [discriminate | lia].
Qed.

Lemma byte_of_Z_of_byte b : byte_of_Z (Z_of_byte b) = b.
Proof. destruct b; reflexivity. Qed.


(** ** cbor2: decoding an encoded item gives the item back *)

Module cbor2_facts.
Import cbor2.


Lemma header_byte major sub :
  0 <= major < 8 -> 0 <= sub < 32 ->
  let ib := byte_of_Z (Z.lor (Z.shiftl major 5) sub) in
  Z.shiftr (Z_of_byte ib) 5 = major /\ Z.land (Z_of_byte ib) 31 = sub.
Proof.
  intros Hm Hs.
  assert (Z.lor (Z.shiftl major 5) sub = major * 32 + sub) as ->.
  { rewrite Z.shiftl_mul_pow2 by lia. change (2 ^ 5) with 32.
    rewrite <- Z.lxor_lor.
    - rewrite <- Z.add_nocarry_lxor; [reflexivity|].
      apply Z.bits_inj'. intros n Hn. rewrite Z.land_spec, Z.bits_0.
      destruct (Z.ltb_spec n 5).
      + replace (major * 32) with (major * 2 ^ 5) by reflexivity.
        rewrite Z.mul_pow2_bits_low by lia. reflexivity.
      + rewrite (Z.bits_above_log2 sub n); [apply andb_false_r | lia |].
        destruct (Z.eq_dec sub 0) as [->|]; [simpl; lia|].
        assert (Z.log2 sub < 5) by (apply Z.log2_lt_pow2; lia). lia.
    - apply Z.bits_inj'. intros n Hn. rewrite Z.land_spec, Z.bits_0.
      destruct (Z.ltb_spec n 5).
      + replace (major * 32) with (major * 2 ^ 5) by reflexivity.
        rewrite Z.mul_pow2_bits_low by lia. reflexivity.
      + rewrite (Z.bits_above_log2 sub n); [apply andb_false_r | lia |].
        destruct (Z.eq_dec sub 0) as [->|]; [simpl; lia|].
        assert (Z.log2 sub < 5) by (apply Z.log2_lt_pow2; lia). lia. }
  cbv zeta. rewrite Z_of_byte_of_Z by lia. split.
  - rewrite Z.shiftr_div_pow2 by lia. change (2 ^ 5) with 32.
    rewrite Z.div_add_l by lia. rewrite Z.div_small by lia. lia.
  - change 31 with (Z.ones 5). rewrite Z.land_ones by lia.
    change (2 ^ 5) with 32. rewrite Z.add_comm, Z.mod_add by lia.
    apply Z.mod_small; lia.
Qed.

Lemma length_be_bytes k n : List.length (be_bytes k n) = k.
Proof. induction k; simpl; congruence. Qed.

Lemma fold_be_bytes k : forall n acc, 0 <= n ->
  fold_left (fun acc b => acc * 256 + Z_of_byte b) (be_bytes k n) acc
  = acc * 256 ^ Z.of_nat k + n mod 256 ^ Z.of_nat k.
Proof.
  induction k as [|k IH]; intros n acc Hn.
  - simpl. rewrite Z.mod_1_r. lia.
  - cbn [be_bytes fold_left]. rewrite IH by assumption.
    rewrite Z_of_byte_of_Z by (apply Z.mod_pos_bound; lia).
    rewrite Nat2Z.inj_succ, Z.pow_succ_r by lia.
    rewrite (Z.mul_comm 256 (256 ^ Z.of_nat k)).
    rewrite (Z.rem_mul_r n (256 ^ Z.of_nat k) 256) by lia.
    ring.
Qed.

Lemma int_from_be_bytes k n :
  0 <= n < 256 ^ Z.of_nat k -> int_from_bytes (be_bytes k n) = n.
Proof.
  intros H. unfold int_from_bytes. rewrite fold_be_bytes by lia.
  rewrite Z.mod_small by lia. lia.
Qed.

Lemma read_app bs rest :
  read (Z.of_nat (List.length bs)) (bs ++ rest) = Ok (bs, rest).
Proof.
  unfold read. rewrite length_app, Nat2Z.id.
  destruct (Z.leb_spec (Z.of_nat (List.length bs))
              (Z.of_nat (List.length bs + List.length rest))); [|lia].
  rewrite firstn_app, skipn_app, firstn_all, skipn_all, Nat.sub_diag.
  simpl. rewrite app_nil_r. reflexivity.
Qed.

Lemma read_uint_be k n rest :
  0 <= n < 256 ^ Z.of_nat k ->
  read_uint (Z.of_nat k) (be_bytes k n ++ rest) = Ok (n, rest).
Proof.
  intros H. unfold read_uint.
  rewrite <- (length_be_bytes k n) at 1. rewrite read_app. simpl.
  rewrite int_from_be_bytes by assumption. reflexivity.
Qed.

Lemma decode_encode_length major n rest :
  0 <= major < 8 -> 0 <= n < 2 ^ 64 ->
  exists ib tl,
    encode_length major n = ib :: tl /\
    Z.shiftr (Z_of_byte ib) 5 = major /\
    decode_length (Z.land (Z_of_byte ib) 31) (tl ++ rest) = Ok (n, rest).
Proof.
  intros Hm Hn. unfold encode_length.
  destruct (Z.ltb_spec n 24).
  { eexists _, []. split; [reflexivity|].
    destruct (header_byte major n Hm ltac:(lia)) as [-> ->].
    split; [reflexivity|]. unfold decode_length.
    destruct (Z.ltb_spec n 24); [reflexivity | lia]. }
  destruct (Z.ltb_spec n 256).
  { eexists _, _. split; [reflexivity|].
    destruct (header_byte major 24 Hm ltac:(lia)) as [-> ->].
    split; [reflexivity|]. unfold decode_length. simpl (24 <? 24). cbv iota.
    simpl (24 =? 24). cbv iota.
    apply (read_uint_be 1). simpl; lia. }
  destruct (Z.ltb_spec n 65536).
  { eexists _, _. split; [reflexivity|].
    destruct (header_byte major 25 Hm ltac:(lia)) as [-> ->].
    split; [reflexivity|]. unfold decode_length. simpl (25 <? 24). cbv iota.
    simpl (25 =? 24). simpl (25 =? 25). cbv iota.
    apply (read_uint_be 2). simpl; lia. }
  destruct (Z.ltb_spec n 4294967296).
  { eexists _, _. split; [reflexivity|].
    destruct (header_byte major 26 Hm ltac:(lia)) as [-> ->].
    split; [reflexivity|]. unfold decode_length.
    apply (read_uint_be 4). simpl; lia. }
  eexists _, _. split; [reflexivity|].
  destruct (header_byte major 27 Hm ltac:(lia)) as [-> ->].
  split; [reflexivity|]. unfold decode_length.
  apply (read_uint_be 8). change (256 ^ Z.of_nat 8) with (2 ^ 64). lia.
Qed.

Lemma decode_string_body_ok major b rest :
  0 <= major < 8 -> Z.of_nat (List.length b) <= maxsize ->
  exists ib tl,
    encode_length major (Z.of_nat (List.length b)) = ib :: tl /\
    Z.shiftr (Z_of_byte ib) 5 = major /\
    decode_string_body (Z.land (Z_of_byte ib) 31) (tl ++ b ++ rest)
    = Ok (b, rest).
Proof.
  intros Hm Hb.
  destruct (decode_encode_length major (Z.of_nat (List.length b)) (b ++ rest))
    as (ib & tl & E & Hmaj & Hdec); [lia | unfold maxsize in Hb; lia |].
  exists ib, tl. repeat split; try assumption.
  unfold decode_string_body.
  destruct (Z.eqb_spec (Z.land (Z_of_byte ib) 31) 31) as [E31|_].
  { rewrite E31 in Hdec. discriminate Hdec. }
  rewrite Hdec. cbn [bind].
  destruct (Z.ltb_spec maxsize (Z.of_nat (List.length b))); [lia|].
  apply read_app.
Qed.

Lemma decode_untagged_bytes b rest :
  Z.of_nat (List.length b) <= maxsize ->
  decode_untagged (encode_bytestring b ++ rest) = Ok (PyBytes b, rest).
Proof.
  intros Hb. unfold encode_bytestring.
  destruct (decode_string_body_ok 2 b rest) as (ib & tl & E & Hmaj & Hdec);
    [lia | assumption |].
  rewrite E. rewrite <- app_assoc. cbn [app]. unfold decode_untagged.
  rewrite Hmaj. cbn [Z.eqb Pos.eqb]. rewrite Hdec. reflexivity.
Qed.

Lemma not_tag_decode ib tl :
  Z.shiftr (Z_of_byte ib) 5 <> 6 ->
  decode (ib :: tl) = decode_untagged (ib :: tl).
Proof.
  intros H. unfold decode.
  destruct (Z.eqb_spec (Z.shiftr (Z_of_byte ib) 5) 6); [contradiction|reflexivity].
Qed.

Lemma decode_uint n rest :
  0 <= n < 2 ^ 64 -> decode (encode_length 0 n ++ rest) = Ok (PyInt n, rest).
Proof.
  intros Hn.
  destruct (decode_encode_length 0 n rest) as (ib & tl & E & Hmaj & Hdec);
    [lia | assumption |].
  rewrite E. cbn [app]. rewrite not_tag_decode by lia.
  unfold decode_untagged. rewrite Hmaj. cbn [Z.eqb]. rewrite Hdec. reflexivity.
Qed.

Lemma decode_negint n rest :
  0 <= n < 2 ^ 64 ->
  decode (encode_length 1 n ++ rest) = Ok (PyInt (- n - 1), rest).
Proof.
  intros Hn.
  destruct (decode_encode_length 1 n rest) as (ib & tl & E & Hmaj & Hdec);
    [lia | assumption |].
  rewrite E. cbn [app]. rewrite not_tag_decode by lia.
  unfold decode_untagged. rewrite Hmaj. cbn [Z.eqb Pos.eqb]. rewrite Hdec.
  reflexivity.
Qed.

Lemma bignum_payload v :
  2 ^ 64 <= v ->
  let k := Z.to_nat ((bit_length v + 7) / 8) in
  0 <= v < 256 ^ Z.of_nat k /\ (1 <= k)%nat.
Proof.
  intros Hv k.
  assert (Hlog : 64 <= Z.log2 v) by (apply Z.log2_le_pow2; lia).
  assert (Hbl : bit_length v = Z.log2 v + 1).
  { unfold bit_length. destruct (Z.eqb_spec v 0); lia. }
  assert (Hk : bit_length v <= 8 * Z.of_nat k).
  { subst k. rewrite Z2Nat.id by (apply Z.div_pos; lia).
    pose proof (Z.div_mod (bit_length v + 7) 8 ltac:(lia)).
    pose proof (Z.mod_pos_bound (bit_length v + 7) 8 ltac:(lia)). lia. }
  split; [split; [lia|] | lia].
  replace 256 with (2 ^ 8) by reflexivity. rewrite <- Z.pow_mul_r by lia.
  apply Z.lt_le_trans with (2 ^ (Z.succ (Z.log2 v))).
  - apply Z.log2_spec. lia.
  - apply Z.pow_le_mono_r; lia.
Qed.

Lemma decode_bignum (tagnum v : Z) rest :
  (tagnum = 2 \/ tagnum = 3) -> 2 ^ 64 <= v ->
  (bit_length v + 7) / 8 <= maxsize ->
  decode (encode_length 6 tagnum
          ++ encode_bytestring
               (be_bytes (Z.to_nat ((bit_length v + 7) / 8)) v) ++ rest)
  = Ok (PyInt (if tagnum =? 2 then v else - v - 1), rest).
Proof.
  intros Ht Hv Hsz.
  destruct (bignum_payload v Hv) as [Hrange Hk].
  set (k := Z.to_nat ((bit_length v + 7) / 8)) in *.
  assert (Hlen : Z.of_nat (List.length (be_bytes k v)) <= maxsize).
  { rewrite length_be_bytes. subst k. rewrite Z2Nat.id; [assumption|].
    apply Z.div_pos; [|lia]. unfold bit_length.
    destruct (Z.eqb_spec v 0); [lia|]. pose proof (Z.log2_nonneg v). lia. }
  pose proof (decode_untagged_bytes (be_bytes k v) rest Hlen) as Hd.
  assert (Hne : exists b bs, be_bytes k v = b :: bs).
  { destruct k; [lia|]. simpl. eauto. }
  destruct Hne as (b & bs & Eb).
  assert (Hne' : exists x xs, encode_bytestring (be_bytes k v) ++ rest = x :: xs).
  { unfold encode_bytestring.
    destruct (decode_encode_length 2 (Z.of_nat (List.length (be_bytes k v))) rest)
      as (ib & tl & E & _); [lia | unfold maxsize in Hlen; lia |].
    rewrite E. simpl. eauto. }
  destruct Hne' as (x & xs & Ex).
  assert (Hint : int_from_bytes (b :: bs) = v).
  { rewrite <- Eb. apply int_from_be_bytes. assumption. }
  destruct Ht as [-> | ->].
  - change (encode_length 6 2) with [xc2]. cbn [app].
    unfold decode. change (Z.shiftr (Z_of_byte xc2) 5 =? 6) with true.
    cbv iota. change (Z.land (Z_of_byte xc2) 31) with 2.
    change (decode_length 2 ?r) with (Ok (2, r)). cbn [bind].
    change ((2 =? 2) || (2 =? 3)) with true. cbv iota.
    rewrite Ex in *. rewrite Hd, Eb, Hint. reflexivity.
  - change (encode_length 6 3) with [xc3]. cbn [app].
    unfold decode. change (Z.shiftr (Z_of_byte xc3) 5 =? 6) with true.
    cbv iota. change (Z.land (Z_of_byte xc3) 31) with 3.
    change (decode_length 3 ?r) with (Ok (3, r)). cbn [bind].
    change ((3 =? 2) || (3 =? 3)) with true. cbv iota.
    rewrite Ex in *. rewrite Hd, Eb, Hint. reflexivity.
Qed.

Lemma Z_of_byte_of_ascii c :
  Z_of_byte (byte_of_ascii c) = Z.of_nat (nat_of_ascii c).
Proof. destruct c as [[] [] [] [] [] [] [] []]; reflexivity. Qed.

Lemma is_ascii_bytes_of_string s :
  is_ascii s = true -> is_ascii_bytes (list_byte_of_string s) = true.
Proof.
  unfold is_ascii_bytes, list_byte_of_string.
  induction s as [|c s IH]; [reflexivity|].
  cbn [is_ascii]. intros H. apply andb_prop in H as [Hc Hs].
  cbn [list_ascii_of_string map forallb].
  rewrite (IH Hs), andb_true_r. rewrite Z_of_byte_of_ascii.
  unfold is_ascii_char in Hc. apply Nat.ltb_lt in Hc. apply Z.ltb_lt. lia.
Qed.

Lemma length_list_byte_of_string s :
  List.length (list_byte_of_string s) = String.length s.
Proof.
  unfold list_byte_of_string. rewrite length_map.
  induction s; simpl; congruence.
Qed.

(** Decoding the encoding of a representable value gives the value and leaves
    what follows it. *)
Lemma decode_encode v bs rest :
  representable v = true -> encode v = Ok bs ->
  decode (bs ++ rest) = Ok (v, rest).
Proof.
  intros Hr He. destruct v as [|[|]|n|s|b]; cbn [encode] in He.
  - injection He as <-. reflexivity.
  - injection He as <-. reflexivity.
  - injection He as <-. reflexivity.
  - injection He as <-. cbn [representable] in Hr. apply Z.leb_le in Hr.
    unfold encode_int.
    destruct ((18446744073709551616 <=? n) || (n <? -18446744073709551616))
      eqn:Hbig.
    + rewrite <- app_assoc. apply orb_prop in Hbig.
      destruct (Z.leb_spec 0 n) as [Hn|Hn]; cbv iota in Hr |- *.
      * rewrite decode_bignum; [reflexivity | auto | | assumption].
        destruct Hbig as [H|H];
          [apply Z.leb_le in H | apply Z.ltb_lt in H];
          change (2 ^ 64) with 18446744073709551616; clear Hr; lia.
      * rewrite decode_bignum; [| auto | | assumption].
        -- change (3 =? 2) with false. cbv iota.
           replace (- (- n - 1) - 1) with n by lia. reflexivity.
        -- destruct Hbig as [H|H];
             [apply Z.leb_le in H | apply Z.ltb_lt in H];
             change (2 ^ 64) with 18446744073709551616; clear Hr; lia.
    + apply orb_false_elim in Hbig as [H1 H2].
      apply Z.leb_gt in H1. apply Z.ltb_ge in H2.
      destruct (Z.leb_spec 0 n) as [Hn|Hn].
      * apply decode_uint. change (2 ^ 64) with 18446744073709551616. lia.
      * rewrite decode_negint
          by (change (2 ^ 64) with 18446744073709551616; lia).
        replace (- - (n + 1) - 1) with n by lia. reflexivity.
  - cbn [representable] in Hr. apply andb_prop in Hr as [Ha Hl].
    apply Z.leb_le in Hl. unfold str_encode in He. rewrite Ha in He.
    cbn [bind] in He. injection He as <-.
    rewrite <- length_list_byte_of_string in Hl.
    destruct (decode_string_body_ok 3 (list_byte_of_string s) rest)
      as (ib & tl & E & Hmaj & Hdec); [lia | assumption |].
    rewrite E. rewrite <- app_assoc. cbn [app].
    rewrite not_tag_decode by lia. unfold decode_untagged.
    rewrite Hmaj. cbn [Z.eqb Pos.eqb]. rewrite Hdec. cbn [bind].
    unfold bytes_decode. rewrite is_ascii_bytes_of_string by assumption.
    cbn [bind]. rewrite string_of_list_byte_of_string. reflexivity.
  - injection He as <-. cbn [representable] in Hr. apply Z.leb_le in Hr.
    unfold encode_bytestring.
    destruct (decode_string_body_ok 2 b rest)
      as (ib & tl & E & Hmaj & Hdec); [lia | assumption |].
    rewrite E. rewrite <- app_assoc. cbn [app].
    rewrite not_tag_decode by lia. unfold decode_untagged.
    rewrite Hmaj. cbn [Z.eqb Pos.eqb]. rewrite Hdec. reflexivity.
Qed.

(** A representable value has an encoding. *)
Lemma encode_representable v :
  representable v = true -> exists bs, encode v = Ok bs.
Proof.
  intros Hr. destruct v as [|[|]|n|s|b]; cbn [encode]; eauto.
  cbn [representable] in Hr. apply andb_prop in Hr as [Ha _].
  unfold str_encode. rewrite Ha. cbn [bind]. eauto.
Qed.

End cbor2_facts.

(** ** The CBOR codec on literals *)

Section literal_cbor.
Import ari.

Lemma of_value_value t : StructType.of_value (StructType.value t) = Ok t.
Proof. destruct t; reflexivity. Qed.







End literal_cbor.

(** ** The CBOR codec on compound objects and byte strings *)

Section compound_cbor.
Import ari.

Lemma bind_Ok_inv {A B} (r : result A) (k : A -> result B) b :
  bind r k = Ok b -> exists a, r = Ok a /\ k a = Ok b.
Proof. destruct r; simpl; [eauto | discriminate]. Qed.

Lemma of_value_inv n t : StructType.of_value n = Ok t -> StructType.value t = n.
Proof.
  unfold StructType.of_value.
  destruct (find _ _) as [x|] eqn:E; [|discriminate].
  intros [= <-]. apply find_some in E as [_ E]. apply Z.eqb_eq. exact E.
Qed.

Lemma mapM_raises {A B} (f : A -> result B) l x e :
  In x l -> f x = Raise e -> exists e', mapM f l = Raise e'.
Proof.
  induction l as [|y l IH]; intros Hin Hf; [destruct Hin|].
  cbn [mapM]. destruct (f y) as [b|e1] eqn:Ey; [|cbn; eauto].
  cbn [bind]. destruct Hin as [->|Hin]; [congruence|].
  destruct (IH Hin Hf) as [e' ->]. cbn. eauto.
Qed.

Lemma encode_ref_ari_non_reference o :
  is_reference o = false -> ari_cbor.Encoder._encode_ref_ari o = Raise AttributeError.
Proof. destruct o; [reflexivity | discriminate | reflexivity ..]. Qed.

Lemma decode_ari_not_BSTR fuel buf res rest v :
  ari_cbor.Decoder._decode_ari fuel buf = Ok (res, rest) ->
  res <> LiteralARI StructType.BSTR v.
Proof.
  destruct fuel as [|fuel]; [discriminate|].
  cbn [ari_cbor.Decoder._decode_ari]. intros H.
  apply bind_Ok_inv in H as ([flags buf1] & Hflags & H).
  apply bind_Ok_inv in H as (str_type & Hstr & H).
  destruct (StructType.eqb str_type StructType.LIT).
  - apply bind_Ok_inv in H as ([val buf2] & _ & H).
    apply bind_Ok_inv in H as (type_enum & Hty & H).
    injection H as <- _. apply of_value_inv in Hty.
    intros [= -> _].
    destruct buf as [|b buf]; [discriminate|]. injection Hflags as <- _.
    pose proof (Z_of_byte_range b) as Hb.
    assert (Z.shiftr (Z_of_byte b) 4 < 16).
    { rewrite Z.shiftr_div_pow2 by lia. apply Z.div_lt_upper_bound; simpl; lia. }
    change (StructType.value StructType.BSTR) with 39 in Hty.
    change (StructType.value StructType.BOOL) with 16 in Hty. lia.
  - apply bind_Ok_inv in H as ([obj_nn buf2] & _ & H).
    apply bind_Ok_inv in H as ([name buf3] & _ & H).
    apply bind_Ok_inv in H as (name' & _ & H).
    apply bind_Ok_inv in H as ([params buf4] & _ & H).
    apply bind_Ok_inv in H as ([issuer buf5] & _ & H).
    apply bind_Ok_inv in H as (_ & _ & H).
    apply bind_Ok_inv in H as ([tag buf6] & _ & H).
    apply bind_Ok_inv in H as (_ & _ & H).
    injection H as <- _. discriminate.
Qed.

Lemma decode_not_BSTR buf v :
  ari_cbor.Decoder.decode buf <> Ok (LiteralARI StructType.BSTR v).
Proof.
  unfold ari_cbor.Decoder.decode.
  destruct (ari_cbor.Decoder._decode_ari _ buf) as [[res rest]|e] eqn:E.
  - intros [= ->]. exact (decode_ari_not_BSTR _ _ _ _ v E eq_refl).
  - destruct e; discriminate.
Qed.

(** C10.  A BSTR literal is encoded as the bare CBOR item of its value, a
    CBOR byte string for a byte string, with no flag octet, also as the
    top-level ARI; no input decodes to a top-level BSTR literal; so encoding
    and then decoding never gives a top-level BSTR literal back. *)
Theorem bstr_literal_has_no_frame :
  (forall v, ari_cbor.Encoder.encode (LiteralARI StructType.BSTR v) = cbor2.encode v) /\
  (forall b, ari_cbor.Encoder.encode (LiteralARI StructType.BSTR (PyBytes b))
             = Ok (cbor2.encode_bytestring b)) /\
  (forall buf v, ari_cbor.Decoder.decode buf <> Ok (LiteralARI StructType.BSTR v)) /\
  (forall v, bind (ari_cbor.Encoder.encode (LiteralARI StructType.BSTR v))
                  ari_cbor.Decoder.decode
             <> Ok (LiteralARI StructType.BSTR v)).
Proof.
  split; [reflexivity|]. split; [reflexivity|]. split; [apply decode_not_BSTR|].
  intros v. destruct (ari_cbor.Encoder.encode _) as [bs|e]; cbn [bind].
  - apply decode_not_BSTR.
  - discriminate.
Qed.

(** C9.  The encoder hands every item of an AC or EXPR to the encoder of
    reference ARIs; so the encoding of an AC or EXPR with an item that is not
    a ReferenceARI raises an exception and produces no output.  The text
    parser makes such trees: [ari:/ns/CTRL.name([VAST.1])] parses to an AC
    holding a literal, whose encoding raises AttributeError. *)
Theorem ac_expr_encode_needs_references (items : list obj) (as_ari : bool)
    (item : obj) :
  In item items -> is_reference item = false ->
  (forall t,
     ari_cbor.Encoder._encode_obj (AC items) as_ari
     = (head <- ari_cbor.Encoder.ac_head items ;;
        body <- mapM ari_cbor.Encoder._encode_ref_ari items ;;
        Ok (head ++ ari_cbor.concat_bytes body)) /\
     ari_cbor.Encoder._encode_obj (EXPR t items) as_ari
     = (ty <- cbor2.encode (PyInt (StructType.value t)) ;;
        head <- ari_cbor.Encoder.ac_head items ;;
        body <- mapM ari_cbor.Encoder._encode_ref_ari items ;;
        Ok (ty ++ head ++ ari_cbor.concat_bytes body))) /\
  (exists e, ari_cbor.Encoder._encode_obj (AC items) as_ari = Raise e) /\
  (forall t,
     exists e, ari_cbor.Encoder._encode_obj (EXPR t items) as_ari = Raise e) /\
  ari_text.Decoder.decode "ari:/ns/CTRL.name([VAST.1])" = Ok ac_with_literal /\
  ari_cbor.Encoder.encode ac_with_literal = Raise AttributeError.
Proof.
  intros Hin Hnr.
  destruct (mapM_raises ari_cbor.Encoder._encode_ref_ari items item
              AttributeError Hin (encode_ref_ari_non_reference item Hnr))
    as [e He].
  split; [intros t; split; reflexivity|]. split; [|split].
  - cbn [ari_cbor.Encoder._encode_obj].
    destruct (ari_cbor.Encoder.ac_head items); cbn [bind]; [|eauto].
    change (mapM (ari_cbor.Encoder.encode_ref_ari_of
                    ari_cbor.Encoder._encode_obj) items)
      with (mapM ari_cbor.Encoder._encode_ref_ari items).
    rewrite He. cbn. eauto.
  - intros t. cbn [ari_cbor.Encoder._encode_obj]. cbn [cbor2.encode bind].
    destruct (ari_cbor.Encoder.ac_head items); cbn [bind]; [|eauto].
    change (mapM (ari_cbor.Encoder.encode_ref_ari_of
                    ari_cbor.Encoder._encode_obj) items)
      with (mapM ari_cbor.Encoder._encode_ref_ari items).
    rewrite He. cbn. eauto.
  - split; vm_compute; reflexivity.
Qed.

Lemma ac_expr_encode_needs_references_witness :
  ari_cbor.Encoder._encode_obj
    (AC [LiteralARI StructType.VAST (PyInt 1)]) false
  = Raise AttributeError.
Proof.
  destruct (ac_expr_encode_needs_references
              [LiteralARI StructType.VAST (PyInt 1)] false
              (LiteralARI StructType.VAST (PyInt 1))
              (or_introl eq_refl) eq_refl)
    as (_ & _ & _ & _ & _).
  reflexivity.
Defined.

End compound_cbor.

(** ** The nickname converter *)

Section nickname_facts.
Import ari nickname.

Section idem.
Variable self : Converter.
Variable P : Identity -> bool.
Hypothesis convert_skips : forall ident params,
  P ident = true ->
  _convert_ari self ident params = mkMutated (ident, params) None.

Lemma depth_in x l : In x l -> (depth x <= list_max (map depth l))%nat.
Proof.
  intros Hin. pose proof (proj1 (list_max_le (map depth l) _) (Nat.le_refl _)) as H.
  rewrite Forall_forall in H. apply H. apply in_map. exact Hin.
Qed.

Lemma call_items_unchanged f l :
  (forall x, In x l -> f x = mkMutated x None) ->
  call_items f l = mkMutated l None.
Proof.
  induction l as [|x l IH]; intros H; [reflexivity|].
  cbn [call_items]. rewrite (H x (or_introl eq_refl)). cbn [raised now].
  rewrite IH; [reflexivity|]. intros y Hy. apply H. right. exact Hy.
Qed.

Lemma call_unchanged fuel : forall o,
  (depth o <= fuel)%nat -> all_refs P o = true ->
  call self fuel o = mkMutated o None.
Proof.
  induction fuel as [|fuel IH]; intros o Hd Ho.
  - destruct o as [| ? [|]| | |]; cbn in Hd; lia.
  - assert (Hitems : forall l, (list_max (map depth l) <= fuel)%nat ->
                               forallb (all_refs P) l = true ->
                               call_items (call self fuel) l = mkMutated l None).
    { intros l Hl Hall. apply call_items_unchanged. intros x Hx.
      apply IH.
      - pose proof (depth_in x l Hx). lia.
      - rewrite forallb_forall in Hall. apply Hall. exact Hx. }
    destruct o as [t v | ident [params|] | items | t items | items];
      cbn [call]; cbn [all_refs] in Ho; cbn [depth] in Hd.
    + reflexivity.
    + apply andb_prop in Ho as [Hi Hp].
      rewrite (convert_skips _ _ Hi). cbn [now raised].
      destruct params as [|p ps]; [reflexivity|].
      rewrite Hitems by (assumption || lia). reflexivity.
    + apply andb_prop in Ho as [Hi _].
      rewrite (convert_skips _ _ Hi). reflexivity.
    + rewrite Hitems by (assumption || lia). reflexivity.
    + rewrite Hitems by (assumption || lia). reflexivity.
    + rewrite Hitems by (assumption || lia). reflexivity.
Qed.
End idem.

(** C5.  A TO_NN converter leaves a tree whose references all have integer
    namespaces unchanged, and a FROM_NN converter leaves a tree whose
    references all have textual namespaces unchanged; neither raises. *)
Theorem converter_idempotent_on_target_form (adms : models.Session)
    (must : bool) (o : obj) :
  (all_refs has_int_namespace o = true ->
   __call__ (mkConverter TO_NN adms must) o = mkMutated o None) /\
  (all_refs has_text_namespace o = true ->
   __call__ (mkConverter FROM_NN adms must) o = mkMutated o None).
Proof.
  split; intros H; unfold __call__.
  - apply call_unchanged with (P := has_int_namespace); [|lia|exact H].
    intros ident params Hi. unfold _convert_ari, has_int_namespace in *.
    cbn [_mode]. destruct (namespace ident); try discriminate; reflexivity.
  - apply call_unchanged with (P := has_text_namespace); [|lia|exact H].
    intros ident params Hi. unfold _convert_ari, has_text_namespace in *.
    cbn [_mode]. destruct (namespace ident); try discriminate; reflexivity.
Qed.

Lemma converter_idempotent_on_target_form_witness :
  __call__ (mkConverter TO_NN sample_catalog true)
           (AC [ReferenceARI
                  (mkIdentity (PyInt 405) StructType.RPTT (PyBytes [x00])
                              PyNone PyNone) (Some [])])
  = mkMutated
      (AC [ReferenceARI
             (mkIdentity (PyInt 405) StructType.RPTT (PyBytes [x00])
                         PyNone PyNone) (Some [])]) None /\
  __call__ (mkConverter FROM_NN sample_catalog true)
           (reference_to "IANA:amp_agent" StructType.RPTT "full_report")
  = mkMutated (reference_to "IANA:amp_agent" StructType.RPTT "full_report")
              None.
Proof.
  split.
  - apply (proj1 (converter_idempotent_on_target_form sample_catalog true _)).
    reflexivity.
  - apply (proj2 (converter_idempotent_on_target_form sample_catalog true _)).
    reflexivity.
Defined.




Lemma nick_kind_AdmObjType t kind :
  nick_kind t = Some kind ->
  exists nn, AdmObjType.of_name (StructType.name t) = Ok nn /\
             AdmObjType.value nn = kind.
Proof.
  destruct t; cbn; intros [= <-]; eexists; split; reflexivity.
Qed.



(** C4, where the code departs from it: for a namespace whose ADM is not in
    the catalog, [get_by_norm_name] raises KeyError, with [must_nickname]
    false as with it true. *)
Theorem to_nn_missing_adm_raises_KeyError :
  let ref := reference_to "IANA:missing" StructType.RPTT "full_report" in
  __call__ (mkConverter TO_NN sample_catalog false) ref
  = mkMutated ref (Some KeyError) /\
  __call__ (mkConverter TO_NN sample_catalog true) ref
  = mkMutated ref (Some KeyError).
Proof. split; reflexivity. Qed.

Lemma to_nn_missing_child :
  let ref := reference_to "IANA:amp_agent" StructType.RPTT "other" in
  __call__ (mkConverter TO_NN sample_catalog false) ref = mkMutated ref None /\
  __call__ (mkConverter TO_NN sample_catalog true) ref
  = mkMutated ref (Some RuntimeError).
Proof. split; reflexivity. Qed.

Lemma to_nn_unknown_adm (self : Converter) (ident : Identity)
    (params : option (list obj)) (ns adm_name : string) :
  self.(_mode) = TO_NN ->
  ident.(namespace) = PyStr ns ->
  split_colon_1 ns = Ok adm_name ->
  (forall a, In a self.(_adms).(models.admfiles) ->
             a.(models.adm_norm_name) <> Some (casefold adm_name)) ->
  _convert_ari self ident params = mkMutated (ident, params) (Some KeyError).
Proof.
  intros Hmode Hns Hsplit Hnone. unfold _convert_ari. rewrite Hmode, Hns.
  unfold to_nn_lookup. rewrite Hsplit. cbn [bind].
  unfold AdmSet.get_by_norm_name.
  replace (filter _ _) with (@nil models.AdmFile); [reflexivity|].
  symmetry. induction (models.admfiles (_adms self)) as [|a l IH];
    [reflexivity|].
  cbn [filter]. 
  destruct (models.col_eq_str (models.adm_norm_name a) (casefold adm_name)) eqn:E.
  - exfalso. apply (Hnone a (or_introl eq_refl)).
    unfold models.col_eq_str in E. destruct (models.adm_norm_name a); [|discriminate].
    apply String.eqb_eq in E. congruence.
  - apply IH. intros b Hb. apply Hnone. right. exact Hb.
Qed.


End nickname_facts.

(** ** The constraints *)

Section constraint_facts.
Import ari constraints.
Local Open Scope string_scope.

Lemma minimal_metadata_skips_adm adm db_sess :
  basic.minimal_metadata (OfAdmFile adm) db_sess = Ok ([], 0).
Proof. reflexivity. Qed.

(** C8, where the code departs from it: the checker calls
    [minimal_metadata] with each AdmFile, never with [None], and the function
    looks at the metadata only for [None]; an ADM without any metadata gets no
    issue. *)
Theorem minimal_metadata_reports_nothing :
  Checker.check (models.mkSession [adm_without_mdat] []) None = Ok [] /\
  Checker.check (models.mkSession [adm_without_mdat] []) (Some adm_without_mdat)
  = Ok [].
Proof. split; reflexivity. Qed.

(** C7 as stated fails: [uint] is the name of UINT when case is ignored, and
    [valid_type_name] reports a variable of type [uint]. *)
Lemma lowercase_uint_is_reported :
  names_type_ignoring_case "uint" = true /\
  basic.valid_type_name (OfObject (var_of_type "uint")) sample_catalog
  = Ok ([basic.new_issue (OfObject (var_of_type "uint"))
           (TypeNameNotKnown (Some "v") (Some "uint"))], 1).
Proof. split; reflexivity. Qed.

Lemma of_name_name t : StructType.of_name (StructType.name t) = Ok t.
Proof. destruct t; reflexivity. Qed.

Lemma of_name_inv s t : StructType.of_name s = Ok t -> s = StructType.name t.
Proof.
  unfold StructType.of_name.
  destruct (find _ _) as [x|] eqn:E; [|discriminate].
  intros [= <-]. apply find_some in E as [_ E]. apply String.eqb_eq in E.
  congruence.
Qed.

Lemma check_type_no_issue top_obj s :
  fst (basic._check_type top_obj s) = [] <-> names_type_exactly s.
Proof.
  unfold basic._check_type, names_type_exactly. destruct s as [s|]; cbn [fst].
  - destruct (StructType.of_name s) as [t|e] eqn:E.
    + split; [|reflexivity]. intros _. exists t. f_equal.
      apply of_name_inv. exact E.
    + split; [discriminate|]. intros [t [= ->]]. rewrite of_name_name in E.
      discriminate.
  - split; [discriminate|]. intros [t H]. discriminate.
Qed.

Lemma join_checks_no_issue rs :
  fst (basic.join_checks rs) = [] <-> Forall (fun r => fst r = []) rs.
Proof.
  unfold basic.join_checks. cbn [fst]. induction rs as [|r rs IH]; cbn [flat_map].
  - split; auto.
  - split.
    + intros H. apply app_eq_nil in H as [H1 H2]. constructor; [assumption|].
      apply IH. assumption.
    + intros H. inversion H as [|? ? H1 H2]; subst. rewrite H1.
      apply IH. assumption.
Qed.

Lemma join_checks_singleton r : basic.join_checks [r] = (fst r, snd r + 0).
Proof.
  unfold basic.join_checks. cbn. rewrite app_nil_r. reflexivity.
Qed.

Lemma valid_type_name_obj_no_issue o :
  fst (basic.valid_type_name_obj o) = [] <->
  Forall names_type_exactly (type_strings o).
Proof.
  destruct o as [x|x|x|x|x|x|x|x|x]; cbn [basic.valid_type_name_obj type_strings];
    try (split; [constructor | reflexivity]).
  - rewrite check_type_no_issue. split.
    + intros H. constructor; [assumption | constructor].
    + intros H. inversion H; assumption.
  - rewrite check_type_no_issue. split.
    + intros H. constructor; [assumption | constructor].
    + intros H. inversion H; assumption.
  - rewrite join_checks_no_issue. split.
    + intros H. inversion H as [|? ? H1 H2]; subst.
      constructor; [apply check_type_no_issue in H1; exact H1|].
      rewrite Forall_map in H2 |- *. eapply Forall_impl; [|exact H2].
      intros parm Hp. apply check_type_no_issue in Hp. exact Hp.
    + intros H. inversion H as [|? ? H1 H2]; subst.
      constructor; [apply check_type_no_issue; exact H1|].
      rewrite Forall_map in H2 |- *. eapply Forall_impl; [|exact H2].
      intros parm Hp. apply check_type_no_issue. exact Hp.
  - rewrite join_checks_no_issue. split.
    + intros H. inversion H as [|? ? H1 H2]; subst.
      constructor; [apply check_type_no_issue in H1; exact H1|].
      destruct (models.initializer x); [|constructor].
      inversion H2 as [|? ? H3 _]; subst.
      constructor; [apply check_type_no_issue in H3; exact H3 | constructor].
    + intros H. inversion H as [|? ? H1 H2]; subst.
      constructor; [apply check_type_no_issue; exact H1|].
      destruct (models.initializer x); [|constructor].
      inversion H2 as [|? ? H3 _]; subst.
      constructor; [apply check_type_no_issue; exact H3 | constructor].
Qed.

(** C7, as amended.  [valid_type_name] compares type names as written: an
    object whose type strings each are the name of a StructType member gets
    no Issue, and an object gets no Issue only if its type strings are. *)
Theorem valid_type_name_is_case_sensitive (o : models.AdmObj)
    (db_sess : models.Session) :
  Forall names_type_exactly (type_strings o) ->
  (exists count, basic.valid_type_name (OfObject o) db_sess = Ok ([], count)) /\
  (forall o', (exists count,
                 basic.valid_type_name (OfObject o') db_sess = Ok ([], count))
              <-> Forall names_type_exactly (type_strings o')).
Proof.
  assert (H : forall o', (exists count,
                 basic.valid_type_name (OfObject o') db_sess = Ok ([], count))
              <-> Forall names_type_exactly (type_strings o')).
  { intros o'. rewrite <- valid_type_name_obj_no_issue.
    cbn [basic.valid_type_name].
    destruct (basic.valid_type_name_obj o') as [issues count]. cbn [fst].
    split.
    - intros [c [= -> _]]. reflexivity.
    - intros ->. eauto. }
  intros Ho. split; [apply H; exact Ho | exact H].
Qed.

Lemma valid_type_name_is_case_sensitive_witness :
  exists count,
    basic.valid_type_name (OfObject (var_of_type "UINT")) sample_catalog
    = Ok ([], count).
Proof.
  refine (proj1 (valid_type_name_is_case_sensitive
                   (var_of_type "UINT") sample_catalog _)).
  constructor; [|constructor]. exists StructType.UINT. reflexivity.
Defined.

End constraint_facts.

(** ** The text codec *)

Section text_facts.
Import ari ari_text ari_text.lexmod ari_text.parsemod.















End text_facts.

(** ** The fuel of the model is enough

    The functions of the model that recurse as deep as their input is nested
    take fuel.  With the fuel that [decode], [parse] and [__call__] give them
    they never stop for lack of it: an answer [Raise OutOfFuel] does not
    occur. *)

Lemma no_fuel_bind {A B} (r : result A) (k : A -> result B) :
  no_fuel r -> (forall a, no_fuel (k a)) -> no_fuel (bind r k).
Proof.
  unfold no_fuel. destruct r as [a|e]; cbn [bind]; intros Hr Hk;
    [apply Hk|].
  intros [= ->]. apply Hr. reflexivity.
Qed.

Ltac no_fuel_step :=
  first
    [ progress intros
    | solve [auto 2]
    | solve [unfold no_fuel; discriminate]
    | apply no_fuel_bind
    | match goal with
      | |- no_fuel (match ?x with _ => _ end) => destruct x
      | |- no_fuel (if ?x then _ else _) => destruct x
      end ].
Ltac no_fuel_auto := repeat no_fuel_step.

Lemma good_bind {A B} n m (r : result (A * list byte))
    (k : A * list byte -> result (B * list byte)) :
  good n r ->
  (forall a rest, (List.length rest <= n)%nat -> good m (k (a, rest))) ->
  good m (bind r k).
Proof.
  destruct r as [[a rest]|e]; cbn [bind good]; intros Hr Hk;
    [apply Hk; exact Hr | exact Hr].
Qed.

Lemma good_bind_plain {A B} m (r : result A)
    (k : A -> result (B * list byte)) :
  no_fuel r -> (forall a, good m (k a)) -> good m (bind r k).
Proof.
  destruct r as [a|e]; cbn [bind good]; intros Hr Hk; [apply Hk|].
  intros ->. apply Hr. reflexivity.
Qed.

Lemma good_mono {A} n m (r : result (A * list byte)) :
  good n r -> (n <= m)%nat -> good m r.
Proof. destruct r as [[a rest]|e]; cbn [good]; [lia | auto]. Qed.

Lemma good_read n buf : good (List.length buf) (cbor2.read n buf).
Proof.
  unfold cbor2.read. destruct (_ <=? _)%Z; cbn [good]; [|discriminate].
  rewrite length_skipn. lia.
Qed.

Lemma good_decode_length subtype buf :
  good (List.length buf) (cbor2.decode_length subtype buf).
Proof.
  unfold cbor2.decode_length, cbor2.read_uint.
  repeat match goal with
         | |- good _ (if ?x then _ else _) => destruct x
         | |- good _ (bind (cbor2.read _ _) _) =>
             apply (good_bind (List.length buf)); [apply good_read|];
             intros a rest Hr; cbn [good]; exact Hr
         end; cbn [good]; try lia; discriminate.
Qed.

Lemma good_decode_string_body subtype buf :
  good (List.length buf) (cbor2.decode_string_body subtype buf).
Proof.
  unfold cbor2.decode_string_body. destruct (_ =? _)%Z; [discriminate|].
  apply (good_bind (List.length buf)); [apply good_decode_length|].
  intros len rest Hr. destruct (_ <? _)%Z; [discriminate|].
  apply (good_mono (List.length rest)); [apply good_read | exact Hr].
Qed.

Lemma good_decode_untagged buf :
  good (List.length buf) (cbor2.decode_untagged buf).
Proof.
  unfold cbor2.decode_untagged. destruct buf as [|ib rest]; [discriminate|].
  cbn [List.length].
  repeat match goal with
         | |- good _ (if ?x then _ else _) => destruct x
         | |- good _ (bind (cbor2.decode_length _ _) _) =>
             apply (good_bind (List.length rest));
             [apply good_decode_length|];
             intros a r Hr; cbn [good]; lia
         | |- good _ (bind (cbor2.decode_string_body _ _) _) =>
             apply (good_bind (List.length rest));
             [apply good_decode_string_body|];
             intros a r Hr
         | |- good _ (bind (bytes_decode _) _) =>
             apply good_bind_plain;
             [unfold bytes_decode; no_fuel_auto|]; intros s
         end; cbn [good]; try lia; discriminate.
Qed.

Lemma good_cbor2_decode buf : good (List.length buf) (cbor2.decode buf).
Proof.
  unfold cbor2.decode. destruct buf as [|ib rest]; [discriminate|].
  destruct (_ =? 6)%Z; [|apply good_decode_untagged].
  cbn [List.length].
  apply (good_bind (List.length rest)); [apply good_decode_length|].
  intros tagnum r Hr. destruct (_ || _); [|discriminate].
  destruct r as [|b r]; [discriminate|].
  pose proof (good_decode_untagged (b :: r)) as Hu.
  destruct (cbor2.decode_untagged (b :: r)) as [[v r']|e].
  - destruct v as [| | | |[|]]; cbn [good] in *; try discriminate. lia.
  - destruct e; cbn [good] in *; try discriminate; try contradiction.
Qed.

Lemma good_no_fuel {A} n (r : result (A * list byte)) : good n r -> no_fuel r.
Proof.
  destruct r as [[a rest]|e]; cbn [good]; unfold no_fuel;
    [discriminate | congruence].
Qed.

Lemma cbor2_decode_no_fuel buf : no_fuel (cbor2.decode buf).
Proof. exact (good_no_fuel _ _ (good_cbor2_decode buf)). Qed.

(** *** The CBOR decoder *)

Section cbor_fuel.
Import ari ari_cbor ari_cbor.Decoder.

Lemma of_value_no_fuel n : no_fuel (StructType.of_value n).
Proof. unfold StructType.of_value. no_fuel_auto. Qed.

Lemma check_name_no_fuel v : no_fuel (check_name v).
Proof. unfold check_name, bytes_decode. no_fuel_auto. Qed.

Lemma check_bytes_or_None_no_fuel v : no_fuel (check_bytes_or_None v).
Proof. unfold check_bytes_or_None. no_fuel_auto. Qed.

Lemma range_count_no_fuel v : no_fuel (range_count v).
Proof. unfold range_count. no_fuel_auto. Qed.

Lemma good_except_Exception {A} n (r : result (A * list byte)) e :
  e <> OutOfFuel -> good n r -> good n (except_Exception r e).
Proof.
  destruct r as [[a rest]|e0]; cbn [good except_Exception]; [auto|].
  destruct e0; auto; discriminate.
Qed.

Lemma good_decode_if c buf : good (List.length buf) (decode_if c buf).
Proof.
  unfold decode_if. destruct c; [apply good_cbor2_decode|]. cbn [good]. lia.
Qed.

Lemma good_read_type_enums buf :
  forall count, good (List.length buf) (read_type_enums count buf).
Proof.
  induction buf as [|b rest IH]; intros count; cbn [read_type_enums];
    destruct (_ <=? _)%Z; cbn [good]; try lia; try discriminate.
  apply good_bind_plain; [apply of_value_no_fuel|]. intros ty.
  apply (good_bind (List.length rest)); [apply IH|].
  intros tys r Hr. cbn [good List.length]. lia.
Qed.

Section repeat_loop.
Context {A : Type} (n : nat) (step : list byte -> result (A * list byte)).
Hypothesis step_good :
  forall buf, (List.length buf <= n)%nat -> good (List.length buf) (step buf).

Lemma good_repeat_decode count :
  forall buf, (List.length buf <= n)%nat ->
    good (List.length buf) (repeat_decode step count buf).
Proof.
  induction count as [|k IH]; intros buf Hn; cbn [repeat_decode good];
    [lia|].
  apply (good_bind (List.length buf)); [apply step_good; exact Hn|].
  intros x buf1 H1.
  apply (good_bind (List.length buf1)); [apply IH; lia|].
  intros xs buf2 H2. cbn [good]. lia.
Qed.
End repeat_loop.

Section each_loop.
Context {A T : Type} (n : nat)
  (step_for : T -> list byte -> result (A * list byte)).
Hypothesis step_good :
  forall t buf, (List.length buf <= n)%nat ->
    good (List.length buf) (step_for t buf).

Lemma good_each_decode ts :
  forall buf, (List.length buf <= n)%nat ->
    good (List.length buf) (each_decode step_for ts buf).
Proof.
  induction ts as [|t ts IH]; intros buf Hn; cbn [each_decode good];
    [lia|].
  apply (good_bind (List.length buf)); [apply step_good; exact Hn|].
  intros x buf1 H1.
  apply (good_bind (List.length buf1)); [apply IH; lia|].
  intros xs buf2 H2. cbn [good]. lia.
Qed.
End each_loop.

Lemma decode_enough_fuel fuel :
  enough_fuel 1 _decode_ari fuel /\
  enough_fuel 1 _decode_tnvc fuel /\
  enough_fuel 1 _decode_ac_items fuel /\
  (forall t, enough_fuel 2 (fun fuel => _decode_obj fuel t) fuel).
Proof.
  induction fuel as [|f (IHari & IHtnvc & IHac & IHobj)];
    [unfold enough_fuel; repeat split; intros; lia|].
  repeat apply conj.
  - intros buf Hf. cbn [_decode_ari].
    destruct buf as [|b buf1]; [cbn; discriminate|].
    cbn [read_B bind List.length] in *.
    apply good_bind_plain; [apply of_value_no_fuel|]. intros str_type.
    destruct (StructType.eqb _ _).
    + apply (good_bind (List.length buf1));
        [apply good_except_Exception;
         [discriminate | apply good_cbor2_decode]|].
      intros val buf2 H2.
      apply good_bind_plain; [apply of_value_no_fuel|]. intros ty.
      cbn [good]. lia.
    + apply (good_bind (List.length buf1)); [apply good_decode_if|].
      intros obj_nn buf2 H2.
      apply (good_bind (List.length buf2)); [apply good_cbor2_decode|].
      intros name buf3 H3.
      apply good_bind_plain; [apply check_name_no_fuel|]. intros name'.
      apply (good_bind (List.length buf3)).
      { destruct (has_flag _ _); [|cbn [good]; lia].
        apply (good_bind (List.length buf3)); [apply IHtnvc; lia|].
        intros l buf4 H4. cbn [good]. exact H4. }
      intros params buf4 H4.
      apply (good_bind (List.length buf4)); [apply good_decode_if|].
      intros issuer buf5 H5.
      apply good_bind_plain; [apply check_bytes_or_None_no_fuel|]. intros _.
      apply (good_bind (List.length buf5)); [apply good_decode_if|].
      intros tag buf6 H6.
      apply good_bind_plain; [apply check_bytes_or_None_no_fuel|]. intros _.
      cbn [good]. lia.
  - intros buf Hf. cbn [_decode_tnvc].
    destruct buf as [|b buf1]; [cbn; discriminate|].
    cbn [read_B bind List.length] in *.
    apply (good_bind (List.length buf1)).
    { destruct (_ =? _)%Z; [cbn [good]; lia | apply good_cbor2_decode]. }
    intros count buf2 H2.
    apply (good_bind (List.length buf2)).
    { destruct (has_flag _ _); [|cbn [good]; lia].
      apply good_bind_plain; [apply range_count_no_fuel|]. intros n.
      apply good_read_type_enums. }
    intros type_enums buf3 H3.
    destruct (has_flag _ TnvcFlag.NAME); [discriminate|].
    destruct (has_flag _ TnvcFlag.VALUE); [|cbn [good]; lia].
    apply good_bind_plain; [apply range_count_no_fuel|]. intros n.
    destruct (has_flag _ TnvcFlag.TYPE).
    + eapply good_mono;
        [apply (good_each_decode (List.length buf1)); [|lia]|lia].
      intros t buf Hb. apply (IHobj t). lia.
    + destruct (_ <=? _)%Z; [cbn [good]; lia | discriminate].
  - intros buf Hf. cbn [_decode_ac_items].
    destruct buf as [|b buf1]; [cbn; discriminate|].
    cbn [read_B bind List.length] in *.
    eapply good_mono;
      [apply (good_repeat_decode (List.length buf1)); [|lia]|lia].
    intros buf Hb. apply IHari. lia.
  - intros t buf Hf. cbn [_decode_obj].
    repeat match goal with
           | |- good _ (if ?c then _ else _) => destruct c
           end.
    + apply IHari. lia.
    + apply (good_bind (List.length buf)); [apply IHac; lia|].
      intros items buf1 H1. exact H1.
    + apply (good_bind (List.length buf)); [apply good_cbor2_decode|].
      intros ty buf1 H1.
      apply good_bind_plain;
        [destruct (as_int ty); [apply of_value_no_fuel | discriminate]|].
      intros ty'.
      apply (good_bind (List.length buf1)); [apply IHac; lia|].
      intros items buf2 H2. cbn [good]. lia.
    + apply (good_bind (List.length buf)); [apply IHtnvc; lia|].
      intros items buf1 H1. exact H1.
    + apply (good_bind (List.length buf)); [apply good_cbor2_decode|].
      intros item buf1 H1. exact H1.
    + discriminate.
Qed.

(** [ari_cbor.Decoder.decode] never stops for lack of fuel. *)
Lemma cbor_decode_terminates buf :
  ari_cbor.Decoder.decode buf <> Raise OutOfFuel.
Proof.
  unfold decode.
  pose proof (proj1 (decode_enough_fuel (fuel_for buf)) buf) as H.
  unfold fuel_for in *.
  destruct (_decode_ari _ buf) as [[res rest]|e]; [discriminate|].
  cbn [good] in H. specialize (H ltac:(lia)).
  destruct e; try discriminate. contradiction.
Qed.

End cbor_fuel.

(** *** The nickname converter *)

Section nickname_fuel.
Import ari nickname.

Lemma depth_rewrap_param params ix :
  option_map (map depth) (now (rewrap_param params ix))
  = option_map (map depth) params.
Proof.
  unfold rewrap_param. destruct params as [l|]; [|reflexivity].
  destruct (nth_error l ix) as [x|] eqn:E; [|reflexivity].
  assert (Hsplit : l = firstn ix l ++ x :: skipn (S ix) l).
  { clear -E. revert ix E. induction l as [|y l IH]; intros [|ix] E;
      try discriminate E.
    - injection E as ->. reflexivity.
    - cbn [firstn skipn app]. f_equal. apply IH. exact E. }
  destruct x as [| | items | t items | items]; try reflexivity;
    cbn [now option_map]; f_equal; rewrite Hsplit at 3;
    rewrite !map_app; reflexivity.
Qed.

Lemma depth_rewrap_params specs : forall ix params,
  option_map (map depth) (now (rewrap_params specs ix params))
  = option_map (map depth) params.
Proof.
  induction specs as [|spec specs IH]; intros ix params; [reflexivity|].
  cbn [rewrap_params].
  destruct (models.col_eq_str (models.tn_type spec) "TNVC"); [|apply IH].
  destruct (raised (rewrap_param params ix)) eqn:E.
  - apply depth_rewrap_param.
  - rewrite IH. apply depth_rewrap_param.
Qed.

Lemma depth_convert_ari self ident params :
  option_map (map depth) (snd (now (_convert_ari self ident params)))
  = option_map (map depth) params.
Proof.
  unfold _convert_ari.
  destruct (_mode self), (namespace ident); try reflexivity.
  - destruct (to_nn_lookup self ident s) as [[[[nn e] o]|]|]; try reflexivity.
    destruct (cbor2.dumps (PyInt e)); [|reflexivity].
    destruct (models.parmspec o); [|reflexivity].
    cbn [now snd]. apply depth_rewrap_params.
  - destruct (as_int (PyBool b)); [|reflexivity].
    destruct (from_nn_lookup self ident z) as [[adm [o|]]|]; reflexivity.
  - destruct (as_int (PyInt n)); [|reflexivity].
    destruct (from_nn_lookup self ident z) as [[adm [o|]]|]; reflexivity.
Qed.

Lemma to_nn_lookup_no_fuel self ident ns :
  no_fuel (to_nn_lookup self ident ns).
Proof.
  unfold to_nn_lookup, split_colon_1, AdmSet.get_by_norm_name,
    AdmSet.get_child, AdmObjType.of_name, ORM_TYPE, models.one_or_none.
  no_fuel_auto.
Qed.

Lemma from_nn_lookup_no_fuel self ident ns :
  no_fuel (from_nn_lookup self ident ns).
Proof.
  pose proof cbor2_decode_no_fuel.
  unfold from_nn_lookup, AdmSet.get_by_enum, AdmSet.get_child,
    AdmObjType.of_value, ORM_TYPE, models.one_or_none, cbor2.loads.
  no_fuel_auto.
Qed.

Lemma rewrap_params_no_fuel specs : forall ix params,
  raised (rewrap_params specs ix params) <> Some OutOfFuel.
Proof.
  induction specs as [|spec specs IH]; intros ix params; [discriminate|].
  cbn [rewrap_params].
  destruct (models.col_eq_str _ _); [|apply IH].
  destruct (raised (rewrap_param params ix)) eqn:E; [|apply IH].
  rewrite E. unfold rewrap_param in E. intros [= ->].
  destruct params as [l|]; [|discriminate E].
  destruct (nth_error l ix) as [[]|]; discriminate E.
Qed.

Lemma convert_ari_no_fuel self ident params :
  raised (_convert_ari self ident params) <> Some OutOfFuel.
Proof.
  unfold _convert_ari.
  destruct (_mode self), (namespace ident); try discriminate.
  - destruct (to_nn_lookup self ident s) as [[[[nn e] o]|]|e] eqn:E;
      try discriminate.
    + unfold cbor2.dumps, cbor2.encode.
      destruct (models.parmspec o); [|discriminate].
      apply rewrap_params_no_fuel.
    + intros [= ->]. exact (to_nn_lookup_no_fuel _ _ _ E).
  - destruct (as_int (PyBool b)); [|discriminate].
    destruct (from_nn_lookup self ident z) as [[adm [o|]]|e] eqn:E;
      try discriminate.
    intros [= ->]. exact (from_nn_lookup_no_fuel _ _ _ E).
  - destruct (as_int (PyInt n)); [|discriminate].
    destruct (from_nn_lookup self ident z) as [[adm [o|]]|e] eqn:E;
      try discriminate.
    intros [= ->]. exact (from_nn_lookup_no_fuel _ _ _ E).
Qed.

Lemma call_items_no_fuel (f : obj -> mutated obj) l :
  (forall x, In x l -> raised (f x) <> Some OutOfFuel /\
                       depth (now (f x)) = depth x) ->
  raised (call_items f l) <> Some OutOfFuel /\
  map depth (now (call_items f l)) = map depth l.
Proof.
  induction l as [|x l IH]; intros H; [split; [discriminate|reflexivity]|].
  cbn [call_items].
  destruct (H x (or_introl eq_refl)) as [Hr Hd].
  destruct (raised (f x)) as [e|] eqn:E; cbn [raised now map].
  - split; [intros [= ->]; apply Hr; reflexivity | rewrite Hd; reflexivity].
  - destruct IH as [IH1 IH2]; [intros y Hy; apply H; right; exact Hy|].
    split; [exact IH1 | rewrite Hd, IH2; reflexivity].
Qed.

Lemma call_no_fuel self fuel : forall o,
  (depth o <= fuel)%nat ->
  raised (call self fuel o) <> Some OutOfFuel /\
  depth (now (call self fuel o)) = depth o.
Proof.
  induction fuel as [|fuel IH]; intros o Hd.
  - destruct o as [| ? [|]| | |]; cbn in Hd; lia.
  - assert (Hitems : forall l, (list_max (map depth l) <= fuel)%nat ->
              raised (call_items (call self fuel) l) <> Some OutOfFuel /\
              map depth (now (call_items (call self fuel) l)) = map depth l).
    { intros l Hl. apply call_items_no_fuel. intros x Hx. apply IH.
      pose proof (depth_in x l Hx). lia. }
    destruct o as [t v | ident params | items | t items | items];
      cbn [call]; [| |cbn [depth] in Hd ..].
    + split; [discriminate | reflexivity].
    + pose proof (convert_ari_no_fuel self ident params) as Hc.
      pose proof (depth_convert_ari self ident params) as Hdp.
      destruct (now (_convert_ari self ident params)) as [ident' params'].
      cbn [snd] in Hdp.
      assert (Hdepth : depth (ReferenceARI ident' params')
                       = depth (ReferenceARI ident params)).
      { cbn [depth]. destruct params', params; cbn [option_map] in Hdp;
          try discriminate Hdp; [|reflexivity].
        injection Hdp as ->. reflexivity. }
      destruct (raised (_convert_ari self ident params)) as [e|];
        cbn [raised now].
      * split; [exact Hc | exact Hdepth].
      * destruct params' as [[|p ps]|]; cbn [raised now];
          try (split; [discriminate | exact Hdepth]).
        destruct (Hitems (p :: ps)) as [H1 H2].
        { rewrite <- Hdepth in Hd. cbn [depth] in Hd. lia. }
        split; [exact H1|]. rewrite <- Hdepth. cbn [depth]. rewrite H2.
        reflexivity.
    + destruct (Hitems items ltac:(lia)) as [H1 H2].
      cbn [raised now depth]. rewrite H2. split; [exact H1 | reflexivity].
    + destruct (Hitems items ltac:(lia)) as [H1 H2].
      cbn [raised now depth]. rewrite H2. split; [exact H1 | reflexivity].
    + destruct (Hitems items ltac:(lia)) as [H1 H2].
      cbn [raised now depth]. rewrite H2. split; [exact H1 | reflexivity].
Qed.

(** [Converter.__call__] never stops for lack of fuel. *)
Lemma call_terminates self o : raised (__call__ self o) <> Some OutOfFuel.
Proof. apply call_no_fuel. apply Nat.le_refl. Qed.

End nickname_fuel.

(** *** The text parser *)

Section text_fuel.
Import ari ari_text ari_text.lexmod ari_text.parsemod.

Ltac break_match H :=
  match type of H with
  | context [match ?x with _ => _ end] => destruct x eqn:?; try discriminate H
  end.

Lemma parse_literal_consumes toks v rest :
  parse_literal toks = Parsed v rest -> (List.length rest < List.length toks)%nat.
Proof.
  unfold parse_literal. intros H. repeat break_match H.
  all: injection H as <- <-; cbn [List.length]; lia.
Qed.

Lemma parse_ident_consumes toks v rest :
  parse_ident toks = Parsed v rest -> (List.length rest < List.length toks)%nat.
Proof.
  unfold parse_ident. intros H. repeat break_match H.
  all: injection H as <- <-; cbn [List.length]; lia.
Qed.

Lemma parse_consumes fuel :
  consumes (parse_ari fuel) /\ consumes (parse_ssp fuel) /\
  consumes (parse_paramlist fuel) /\ consumes (parse_paramitem fuel) /\
  consumes (parse_aclist fuel).
Proof.
  induction fuel as [|fuel (IHari & IHssp & IHpl & IHpi & IHac)].
  { repeat split; intros toks v rest H; discriminate H. }
  repeat split; intros toks v rest H.
  - cbn [parse_ari] in H. destruct toks as [|tok toks'].
    + apply parse_literal_consumes in H. exact H.
    + destruct tok; try (apply parse_literal_consumes in H; exact H).
      apply IHssp in H. cbn [List.length]. lia.
  - cbn [parse_ssp] in H. destruct toks as [|tok toks'].
    + apply parse_literal_consumes in H. exact H.
    + destruct tok; try (apply parse_literal_consumes in H; exact H).
      destruct (parse_ident (SLASH :: toks')) as [ident r| |e] eqn:Ei;
        try discriminate H.
      apply parse_ident_consumes in Ei.
      destruct r as [|t1 r]; [injection H as <- <-; exact Ei|].
      destruct t1; try (injection H as <- <-; exact Ei).
      destruct r as [|t2 r].
      * destruct (parse_paramlist fuel []) as [ps r'| |e] eqn:Ep;
          try discriminate H.
        apply IHpl in Ep. cbn in Ep. lia.
      * destruct t2;
          try (destruct (parse_paramlist fuel _) as [ps r'| |e] eqn:Ep;
               try discriminate H;
               apply IHpl in Ep;
               destruct r' as [|t3 r']; try discriminate H;
               destruct t3; try discriminate H;
               injection H as <- <-; cbn [List.length] in *; lia).
        injection H as <- <-. cbn [List.length] in *. lia.
  - cbn [parse_paramlist] in H.
    destruct (parse_paramitem fuel toks) as [item r| |e] eqn:Ei;
      try discriminate H.
    apply IHpi in Ei.
    destruct r as [|t1 r]; [injection H as <- <-; exact Ei|].
    destruct t1; try (injection H as <- <-; exact Ei).
    destruct (parse_paramlist fuel r) as [items r'| |e] eqn:Ep;
      try discriminate H.
    apply IHpl in Ep. injection H as <- <-. cbn [List.length] in *. lia.
  - cbn [parse_paramitem] in H. destruct toks as [|tok toks'].
    + apply IHari in H. exact H.
    + destruct tok; try (apply IHari in H; exact H).
      * destruct toks' as [|t1 r].
        -- destruct (parse_aclist fuel []) as [items r'| |e] eqn:Ea;
             try discriminate H.
           apply IHac in Ea. cbn in Ea. lia.
        -- destruct t1;
             try (destruct (parse_aclist fuel _) as [items r'| |e] eqn:Ea;
                  try discriminate H;
                  apply IHac in Ea;
                  destruct r' as [|t3 r']; try discriminate H;
                  destruct t3; try discriminate H;
                  injection H as <- <-; cbn [List.length] in *; lia).
           injection H as <- <-. cbn [List.length]. lia.
      * destruct toks' as [|t1 r]; [apply IHari in H; exact H|].
        destruct t1; try (apply IHari in H; exact H).
        destruct (parse_aclist fuel r) as [items r'| |e] eqn:Ea;
          try discriminate H.
        apply IHac in Ea.
        destruct r' as [|t3 r']; try discriminate H.
        destruct t3; try discriminate H.
        injection H as <- <-. cbn [List.length] in *. lia.
  - cbn [parse_aclist] in H.
    destruct (parse_ari fuel toks) as [item r| |e] eqn:Ei;
      try discriminate H.
    apply IHari in Ei.
    destruct r as [|t1 r]; [injection H as <- <-; exact Ei|].
    destruct t1; try (injection H as <- <-; exact Ei).
    destruct (parse_aclist fuel r) as [items r'| |e] eqn:Ep;
      try discriminate H.
    apply IHac in Ep. injection H as <- <-. cbn [List.length] in *. lia.
Qed.

Lemma check_type_no_fuel t v : no_fuel (check_type t v).
Proof. unfold check_type, math_isfinite. no_fuel_auto. Qed.

Lemma p_literal_with_type_no_fuel t lit :
  no_fuel (p_literal_with_type t lit).
Proof.
  unfold p_literal_with_type. destruct lit; try (unfold no_fuel; discriminate).
  pose proof (check_type_no_fuel t value) as H.
  destruct (check_type t value) as [[]|e]; cbn [except_Exception bind];
    [unfold no_fuel; discriminate|].
  destruct e; try (unfold no_fuel; discriminate). contradiction.
Qed.

Lemma parse_literal_no_fuel toks :
  parse_literal toks <> ActionRaised OutOfFuel.
Proof.
  unfold parse_literal. intros H.
  repeat match type of H with
         | context [p_literal_with_type ?t ?l] =>
             let E := fresh "E" in
             destruct (p_literal_with_type t l) eqn:E;
             [discriminate H
             |injection H as ->; exact (p_literal_with_type_no_fuel _ _ E)]
         | context [match ?x with _ => _ end] =>
             destruct x eqn:?; try discriminate H
         end.
Qed.

Lemma parse_no_fuel fuel :
  no_fuel_from 1 parse_ari fuel /\ no_fuel_from 1 parse_ssp fuel /\
  no_fuel_from 3 parse_paramlist fuel /\ no_fuel_from 2 parse_paramitem fuel /\
  no_fuel_from 2 parse_aclist fuel.
Proof.
  induction fuel as [|fuel (IHari & IHssp & IHpl & IHpi & IHac)].
  { repeat split; intros toks Hf; lia. }
  destruct (parse_consumes fuel) as (Cari & Cssp & Cpl & Cpi & Cac).
  repeat split; intros toks Hf H.
  - cbn [parse_ari] in H. destruct toks as [|tok toks'].
    + exact (parse_literal_no_fuel _ H).
    + destruct tok; try exact (parse_literal_no_fuel _ H).
      apply (IHssp toks'); [cbn [List.length] in Hf; lia | exact H].
  - cbn [parse_ssp] in H. destruct toks as [|tok toks'].
    + exact (parse_literal_no_fuel _ H).
    + destruct tok; try exact (parse_literal_no_fuel _ H).
      destruct (parse_ident (SLASH :: toks')) as [ident r| |e] eqn:Ei;
        try discriminate H.
      * apply parse_ident_consumes in Ei.
        destruct r as [|t1 r]; [discriminate H|].
        destruct t1; try discriminate H.
        assert (Hp : parse_paramlist fuel r <> ActionRaised OutOfFuel).
        { apply IHpl. cbn [List.length] in *. lia. }
        destruct r as [|t2 r'].
        -- destruct (parse_paramlist fuel []) as [ps [|[] ?]| |e];
             try discriminate H. injection H as ->. apply Hp. reflexivity.
        -- destruct t2; try discriminate H;
             destruct (parse_paramlist fuel _) as [ps [|[] ?]| |e];
             try discriminate H; injection H as ->; apply Hp; reflexivity.
      * unfold parse_ident in Ei. repeat break_match Ei.
  - cbn [parse_paramlist] in H.
    assert (Hi : parse_paramitem fuel toks <> ActionRaised OutOfFuel)
      by (apply IHpi; lia).
    destruct (parse_paramitem fuel toks) as [item r| |e] eqn:Ei;
      try discriminate H.
    + apply Cpi in Ei.
      destruct r as [|t1 r]; [discriminate H|].
      destruct t1; try discriminate H.
      assert (Hp : parse_paramlist fuel r <> ActionRaised OutOfFuel).
      { apply IHpl. cbn [List.length] in *. lia. }
      destruct (parse_paramlist fuel r) as [ps r'| |e]; try discriminate H.
      injection H as ->. apply Hp. reflexivity.
    + injection H as ->. apply Hi. reflexivity.
  - cbn [parse_paramitem] in H.
    assert (Ha : parse_ari fuel toks <> ActionRaised OutOfFuel)
      by (apply IHari; lia).
    destruct toks as [|tok toks']; [exact (Ha H)|].
    destruct tok; try exact (Ha H).
    + destruct toks' as [|t1 r].
      * assert (Hp : parse_aclist fuel [] <> ActionRaised OutOfFuel)
          by (apply IHac; cbn [List.length] in *; lia).
        destruct (parse_aclist fuel []) as [ps [|[] ?]| |e];
          try discriminate H. injection H as ->. apply Hp. reflexivity.
      * assert (Hp : parse_aclist fuel (t1 :: r) <> ActionRaised OutOfFuel)
          by (apply IHac; cbn [List.length] in *; lia).
        destruct t1; try discriminate H;
          destruct (parse_aclist fuel _) as [ps [|[] ?]| |e];
          try discriminate H; injection H as ->; apply Hp; reflexivity.
    + destruct toks' as [|t1 r]; [exact (Ha H)|].
      destruct t1; try exact (Ha H).
      assert (Hp : parse_aclist fuel r <> ActionRaised OutOfFuel)
        by (apply IHac; cbn [List.length] in *; lia).
      destruct (parse_aclist fuel r) as [ps [|[] ?]| |e];
        try discriminate H. injection H as ->. apply Hp. reflexivity.
  - cbn [parse_aclist] in H.
    assert (Hi : parse_ari fuel toks <> ActionRaised OutOfFuel)
      by (apply IHari; lia).
    destruct (parse_ari fuel toks) as [item r| |e] eqn:Ei;
      try discriminate H.
    + apply Cari in Ei.
      destruct r as [|t1 r]; [discriminate H|].
      destruct t1; try discriminate H.
      assert (Hp : parse_aclist fuel r <> ActionRaised OutOfFuel).
      { apply IHac. cbn [List.length] in *. lia. }
      destruct (parse_aclist fuel r) as [ps r'| |e]; try discriminate H.
      injection H as ->. apply Hp. reflexivity.
    + injection H as ->. apply Hi. reflexivity.
Qed.

(** The parser never stops for lack of fuel. *)
Lemma parse_terminates toks : parse toks <> Raise OutOfFuel.
Proof.
  unfold parse.
  pose proof (proj1 (parse_no_fuel (fuel_for toks)) toks) as H.
  destruct (parse_ari (fuel_for toks) toks) as [v [|]| |e];
    try discriminate.
  intros [= ->]. apply H; [unfold fuel_for; lia | reflexivity].
Qed.

Lemma text_decode_terminates text :
  ari_text.Decoder.decode text <> Raise OutOfFuel.
Proof.
  unfold ari_text.Decoder.decode, ari_text.Decoder.decode_tokens.
  destruct (lexmod.tokenize text) as [toks|e]; [|discriminate].
  pose proof (parse_terminates toks) as H.
  destruct (parse toks) as [v|[]]; try discriminate.
  exfalso. apply H. reflexivity.
Qed.

End text_fuel.

(** ** The CBOR codec: the form of what is decoded, and the round trip *)

Section cbor_more.
Import ari ari_cbor ari_cbor.Decoder.

Tactic Notation "bind_inv" hyp(H) "as" simple_intropattern(p) ident(E) :=
  apply bind_Ok_inv in H; destruct H as (p & E & H).

Lemma of_value_low_nibble flags t :
  StructType.of_value (Z.land flags 15) = Ok t ->
  StructType.eqb t StructType.LIT = false ->
  is_amm_object_type t = true.
Proof.
  intros H Hl.
  assert (Hv : StructType.value t = Z.land flags 15).
  { unfold StructType.of_value in H.
    destruct (find _ _) as [x|] eqn:E; [|discriminate].
    injection H as ->. apply find_some in E. lia. }
  assert (0 <= Z.land flags 15 < 16).
  { change 15 with (Z.ones 4). rewrite Z.land_ones by lia.
    apply Z.mod_pos_bound. lia. }
  destruct t; cbn in Hv; try lia; try reflexivity. discriminate Hl.
Qed.

Lemma of_value_literal_nibble flags t :
  0 <= flags < 256 ->
  StructType.of_value (Z.shiftr flags 4 + StructType.value StructType.BOOL) = Ok t ->
  nibble_literal_type t = true.
Proof.
  intros Hf H.
  assert (Hv : StructType.value t = Z.shiftr flags 4 + 16).
  { unfold StructType.of_value in H.
    destruct (find _ _) as [x|] eqn:E; [|discriminate].
    injection H as ->. apply find_some in E.
    change (StructType.value StructType.BOOL) with 16 in E. lia. }
  rewrite Z.shiftr_div_pow2 in Hv by lia. change (2 ^ 4) with 16 in Hv.
  assert (0 <= flags / 16 < 16).
  { split; [apply Z.div_pos; lia | apply Z.div_lt_upper_bound; lia]. }
  destruct t; cbn in Hv; try lia; reflexivity.
Qed.

Lemma check_name_form name name' :
  check_name name = Ok name' ->
  match name' with
  | PyStr _ => true
  | PyBytes b => negb (util.is_printable b)
  | _ => false
  end = true.
Proof.
  unfold check_name. destruct name; try discriminate.
  - intros [= <-]. reflexivity.
  - destruct (util.is_printable b) eqn:E.
    + unfold bytes_decode. destruct (is_ascii_bytes b); [|discriminate].
      intros [= <-]. reflexivity.
    + intros [= <-]. rewrite E. reflexivity.
Qed.

Lemma check_bytes_or_None_form v u :
  check_bytes_or_None v = Ok u -> bytes_or_None v = true.
Proof. destruct v; cbn; congruence. Qed.

Section loops_form.
Context {A : Type} (P : A -> bool).

Lemma repeat_decode_form step count :
  (forall buf x rest, step buf = Ok (x, rest) -> P x = true) ->
  forall buf xs rest,
    repeat_decode step count buf = Ok (xs, rest) ->
    forallb P xs = true /\ List.length xs = count.
Proof.
  intros Hs. induction count as [|k IH]; intros buf xs rest H;
    cbn [repeat_decode] in H.
  - injection H as <- <-. split; reflexivity.
  - bind_inv H as [x buf1] E1. bind_inv H as [xs' buf2] E2.
    injection H as <- <-. apply Hs in E1. apply IH in E2 as [E2 E3].
    cbn [forallb List.length]. rewrite E1, E2, E3. split; reflexivity.
Qed.

Lemma each_decode_form {T}
    (step_for : T -> list byte -> result (A * list byte)) ts :
  (forall t buf x rest, step_for t buf = Ok (x, rest) -> P x = true) ->
  forall buf xs rest,
    each_decode step_for ts buf = Ok (xs, rest) -> forallb P xs = true.
Proof.
  intros Hs. induction ts as [|t ts IH]; intros buf xs rest H;
    cbn [each_decode] in H.
  - injection H as <- <-. reflexivity.
  - bind_inv H as [x buf1] E1. bind_inv H as [xs' buf2] E2.
    injection H as <- <-. apply Hs in E1. apply IH in E2.
    cbn [forallb]. rewrite E1, E2. reflexivity.
Qed.
End loops_form.

Lemma read_B_byte buf flags rest :
  read_B buf = Ok (flags, rest) -> 0 <= flags < 256.
Proof.
  destruct buf as [|b buf]; [discriminate|]. intros [= <- <-].
  apply Z_of_byte_range.
Qed.

Lemma decoded_form_of_top o :
  decoded_top o = true -> decoded_form o = true -> decoded_form o = true.
Proof. auto. Qed.

Lemma nibble_is_literal t : nibble_literal_type t = true -> LITERAL_TYPES t = true.
Proof. destruct t; cbn; congruence. Qed.

Lemma decode_forms fuel :
  (forall buf o rest, _decode_ari fuel buf = Ok (o, rest) ->
     decoded_form o = true /\ decoded_top o = true) /\
  (forall buf l rest, _decode_tnvc fuel buf = Ok (l, rest) ->
     forallb decoded_form l = true) /\
  (forall buf l rest, _decode_ac_items fuel buf = Ok (l, rest) ->
     forallb decoded_form l = true /\ (List.length l <= 31)%nat) /\
  (forall t buf o rest, _decode_obj fuel t buf = Ok (o, rest) ->
     decoded_form o = true).
Proof.
  induction fuel as [|f (IHari & IHtnvc & IHac & IHobj)];
    [repeat apply conj; intros; discriminate|].
  repeat apply conj.
  - intros buf o rest H. cbn [_decode_ari] in H.
    bind_inv H as [flags buf1] Ef. apply read_B_byte in Ef.
    bind_inv H as str_type Et.
    destruct (StructType.eqb str_type StructType.LIT) eqn:Hlit.
    + bind_inv H as [val buf2] Ev. bind_inv H as ty Ety.
      injection H as <- <-. apply of_value_literal_nibble in Ety; [|exact Ef].
      cbn [decoded_form decoded_top]. rewrite Ety, (nibble_is_literal _ Ety).
      split; reflexivity.
    + bind_inv H as [obj_nn buf2] Enn.
      bind_inv H as [nm buf3] Enm.
      bind_inv H as nm' Enm'.
      bind_inv H as [params buf4] Ep.
      bind_inv H as [iss buf5] Ei. bind_inv H as u1 Eic.
      bind_inv H as [tg buf6] Etg. bind_inv H as u2 Etc.
      injection H as <- <-.
      cbn [decoded_form decoded_top]. unfold decoded_ident.
      cbn [type_enum name issuer tag].
      rewrite (of_value_low_nibble _ _ Et Hlit), (check_name_form _ _ Enm'),
        (check_bytes_or_None_form _ _ Eic), (check_bytes_or_None_form _ _ Etc).
      cbn [andb]. split; [|reflexivity].
      destruct (has_flag flags AriFlag.HAS_PARAMS).
      * bind_inv Ep as [l buf'] El. injection Ep as <- <-.
        apply IHtnvc in El. exact El.
      * injection Ep as <- <-. reflexivity.
  - intros buf l rest H. cbn [_decode_tnvc] in H.
    bind_inv H as [flags buf1] Ef.
    bind_inv H as [count buf2] Ec.
    bind_inv H as [type_enums buf3] Ety.
    destruct (has_flag flags TnvcFlag.NAME); [discriminate|].
    destruct (has_flag flags TnvcFlag.VALUE).
    + bind_inv H as n En. destruct (has_flag flags TnvcFlag.TYPE).
      * apply (each_decode_form decoded_form) in H; [exact H|].
        intros t b x r Hx. apply IHobj in Hx. exact Hx.
      * destruct (_ <=? _); [|discriminate]. injection H as <- <-. reflexivity.
    + injection H as <- <-. reflexivity.
  - intros buf l rest H. cbn [_decode_ac_items] in H.
    bind_inv H as [item buf1] Ef. apply read_B_byte in Ef.
    apply (repeat_decode_form decoded_form) in H.
    + destruct H as [H1 H2]. split; [exact H1|]. rewrite H2.
      assert (0 <= Z.land item 31 < 32).
      { change 31 with (Z.ones 5). rewrite Z.land_ones by lia.
        apply Z.mod_pos_bound. lia. }
      lia.
    + intros b x r Hx. apply IHari in Hx. apply Hx.
  - intros t buf o rest H. cbn [_decode_obj] in H.
    destruct (StructType.eqb t StructType.ARI); [apply IHari in H; apply H|].
    destruct (StructType.eqb t StructType.AC).
    { bind_inv H as [items buf1] E. injection H as <- <-.
      apply IHac in E. apply E. }
    destruct (StructType.eqb t StructType.EXPR).
    { bind_inv H as [ty buf1] E. bind_inv H as ty' E'.
      bind_inv H as [items buf2] Ei. injection H as <- <-.
      apply IHac in Ei. apply Ei. }
    destruct (StructType.eqb t StructType.TNVC).
    { bind_inv H as [items buf1] E. injection H as <- <-.
      apply IHtnvc in E. exact E. }
    destruct (LITERAL_TYPES t) eqn:Hl; [|discriminate].
    bind_inv H as [item buf1] E. injection H as <- <-.
    exact Hl.
Qed.

Lemma bind_raise {A B} (r : result A) (k : A -> result B) e :
  r = Raise e -> bind r k = Raise e.
Proof. intros ->. reflexivity. Qed.

Lemma bind_extends {A B} (r : result A) (k1 k2 : A -> result B) :
  (forall a, k1 a <> Raise OutOfFuel -> k2 a = k1 a) ->
  bind r k1 <> Raise OutOfFuel -> bind r k2 = bind r k1.
Proof. destruct r as [a|e]; cbn [bind]; auto. Qed.

Lemma bind_extends_both {A B} (r1 r2 : result A) (k1 k2 : A -> result B) :
  (r1 <> Raise OutOfFuel -> r2 = r1) ->
  (forall a, k1 a <> Raise OutOfFuel -> k2 a = k1 a) ->
  bind r1 k1 <> Raise OutOfFuel -> bind r2 k2 = bind r1 k1.
Proof.
  intros Hr Hk H. destruct r1 as [a|e].
  - rewrite Hr by discriminate. cbn [bind] in *. auto.
  - rewrite Hr; [reflexivity|]. intros [= ->]. apply H. reflexivity.
Qed.

Lemma repeat_decode_extends {A} (f g : list byte -> result (A * list byte)) :
  extends f g -> forall count, extends (repeat_decode f count) (repeat_decode g count).
Proof.
  intros Hfg. induction count as [|k IH]; intros buf H; [reflexivity|].
  cbn [repeat_decode] in *.
  apply bind_extends_both; [apply Hfg | | exact H].
  intros [x buf1] H1. apply bind_extends_both; [apply IH | | exact H1].
  intros [xs buf2] _. reflexivity.
Qed.

Lemma each_decode_extends {A T} (f g : T -> list byte -> result (A * list byte)) :
  (forall t, extends (f t) (g t)) ->
  forall ts, extends (each_decode f ts) (each_decode g ts).
Proof.
  intros Hfg. induction ts as [|t ts IH]; intros buf H; [reflexivity|].
  cbn [each_decode] in *.
  apply bind_extends_both; [apply Hfg | | exact H].
  intros [x buf1] H1. apply bind_extends_both; [apply IH | | exact H1].
  intros [xs buf2] _. reflexivity.
Qed.

Ltac ext_step :=
  match goal with
  | |- bind ?r _ <> Raise OutOfFuel -> bind ?r _ = bind ?r _ =>
      apply bind_extends; intros ?
  | |- (if ?c then _ else _) <> Raise OutOfFuel -> _ => destruct c
  | |- (match ?p with pair _ _ => _ end) <> Raise OutOfFuel -> _ =>
      destruct p
  | |- ?x <> Raise OutOfFuel -> ?x = ?x => reflexivity
  | |- _ <> Raise OutOfFuel -> _ = _ =>
      apply bind_extends_both; [| intros ?]
  end.

Lemma decode_fuel_S fuel :
  extends (_decode_ari fuel) (_decode_ari (S fuel)) /\
  extends (_decode_tnvc fuel) (_decode_tnvc (S fuel)) /\
  extends (_decode_ac_items fuel) (_decode_ac_items (S fuel)) /\
  (forall t, extends (_decode_obj fuel t) (_decode_obj (S fuel) t)).
Proof.
  induction fuel as [|f (IHari & IHtnvc & IHac & IHobj)].
  { repeat apply conj; intros; intros buf H; exfalso; apply H; reflexivity. }
  repeat apply conj.
  - intros buf. cbn [_decode_ari]. repeat ext_step. apply IHtnvc.
  - intros buf. cbn [_decode_tnvc]. repeat ext_step.
    all: try (intros H; apply (each_decode_extends _ _ IHobj); exact H).
  - intros buf. cbn [_decode_ac_items]. repeat ext_step.
    intros H. apply (repeat_decode_extends _ _ IHari). exact H.
  - intros t buf. cbn [_decode_obj]. repeat ext_step.
    all: try apply IHari; try apply IHac; try apply IHtnvc.
    all: repeat ext_step.
Qed.

Import Encoder.

Lemma ref_flags t (b1 b2 b3 b4 : bool) :
  is_amm_object_type t = true ->
  let flags := StructType.value t in
  let flags := if b1 then Z.lor flags AriFlag.HAS_NN else flags in
  let flags := if b2 then Z.lor flags AriFlag.HAS_PARAMS else flags in
  let flags := if b3 then Z.lor flags AriFlag.HAS_ISS else flags in
  let flags := if b4 then Z.lor flags AriFlag.HAS_TAG else flags in
  (0 <= flags < 256) /\
  Z.land flags 15 = StructType.value t /\
  has_flag flags AriFlag.HAS_NN = b1 /\
  has_flag flags AriFlag.HAS_PARAMS = b2 /\
  has_flag flags AriFlag.HAS_ISS = b3 /\
  has_flag flags AriFlag.HAS_TAG = b4.
Proof.
  intros Ht. destruct t; try discriminate Ht;
    destruct b1, b2, b3, b4; vm_compute; intuition congruence.
Qed.

Lemma amm_not_LIT t :
  is_amm_object_type t = true -> StructType.eqb t StructType.LIT = false.
Proof. destruct t; cbn; congruence. Qed.

Lemma decode_if_opt v bs rest :
  representable v = true ->
  (if is_not_None v then cbor2.encode v else Ok []) = Ok bs ->
  decode_if (is_not_None v) (bs ++ rest) = Ok (v, rest).
Proof.
  intros Hr H. unfold decode_if. destruct (is_not_None v) eqn:E.
  - apply cbor2_facts.decode_encode; assumption.
  - injection H as <-. destruct v; try discriminate E. reflexivity.
Qed.

Lemma opt_encode_ok v :
  representable v = true ->
  exists bs, (if is_not_None v then cbor2.encode v else Ok []) = Ok bs.
Proof.
  intros Hr. destruct (is_not_None v); [|eauto].
  apply cbor2_facts.encode_representable. exact Hr.
Qed.

Lemma name_roundtrip nm rest :
  representable nm = true ->
  match nm with
  | PyStr s => util.is_printable (list_byte_of_string s)
  | PyBytes b => negb (util.is_printable b)
  | _ => false
  end = true ->
  exists bs,
    name_bytes nm = Ok bs /\
    (nm' <- (let '(v, buf) := (PyBytes bs, rest) in Ok v) ;; check_name nm') = Ok nm /\
    cbor2.decode (cbor2.encode_bytestring bs ++ rest) = Ok (PyBytes bs, rest).
Proof.
  intros Hr Hn. destruct nm as [| | |s|b]; try discriminate Hn.
  - cbn [representable] in Hr. apply andb_prop in Hr as [Ha Hl].
    exists (list_byte_of_string s). cbn [name_bytes py_str bind].
    unfold str_encode. rewrite Ha. repeat apply conj; [reflexivity | |].
    + cbn [bind check_name]. rewrite Hn. unfold bytes_decode.
      rewrite cbor2_facts.is_ascii_bytes_of_string by exact Ha.
      cbn [bind]. rewrite string_of_list_byte_of_string. reflexivity.
    + apply (cbor2_facts.decode_encode (PyBytes (list_byte_of_string s)));
        [|reflexivity].
      cbn [representable]. rewrite cbor2_facts.length_list_byte_of_string.
      exact Hl.
  - exists b. repeat apply conj; [reflexivity | |].
    + cbn [bind check_name]. apply negb_true_iff in Hn. rewrite Hn. reflexivity.
    + apply (cbor2_facts.decode_encode (PyBytes b)); [exact Hr | reflexivity].
Qed.

Lemma check_bytes_or_None_ok v :
  bytes_or_None v = true -> check_bytes_or_None v = Ok tt.
Proof. destruct v; cbn; congruence. Qed.

Lemma read_B_byte_of_Z flags rest :
  0 <= flags < 256 -> read_B (byte_of_Z flags :: rest) = Ok (flags, rest).
Proof. intros H. cbn [read_B]. rewrite Z_of_byte_of_Z by exact H. reflexivity. Qed.

Lemma pack_B_ok v : 0 <= v < 256 -> pack_B v = Ok [byte_of_Z v].
Proof.
  intros H. unfold pack_B.
  destruct (Z.leb_spec 0 v); [|lia]. destruct (Z.leb_spec v 255); [|lia].
  reflexivity.
Qed.

Section ref_level.
Variable f : nat.

Lemma ref_roundtrip ident params ps_enc :
  roundtrip_ident ident = true ->
  match params with
  | Some l =>
      encode_tnvc_body _encode_obj l = Ok ps_enc /\
      forall rest, _decode_tnvc f (ps_enc ++ rest) = Ok (l, rest)
  | None => ps_enc = []
  end ->
  exists enc,
    encode_ref_ari_body _encode_obj ident params = Ok enc /\
    forall rest,
      _decode_ari (S f) (enc ++ rest) = Ok (ReferenceARI ident params, rest).
Proof.
  intros Hid Hps. destruct ident as [ns t nm iss tg].
  unfold roundtrip_ident in Hid. cbn [namespace type_enum name issuer tag] in Hid.
  repeat (apply andb_prop in Hid as [Hid ?]).
  rename Hid into Ht.
  match goal with H : representable ns = true |- _ => rename H into Hns end.
  match goal with H : representable nm = true |- _ => rename H into Hnm end.
  match goal with H : representable iss = true |- _ => rename H into Hiss end.
  match goal with H : representable tg = true |- _ => rename H into Htg end.
  match goal with H : bytes_or_None iss = true |- _ => rename H into Hissb end.
  match goal with H : bytes_or_None tg = true |- _ => rename H into Htgb end.
  match goal with H : match nm with _ => _ end = true |- _ => rename H into Hnmf end.
  destruct (opt_encode_ok ns Hns) as [ns_enc Ens].
  destruct (opt_encode_ok iss Hiss) as [iss_enc Eiss].
  destruct (opt_encode_ok tg Htg) as [tg_enc Etg].
  assert (Hfl : exists flags,
    (let flags := StructType.value t in
     let flags := if is_not_None ns then Z.lor flags AriFlag.HAS_NN else flags in
     let flags := match params with
                  | Some _ => Z.lor flags AriFlag.HAS_PARAMS
                  | None => flags
                  end in
     let flags := if is_not_None iss then Z.lor flags AriFlag.HAS_ISS else flags in
     if is_not_None tg then Z.lor flags AriFlag.HAS_TAG else flags) = flags /\
    (0 <= flags < 256) /\
    Z.land flags 15 = StructType.value t /\
    has_flag flags AriFlag.HAS_NN = is_not_None ns /\
    has_flag flags AriFlag.HAS_PARAMS
    = match params with Some _ => true | None => false end /\
    has_flag flags AriFlag.HAS_ISS = is_not_None iss /\
    has_flag flags AriFlag.HAS_TAG = is_not_None tg).
  { eexists. split; [reflexivity|].
    destruct params.
    - exact (ref_flags t (is_not_None ns) true (is_not_None iss)
                       (is_not_None tg) Ht).
    - exact (ref_flags t (is_not_None ns) false (is_not_None iss)
                       (is_not_None tg) Ht). }
  destruct Hfl as (flags & Hflags & Hrange & Hland & Hnn & Hpar & Hi & Htag).
  unfold encode_ref_ari_body. cbn [namespace type_enum name issuer tag].
  cbv zeta. cbv zeta in Hflags. rewrite Hflags.
  rewrite (pack_B_ok _ Hrange). cbn [bind]. rewrite Ens. cbn [bind].
  destruct (name_roundtrip nm [] Hnm Hnmf) as (nm_bs & Enm & _ & _).
  rewrite Enm. cbn [bind].
  assert (Eps : match params with
                | Some params => encode_tnvc_body _encode_obj params
                | None => Ok []
                end = Ok ps_enc).
  { destruct params; [apply Hps | rewrite Hps; reflexivity]. }
  rewrite Eps. cbn [bind]. rewrite Eiss. cbn [bind]. rewrite Etg. cbn [bind].
  eexists. split; [reflexivity|]. intros rest.
  cbn [app]. rewrite <- !app_assoc. cbn [_decode_ari].
  rewrite (read_B_byte_of_Z _ _ Hrange). cbn [bind].
  rewrite Hland, of_value_value. cbn [bind]. rewrite (amm_not_LIT _ Ht).
  rewrite Hnn, (decode_if_opt _ _ _ Hns Ens). cbn [bind].
  destruct (name_roundtrip nm (ps_enc ++ iss_enc ++ tg_enc ++ rest) Hnm Hnmf)
    as (nm_bs' & Enm' & Hcheck & Hdec).
  assert (nm_bs' = nm_bs) by congruence. subst nm_bs'.
  rewrite Hdec. cbn [bind]. cbn [bind] in Hcheck. rewrite Hcheck. cbn [bind].
  rewrite Hpar.
  assert (Hp : (if match params with Some _ => true | None => false end
                then '(l, buf') <- _decode_tnvc f (ps_enc ++ iss_enc ++ tg_enc ++ rest) ;;
                     Ok (Some l, buf')
                else Ok (None, ps_enc ++ iss_enc ++ tg_enc ++ rest))
               = Ok (params, iss_enc ++ tg_enc ++ rest)).
  { destruct params as [l|].
    - destruct Hps as [_ Hd]. rewrite Hd. reflexivity.
    - rewrite Hps. reflexivity. }
  rewrite Hp. cbn [bind].
  rewrite Hi, (decode_if_opt _ _ _ Hiss Eiss). cbn [bind].
  rewrite (check_bytes_or_None_ok _ Hissb). cbn [bind].
  rewrite Htag, (decode_if_opt _ _ _ Htg Etg). cbn [bind].
  rewrite (check_bytes_or_None_ok _ Htgb). cbn [bind]. reflexivity.
Qed.

End ref_level.

Lemma param_type_range p :
  cbor_roundtrips p = true ->
  0 <= StructType.value (param_type_enum p) < 256.
Proof.
  destruct p as [t v| | | |]; cbn; try lia; try discriminate.
  destruct t; cbn; try discriminate; lia.
Qed.

Lemma types_roundtrip l :
  (forall p, In p l -> 0 <= StructType.value (param_type_enum p) < 256) ->
  mapM (fun p => pack_B (StructType.value (param_type_enum p))) l
  = Ok (map (fun p => [byte_of_Z (StructType.value (param_type_enum p))]) l) /\
  forall rest,
    read_type_enums (Z.of_nat (List.length l))
      (concat_bytes
         (map (fun p => [byte_of_Z (StructType.value (param_type_enum p))]) l)
       ++ rest)
    = Ok (map param_type_enum l, rest).
Proof.
  induction l as [|p l IH]; intros H.
  - split; [reflexivity|]. intros rest. destruct rest; reflexivity.
  - destruct IH as [IH1 IH2]; [intros q Hq; apply H; right; exact Hq|].
    pose proof (H p (or_introl eq_refl)) as Hp.
    split.
    + cbn [mapM map]. rewrite (pack_B_ok _ Hp). cbn [bind]. rewrite IH1.
      reflexivity.
    + intros rest. unfold concat_bytes.
      cbn [map List.concat List.app List.length]. cbn [read_type_enums].
      destruct (Z.leb_spec (Z.of_nat (S (List.length l))) 0); [lia|].
      rewrite (Z_of_byte_of_Z _ Hp), of_value_value. cbn [bind].
      replace (Z.of_nat (S (List.length l)) - 1)
        with (Z.of_nat (List.length l)) by lia.
      unfold concat_bytes in IH2. rewrite IH2. reflexivity.
Qed.

Section levels.
Variable f : nat.

Lemma values_roundtrip l :
  (forall p, In p l ->
     exists e, _encode_obj p false = Ok e /\
       forall rest, _decode_obj f (param_type_enum p) (e ++ rest) = Ok (p, rest)) ->
  exists es,
    mapM (fun p => _encode_obj p false) l = Ok es /\
    forall rest,
      each_decode (_decode_obj f) (map param_type_enum l)
                  (concat_bytes es ++ rest)
      = Ok (l, rest).
Proof.
  induction l as [|p l IH]; intros H.
  - exists []. split; reflexivity.
  - destruct IH as (es & IH1 & IH2); [intros q Hq; apply H; right; exact Hq|].
    destruct (H p (or_introl eq_refl)) as (e & He & Hd).
    exists (e :: es). split.
    + cbn [mapM]. rewrite He. cbn [bind]. rewrite IH1. reflexivity.
    + intros rest. unfold concat_bytes. cbn [map each_decode List.concat].
      rewrite <- app_assoc, Hd. cbn [bind]. unfold concat_bytes in IH2.
      rewrite IH2. reflexivity.
Qed.

Lemma count_representable n :
  0 <= n <= cbor2.maxsize -> representable (PyInt n) = true.
Proof.
  intros H. cbn [representable]. destruct (Z.leb_spec 0 n); [|lia].
  apply Z.leb_le. unfold cbor2.bit_length, cbor2.maxsize in *.
  destruct (Z.eqb_spec n 0); [vm_compute; congruence|].
  assert (Z.log2 n < 63).
  { apply Z.log2_lt_pow2; lia. }
  transitivity ((63 + 7) / 8); [apply Z.div_le_mono; lia | vm_compute; congruence].
Qed.

Lemma tnvc_roundtrip l :
  Z.of_nat (List.length l) <= cbor2.maxsize ->
  (forall p, In p l -> 0 <= StructType.value (param_type_enum p) < 256) ->
  (forall p, In p l ->
     exists e, _encode_obj p false = Ok e /\
       forall rest, _decode_obj f (param_type_enum p) (e ++ rest) = Ok (p, rest)) ->
  exists enc,
    encode_tnvc_body _encode_obj l = Ok enc /\
    forall rest, _decode_tnvc (S f) (enc ++ rest) = Ok (l, rest).
Proof.
  intros Hlen Hty Hval.
  destruct l as [|p0 l0].
  { eexists. split; [reflexivity|]. intros rest. reflexivity. }
  remember (p0 :: l0) as l eqn:El.
  assert (Hflags :
    match l with [] => 0 | _ :: _ => Z.lor TnvcFlag.TYPE TnvcFlag.VALUE end = 5).
  { subst l. reflexivity. }
  clear El p0 l0.
  destruct (types_roundtrip l Hty) as [Ety Hdty].
  destruct (values_roundtrip l Hval) as (es & Ees & Hdes).
  assert (Hrep : representable (PyInt (Z.of_nat (List.length l))) = true).
  { apply count_representable. lia. }
  destruct (cbor2_facts.encode_representable _ Hrep) as (cnt & Ecnt).
  unfold encode_tnvc_body. cbv zeta.
  rewrite Hflags. change (pack_B 5) with (Ok [x05] : result (list byte)).
  cbn [bind]. change (5 =? 0) with false. cbv iota.
  rewrite Ecnt. cbn [bind]. rewrite Ety. cbn [bind]. rewrite Ees. cbn [bind].
  eexists. split; [reflexivity|]. intros rest.
  cbn [app _decode_tnvc read_B bind].
  change (Z_of_byte x05) with 5. change (5 =? 0) with false. cbv iota.
  rewrite <- !app_assoc.
  rewrite (cbor2_facts.decode_encode _ _ _ Hrep Ecnt). cbn [bind].
  change (has_flag 5 TnvcFlag.TYPE) with true.
  change (has_flag 5 TnvcFlag.NAME) with false.
  change (has_flag 5 TnvcFlag.VALUE) with true. cbv iota.
  cbn [range_count as_int bind]. rewrite Hdty. cbn [bind].
  apply Hdes.
Qed.

Lemma ac_count n :
  (n <= 31)%nat ->
  Z.lor 128 (Z.of_nat n) = 128 + Z.of_nat n /\
  Z.land (128 + Z.of_nat n) 31 = Z.of_nat n.
Proof.
  intros H. do 32 (destruct n as [|n]; [vm_compute; split; reflexivity|]).
  lia.
Qed.

Lemma items_roundtrip l :
  (forall p, In p l ->
     is_reference p = true /\
     exists e, _encode_obj p false = Ok e /\
       forall rest, _decode_ari f (e ++ rest) = Ok (p, rest)) ->
  exists es,
    mapM (encode_ref_ari_of _encode_obj) l = Ok es /\
    forall rest,
      repeat_decode (_decode_ari f) (List.length l) (concat_bytes es ++ rest)
      = Ok (l, rest).
Proof.
  induction l as [|p l IH]; intros H.
  - exists []. split; reflexivity.
  - destruct IH as (es & IH1 & IH2); [intros q Hq; apply H; right; exact Hq|].
    destruct (H p (or_introl eq_refl)) as (Hr & e & He & Hd).
    exists (e :: es). split.
    + cbn [mapM].
      assert (encode_ref_ari_of _encode_obj p = Ok e) as ->.
      { destruct p; try discriminate Hr. exact He. }
      cbn [bind]. rewrite IH1. reflexivity.
    + intros rest. unfold concat_bytes. cbn [List.length repeat_decode List.concat].
      rewrite <- app_assoc, Hd. cbn [bind]. unfold concat_bytes in IH2.
      rewrite IH2. reflexivity.
Qed.

Lemma ac_roundtrip l :
  (List.length l <= 31)%nat ->
  (forall p, In p l ->
     is_reference p = true /\
     exists e, _encode_obj p false = Ok e /\
       forall rest, _decode_ari f (e ++ rest) = Ok (p, rest)) ->
  exists head body,
    ac_head l = Ok head /\
    mapM (encode_ref_ari_of _encode_obj) l = Ok body /\
    forall rest,
      _decode_ac_items (S f) (head ++ concat_bytes body ++ rest) = Ok (l, rest).
Proof.
  intros Hlen Hit. destruct (items_roundtrip l Hit) as (es & Ees & Hd).
  destruct (ac_count _ Hlen) as [Hlor Hland].
  unfold ac_head. rewrite Hlor.
  destruct (Z.leb_spec (128 + Z.of_nat (List.length l)) 255); [|lia].
  exists [byte_of_Z (128 + Z.of_nat (List.length l))], es.
  repeat apply conj; [reflexivity | exact Ees |]. intros rest.
  cbn [List.app _decode_ac_items read_B bind].
  rewrite Z_of_byte_of_Z by lia. rewrite Hland, Nat2Z.id. apply Hd.
Qed.

End levels.

Lemma type_value_representable t :
  representable (PyInt (StructType.value t)) = true.
Proof. destruct t; reflexivity. Qed.

Lemma depth_items m l :
  (S (list_max (map nickname.depth l)) <= S m)%nat ->
  forall p, In p l -> (nickname.depth p <= m)%nat.
Proof.
  intros H p Hp. pose proof (depth_in p l Hp). lia.
Qed.

Lemma decode_obj_literal f t buf :
  LITERAL_TYPES t = true ->
  _decode_obj (S f) t buf
  = ('(item, buf) <- cbor2.decode buf ;; Ok (LiteralARI t item, buf)).
Proof. destruct t; try discriminate; reflexivity. Qed.

Lemma encode_literal_param t v :
  _encode_obj (LiteralARI t v) false = cbor2.encode v.
Proof.
  cbn [_encode_obj]. destruct (StructType.eqb t StructType.BSTR); [reflexivity|].
  cbn [bind]. destruct (cbor2.encode v); reflexivity.
Qed.

Lemma roundtrip_at_depth n : forall o,
  (nickname.depth o <= n)%nat -> cbor_roundtrips o = true ->
  exists enc,
    _encode_obj o false = Ok enc /\
    (forall fuel rest, (4 * n <= fuel)%nat ->
       _decode_obj fuel (param_type_enum o) (enc ++ rest) = Ok (o, rest)) /\
    (is_reference o = true ->
     forall fuel rest, (4 * n - 1 <= fuel)%nat ->
       _decode_ari fuel (enc ++ rest) = Ok (o, rest)).
Proof.
  induction n as [|m IH]; intros o Hd Hwf.
  { destruct o as [| ? [|]| | |]; cbn in Hd; lia. }
  destruct o as [t v | ident params | l | t l | l].
  - cbn [cbor_roundtrips] in Hwf.
    apply andb_prop in Hwf as [Hwf Hv]. apply andb_prop in Hwf as [Ht Hu].
    destruct (cbor2_facts.encode_representable _ Hv) as (e & He).
    exists e. rewrite encode_literal_param.
    repeat apply conj; [exact He | | discriminate].
    intros fuel rest Hf. destruct fuel as [|f]; [lia|].
    cbn [param_type_enum]. rewrite (decode_obj_literal _ _ _ Ht).
    rewrite (cbor2_facts.decode_encode _ _ _ Hv He). reflexivity.
  - cbn [cbor_roundtrips] in Hwf. apply andb_prop in Hwf as [Hid Hps].
    assert (Hbody : exists ps_enc,
      forall f, (4 * m <= f)%nat ->
        match params with
        | Some l =>
            encode_tnvc_body _encode_obj l = Ok ps_enc /\
            forall rest, _decode_tnvc (S f) (ps_enc ++ rest) = Ok (l, rest)
        | None => ps_enc = []
        end).
    { destruct params as [l|]; [|exists []; reflexivity].
      apply andb_prop in Hps as [Hlen Hall]. apply Z.leb_le in Hlen.
      rewrite forallb_forall in Hall. cbn [nickname.depth] in Hd.
      assert (Hit : forall f, (4 * m <= f)%nat -> forall p, In p l ->
        exists e, _encode_obj p false = Ok e /\
          forall rest, _decode_obj f (param_type_enum p) (e ++ rest)
                       = Ok (p, rest)).
      { intros f Hf p Hp.
        destruct (IH p (depth_items _ _ Hd p Hp) (Hall p Hp)) as (e & He & Ho & _).
        exists e. split; [exact He|]. intros rest. apply Ho. exact Hf. }
      assert (Hty : forall p, In p l ->
                0 <= StructType.value (param_type_enum p) < 256).
      { intros p Hp. apply param_type_range. apply Hall. exact Hp. }
      destruct (tnvc_roundtrip (4 * m) l Hlen Hty (Hit _ (Nat.le_refl _)))
        as (enc & Eenc & _).
      exists enc. intros f Hf.
      destruct (tnvc_roundtrip f l Hlen Hty (Hit _ Hf)) as (enc' & Eenc' & Hdec).
      assert (enc' = enc) by congruence. subst enc'. split; assumption. }
    destruct Hbody as (ps_enc & Hbody).
    destruct (ref_roundtrip (S (4 * m)) ident params ps_enc Hid
                (Hbody _ (Nat.le_refl _))) as (enc & Eenc & _).
    exists enc. cbn [_encode_obj]. split; [exact Eenc|].
    assert (Hari : forall fuel rest, (4 * S m - 1 <= fuel)%nat ->
              _decode_ari fuel (enc ++ rest)
              = Ok (ReferenceARI ident params, rest)).
    { intros fuel rest Hf.
      destruct fuel as [|[|f]]; [lia | lia |].
      destruct (ref_roundtrip (S f) ident params ps_enc Hid
                  (Hbody f ltac:(lia))) as (enc' & Eenc' & Hdec).
      assert (enc' = enc) by congruence. subst enc'. apply Hdec. }
    split; [|intros _; exact Hari].
    intros fuel rest Hf. destruct fuel as [|f]; [lia|].
    cbn [param_type_enum _decode_obj].
    change (StructType.eqb StructType.ARI StructType.ARI) with true. cbv iota.
    apply Hari. lia.
  - cbn [cbor_roundtrips] in Hwf. apply andb_prop in Hwf as [Hlen Hall].
    apply Nat.leb_le in Hlen. rewrite forallb_forall in Hall.
    cbn [nickname.depth] in Hd.
    assert (Hit : forall f, (4 * m - 1 <= f)%nat -> forall p, In p l ->
      is_reference p = true /\
      exists e, _encode_obj p false = Ok e /\
        forall rest, _decode_ari f (e ++ rest) = Ok (p, rest)).
    { intros f Hf p Hp. destruct (andb_prop _ _ (Hall p Hp)) as [Hr Hw].
      split; [exact Hr|].
      destruct (IH p (depth_items _ _ Hd p Hp) Hw) as (e & He & _ & Ha).
      exists e. split; [exact He|]. intros rest. apply Ha; assumption. }
    destruct (ac_roundtrip (4 * m) l Hlen (Hit (4 * m)%nat ltac:(lia)))
      as (head & body & Eh & Eb & _).
    exists (head ++ concat_bytes body). cbn [_encode_obj].
    rewrite Eh. cbn [bind]. rewrite Eb. cbn [bind].
    repeat apply conj; [reflexivity | | discriminate].
    intros fuel rest Hf. destruct fuel as [|[|f]]; [lia | lia |].
    destruct (ac_roundtrip f l Hlen (Hit f ltac:(lia)))
      as (head' & body' & Eh' & Eb' & Hdec).
    assert (head' = head) by congruence. assert (body' = body) by congruence.
    subst head' body'.
    cbn [param_type_enum _decode_obj].
    change (StructType.eqb StructType.AC StructType.ARI) with false.
    change (StructType.eqb StructType.AC StructType.AC) with true. cbv iota.
    rewrite <- app_assoc, Hdec. reflexivity.
  - cbn [cbor_roundtrips] in Hwf. apply andb_prop in Hwf as [Hlen Hall].
    apply Nat.leb_le in Hlen. rewrite forallb_forall in Hall.
    cbn [nickname.depth] in Hd.
    assert (Hit : forall f, (4 * m - 1 <= f)%nat -> forall p, In p l ->
      is_reference p = true /\
      exists e, _encode_obj p false = Ok e /\
        forall rest, _decode_ari f (e ++ rest) = Ok (p, rest)).
    { intros f Hf p Hp. destruct (andb_prop _ _ (Hall p Hp)) as [Hr Hw].
      split; [exact Hr|].
      destruct (IH p (depth_items _ _ Hd p Hp) Hw) as (e & He & _ & Ha).
      exists e. split; [exact He|]. intros rest. apply Ha; assumption. }
    destruct (ac_roundtrip (4 * m) l Hlen (Hit (4 * m)%nat ltac:(lia)))
      as (head & body & Eh & Eb & _).
    pose proof (type_value_representable t) as Hrep.
    destruct (cbor2_facts.encode_representable _ Hrep) as (ty & Ety).
    exists (ty ++ head ++ concat_bytes body). cbn [_encode_obj].
    rewrite Ety. cbn [bind]. rewrite Eh. cbn [bind]. rewrite Eb. cbn [bind].
    repeat apply conj; [reflexivity | | discriminate].
    intros fuel rest Hf. destruct fuel as [|[|f]]; [lia | lia |].
    destruct (ac_roundtrip f l Hlen (Hit f ltac:(lia)))
      as (head' & body' & Eh' & Eb' & Hdec).
    assert (head' = head) by congruence. assert (body' = body) by congruence.
    subst head' body'.
    cbn [param_type_enum _decode_obj].
    change (StructType.eqb StructType.EXPR StructType.ARI) with false.
    change (StructType.eqb StructType.EXPR StructType.AC) with false.
    change (StructType.eqb StructType.EXPR StructType.EXPR) with true. cbv iota.
    rewrite <- !app_assoc.
    rewrite (cbor2_facts.decode_encode _ _ _ Hrep Ety). cbn [bind as_int].
    rewrite of_value_value. cbn [bind]. rewrite Hdec. reflexivity.
  - discriminate Hwf.
Qed.

Lemma decode_ari_fuel_le f f' :
  (f <= f')%nat -> extends (_decode_ari f) (_decode_ari f').
Proof.
  induction 1 as [|f' _ IH]; intros buf H; [reflexivity|].
  rewrite <- (IH buf H). apply (proj1 (decode_fuel_S f')).
  rewrite (IH buf H). exact H.
Qed.

Lemma decode_with_fuel F buf o rest :
  _decode_ari F buf = Ok (o, rest) -> ari_cbor.Decoder.decode buf = Ok o.
Proof.
  intros H. unfold ari_cbor.Decoder.decode.
  pose proof (proj1 (decode_enough_fuel (fuel_for buf)) buf) as Hg.
  assert (Hn : _decode_ari (fuel_for buf) buf <> Raise OutOfFuel).
  { apply (good_no_fuel (List.length buf)). apply Hg. unfold fuel_for. lia. }
  pose proof (decode_ari_fuel_le (fuel_for buf) (fuel_for buf + F)
                ltac:(lia) buf Hn) as H1.
  destruct (Nat.le_gt_cases F (fuel_for buf)) as [Hle|Hgt].
  - rewrite (decode_ari_fuel_le F (fuel_for buf) Hle buf); [rewrite H; reflexivity|].
    rewrite H. discriminate.
  - rewrite <- (decode_ari_fuel_le (fuel_for buf) F ltac:(lia) buf Hn).
    rewrite H. reflexivity.
Qed.

(** X1.  A reference whose identity and parameters are of the forms the CBOR
    format keeps ([cbor_roundtrips]) is encoded without error, and decoding
    its encoding gives the reference back, whatever octets follow it. *)
Theorem cbor_reference_roundtrip (ident : Identity)
    (params : option (list obj)) :
  cbor_roundtrips (ReferenceARI ident params) = true ->
  exists enc,
    ari_cbor.Encoder.encode (ReferenceARI ident params) = Ok enc /\
    forall rest,
      ari_cbor.Decoder.decode (enc ++ rest) = Ok (ReferenceARI ident params).
Proof.
  intros Hwf.
  destruct (roundtrip_at_depth _ _ (Nat.le_refl _) Hwf) as (enc & He & _ & Ha).
  exists enc. split; [exact He|]. intros rest.
  apply (decode_with_fuel (4 * nickname.depth (ReferenceARI ident params))
                          _ _ rest).
  apply Ha; [reflexivity | lia].
Qed.

Lemma cbor_reference_roundtrip_witness :
  let ident :=
    mkIdentity (PyStr "IANA:amp_agent") StructType.CTRL (PyStr "gen_rpts")
               PyNone PyNone in
  let params :=
    Some [AC [ReferenceARI
                (mkIdentity (PyInt 405) StructType.RPTT (PyBytes [x00])
                            PyNone PyNone) (Some [])];
          LiteralARI StructType.UINT (PyInt 7);
          LiteralARI StructType.BSTR (PyBytes [x01; x02])] in
  cbor_roundtrips (ReferenceARI ident params) = true /\
  exists enc,
    ari_cbor.Encoder.encode (ReferenceARI ident params) = Ok enc /\
    forall rest,
      ari_cbor.Decoder.decode (enc ++ rest) = Ok (ReferenceARI ident params).
Proof.
  split; [reflexivity|].
  apply (cbor_reference_roundtrip
           (mkIdentity (PyStr "IANA:amp_agent") StructType.CTRL
                       (PyStr "gen_rpts") PyNone PyNone)).
  reflexivity.
Defined.

(** X2.  Whatever [Decoder.decode] returns is a literal of a type from BOOL to
    REAL64 or a reference; inside it there is no TNVC, every literal has a
    literal type, and every reference has an object type from CONST to VAR, a
    name that is a text or a byte string that is not printable, and an issuer
    and a tag that are byte strings or None. *)
Theorem cbor_decoder_output_form (buf : list byte) (o : obj) :
  ari_cbor.Decoder.decode buf = Ok o ->
  decoded_top o = true /\ decoded_form o = true.
Proof.
  unfold ari_cbor.Decoder.decode. intros H.
  destruct (_decode_ari (fuel_for buf) buf) as [[res rest]|e] eqn:E.
  - injection H as <-. apply (proj1 (decode_forms _)) in E.
    split; apply E.
  - destruct e; discriminate H.
Qed.

Lemma cbor_decoder_output_form_witness :
  exists o,
    ari_cbor.Decoder.decode
      [xc1; x15; x41; x05; x05; x02; x25; x23; x81; x87; x18; x19; x41; x00;
       x00] = Ok o /\
    decoded_top o = true /\ decoded_form o = true.
Proof.
  eexists. split; [vm_compute; reflexivity|].
  apply (cbor_decoder_output_form
           [xc1; x15; x41; x05; x05; x02; x25; x23; x81; x87; x18; x19; x41;
            x00; x00]).
  vm_compute. reflexivity.
Defined.



End cbor_more.

(** ** The nickname converter: what a conversion writes *)

Section nickname_more.
Import ari nickname.



Lemma col_eq_int_true col v : models.col_eq_int col v = true -> col = Some v.
Proof.
  destruct col as [s|]; cbn; [|discriminate].
  intros H. apply Z.eqb_eq in H. congruence.
Qed.




Lemma AdmObjType_of_value_ok k :
  0 <= k <= 10 -> exists nn, AdmObjType.of_value k = Ok nn.
Proof.
  intros H.
  assert (k = 0 \/ k = 1 \/ k = 2 \/ k = 3 \/ k = 4 \/ k = 5 \/ k = 6 \/ k = 7
          \/ k = 8 \/ k = 9 \/ k = 10) as Hk by lia.
  repeat (destruct Hk as [-> | Hk]; [eexists; reflexivity|]).
  subst. eexists; reflexivity.
Qed.

Lemma from_nn_lookup_found (self : Converter) (ident : Identity) (nn e : Z)
    (b : list byte) (v : pyval) adm c child :
  ident.(name) = PyBytes b ->
  cbor2.loads b = Ok v -> as_int v = Some e ->
  0 <= nn mod 20 <= 10 ->
  AdmSet.get_by_enum self.(_adms) (nn / 20) = Ok adm ->
  ORM_TYPE ident.(type_enum) = Ok c ->
  AdmSet.get_child self.(_adms) adm c PyNone (Some e) = Ok child ->
  from_nn_lookup self ident nn = Ok (adm, child).
Proof.
  intros Hname Hloads Hint Hmod Hadm Horm Hchild.
  unfold from_nn_lookup.
  destruct (AdmObjType_of_value_ok _ Hmod) as (k & ->). cbn [bind].
  rewrite Hname, Hloads. cbn [bind]. rewrite Hint. cbn [bind].
  rewrite Hadm. cbn [bind]. rewrite Horm. cbn [bind]. rewrite Hchild.
  reflexivity.
Qed.

Lemma convert_from_nn_found
    (self : Converter) (ident : Identity) (params : option (list obj))
    (nn e : Z) (b : list byte)
    (adm : models.AdmFile) (c : models.cls) (child : models.AdmObj) :
  self.(_mode) = FROM_NN ->
  ident.(namespace) = PyInt nn ->
  ident.(name) = PyBytes b ->
  cbor2.loads b = Ok (PyInt e) ->
  0 <= nn mod 20 <= 10 ->
  AdmSet.get_by_enum self.(_adms) (nn / 20) = Ok adm ->
  ORM_TYPE ident.(type_enum) = Ok c ->
  AdmSet.get_child self.(_adms) adm c PyNone (Some e) = Ok (Some child) ->
  _convert_ari self ident params
  = mkMutated (from_nn_ident ident adm child, params) None.
Proof.
  intros Hmode Hns Hname Hloads Hmod Hadm Horm Hchild.
  unfold _convert_ari. rewrite Hmode, Hns. cbn [as_int].
  rewrite (from_nn_lookup_found self ident nn e b (PyInt e) adm c (Some child));
    auto.
Qed.

(** X4.  In FROM_NN mode a reference with an integer namespace [nn] and a name
    that is the CBOR form of an integer [e] is rewritten in place: the
    namespace becomes the text IANA: followed by the normalized name of the ADM
    with enumeration [nn // 20], the name becomes the normalized name of the
    object with enumeration [e], looked up in the class of the type of the
    reference; the type, issuer, tag and parameters stay. *)
Theorem from_nn_rewrites_reference
    (self : Converter) (ident : Identity) (params : option (list obj))
    (nn e : Z) (b : list byte)
    (adm : models.AdmFile) (c : models.cls) (child : models.AdmObj) :
  self.(_mode) = FROM_NN ->
  ident.(namespace) = PyInt nn ->
  ident.(name) = PyBytes b ->
  cbor2.loads b = Ok (PyInt e) ->
  0 <= nn mod 20 <= 10 ->
  AdmSet.get_by_enum self.(_adms) (nn / 20) = Ok adm ->
  ORM_TYPE ident.(type_enum) = Ok c ->
  AdmSet.get_child self.(_adms) adm c PyNone (Some e) = Ok (Some child) ->
  _convert_ari self ident params
  = mkMutated (from_nn_ident ident adm child, params) None.
Proof. exact (convert_from_nn_found self ident params nn e b adm c child). Qed.

Lemma from_nn_rewrites_reference_witness :
  _convert_ari (mkConverter FROM_NN sample_catalog false)
    (mkIdentity (PyInt 405) StructType.RPTT (PyBytes [x00]) PyNone PyNone)
    (Some [])
  = mkMutated
      (mkIdentity (PyStr "IANA:amp_agent") StructType.RPTT
                  (PyStr "full_report") PyNone PyNone, Some []) None.
Proof.
  apply (from_nn_rewrites_reference
           (mkConverter FROM_NN sample_catalog false)
           (mkIdentity (PyInt 405) StructType.RPTT (PyBytes [x00])
                       PyNone PyNone)
           (Some []) 405 0 [x00] sample_adm models.RpttCls
           (models.ARptt
              (models.mkRptt
                 (models.mkAdmObj (Some "full_report"%string) None
                                  (Some "full_report"%string) (Some 0))
                 None None)));
    try reflexivity.
  vm_compute. split; congruence.
Defined.

(** X5.  In FROM_NN mode, when the ADM is found but has no object of the
    class with the enumeration in the name, the conversion stops with
    AttributeError after the namespace was rewritten: the reference is left
    with a text namespace and its encoded name. *)
Theorem from_nn_unknown_object_half_rewrites
    (self : Converter) (ident : Identity) (params : option (list obj))
    (nn e : Z) (b : list byte) (adm : models.AdmFile) (c : models.cls) :
  self.(_mode) = FROM_NN ->
  ident.(namespace) = PyInt nn ->
  ident.(name) = PyBytes b ->
  cbor2.loads b = Ok (PyInt e) ->
  0 <= nn mod 20 <= 10 ->
  AdmSet.get_by_enum self.(_adms) (nn / 20) = Ok adm ->
  ORM_TYPE ident.(type_enum) = Ok c ->
  AdmSet.get_child self.(_adms) adm c PyNone (Some e) = Ok None ->
  _convert_ari self ident params
  = mkMutated
      (mkIdentity (PyStr ("IANA:" ++ opt_str adm.(models.adm_norm_name)))
                  ident.(type_enum) (PyBytes b) ident.(issuer) ident.(tag),
       params)
      (Some AttributeError).
Proof.
  intros Hmode Hns Hname Hloads Hmod Hadm Horm Hchild.
  unfold _convert_ari. rewrite Hmode, Hns. cbn [as_int].
  rewrite (from_nn_lookup_found self ident nn e b (PyInt e) adm c None); auto.
  rewrite Hname. reflexivity.
Qed.

Lemma from_nn_unknown_object_half_rewrites_witness :
  _convert_ari (mkConverter FROM_NN sample_catalog false)
    (mkIdentity (PyInt 405) StructType.RPTT (PyBytes [x07]) PyNone PyNone)
    None
  = mkMutated
      (mkIdentity (PyStr "IANA:amp_agent") StructType.RPTT (PyBytes [x07])
                  PyNone PyNone, None)
      (Some AttributeError).
Proof.
  apply (from_nn_unknown_object_half_rewrites
           (mkConverter FROM_NN sample_catalog false)
           (mkIdentity (PyInt 405) StructType.RPTT (PyBytes [x07])
                       PyNone PyNone)
           None 405 7 [x07] sample_adm models.RpttCls);
    try reflexivity.
  vm_compute. split; congruence.
Defined.




(** X7.  In TO_NN mode, when the ADM of the namespace is in the catalog but
    has no object of that class and name, the reference is left as it is:
    without error when [must_nickname] is false, with RuntimeError when it is
    true. *)
Theorem to_nn_unknown_object
    (self : Converter) (ident : Identity) (params : option (list obj))
    (ns adm_name : string) (kind : Z) (adm : models.AdmFile)
    (c : models.cls) :
  self.(_mode) = TO_NN ->
  ident.(namespace) = PyStr ns ->
  split_colon_1 ns = Ok adm_name ->
  nick_kind ident.(type_enum) = Some kind ->
  AdmSet.get_by_norm_name self.(_adms) adm_name = Ok adm ->
  ORM_TYPE ident.(type_enum) = Ok c ->
  AdmSet.get_child self.(_adms) adm c ident.(name) None = Ok None ->
  _convert_ari self ident params
  = mkMutated (ident, params)
              (if self.(_must) then Some RuntimeError else None).
Proof.
  intros Hmode Hns Hsplit Hkind Hadm Horm Hchild.
  destruct (nick_kind_AdmObjType _ _ Hkind) as (nn & Hnn & Hval).
  unfold _convert_ari. rewrite Hmode, Hns.
  unfold to_nn_lookup. rewrite Hsplit. cbn [bind].
  rewrite Hadm. cbn [bind]. rewrite Hnn. cbn [bind]. rewrite Horm. cbn [bind].
  rewrite Hchild. cbn [bind].
  destruct (models.adm_enum adm), (_must self); reflexivity.
Qed.

Lemma to_nn_unknown_object_witness :
  _convert_ari (mkConverter TO_NN sample_catalog false)
    (mkIdentity (PyStr "IANA:amp_agent") StructType.RPTT (PyStr "other")
                PyNone PyNone) None
  = mkMutated
      (mkIdentity (PyStr "IANA:amp_agent") StructType.RPTT (PyStr "other")
                  PyNone PyNone, None) None.
Proof.
  apply (to_nn_unknown_object (mkConverter TO_NN sample_catalog false)
           (mkIdentity (PyStr "IANA:amp_agent") StructType.RPTT (PyStr "other")
                       PyNone PyNone)
           None "IANA:amp_agent" "amp_agent" 5 sample_adm models.RpttCls);
    reflexivity.
Defined.

Lemma rewrap_params_None specs : forall ix,
  existsb declares_TNVC specs = true ->
  rewrap_params specs ix None = mkMutated None (Some TypeError).
Proof.
  induction specs as [|spec specs IH]; intros ix H; [discriminate|].
  cbn [rewrap_params]. cbn [existsb] in H. unfold declares_TNVC in H at 1.
  destruct (models.col_eq_str (models.tn_type spec) "TNVC"); [reflexivity|].
  apply IH. exact H.
Qed.

Lemma nth_error_replace {A} (l : list A) k x ix :
  (k < List.length l)%nat ->
  nth_error (firstn k l ++ x :: skipn (S k) l) ix
  = if (ix =? k)%nat then Some x else nth_error l ix.
Proof.
  revert k ix. induction l as [|y l IH]; intros k ix Hk; [cbn in Hk; lia|].
  destruct k as [|k].
  - destruct ix; reflexivity.
  - cbn [firstn skipn List.app]. destruct ix as [|ix]; [reflexivity|].
    cbn [nth_error]. rewrite IH by (cbn in Hk; lia). reflexivity.
Qed.

Lemma length_replace {A} (l : list A) k x :
  (k < List.length l)%nat ->
  List.length (firstn k l ++ x :: skipn (S k) l) = List.length l.
Proof.
  intros Hk. rewrite length_app. cbn [List.length].
  rewrite length_firstn, length_skipn. lia.
Qed.

Lemma rewrap_params_Some specs : forall k l,
  (k + List.length specs <= List.length l)%nat ->
  (forall j spec p,
     nth_error specs j = Some spec -> declares_TNVC spec = true ->
     nth_error l (k + j) = Some p -> as_TNVC p <> None) ->
  exists l',
    rewrap_params specs k (Some l) = mkMutated (Some l') None /\
    List.length l' = List.length l /\
    forall ix,
      nth_error l' ix
      = if (ix <? k)%nat then nth_error l ix
        else match nth_error specs (ix - k), nth_error l ix with
             | Some spec, Some p =>
                 if declares_TNVC spec then as_TNVC p else Some p
             | _, p => p
             end.
Proof.
  induction specs as [|spec specs IH]; intros k l Hlen Hok.
  - exists l. repeat apply conj; [reflexivity | reflexivity |].
    intros ix. destruct (ix <? k)%nat; [reflexivity|].
    destruct (ix - k)%nat; reflexivity.
  - cbn [List.length] in Hlen. cbn [rewrap_params].
    fold (declares_TNVC spec).
    destruct (declares_TNVC spec) eqn:Hd.
    + destruct (nth_error l k) as [p|] eqn:Ep.
      2:{ apply nth_error_None in Ep. lia. }
      assert (Hp : as_TNVC p <> None).
      { apply (Hok 0%nat spec p); [reflexivity | exact Hd |].
        rewrite Nat.add_0_r. exact Ep. }
      unfold rewrap_param. rewrite Ep.
      assert (Hk : (k < List.length l)%nat) by lia.
      assert (Hstep : exists items,
        as_TNVC p = Some (TNVC items) /\
        match p with
        | AC items | EXPR _ items | TNVC items =>
            mkMutated (Some (firstn k l ++ TNVC items :: skipn (S k) l)) None
        | _ => mkMutated (Some l) (Some AttributeError)
        end = mkMutated (Some (firstn k l ++ TNVC items :: skipn (S k) l))
                        None).
      { destruct p; try (exfalso; apply Hp; reflexivity);
          (eexists; split; reflexivity). }
      destruct Hstep as (items & Hitems & ->). cbn [raised now].
      destruct (IH (S k) (firstn k l ++ TNVC items :: skipn (S k) l))
        as (l' & Hl' & Hlen' & Hnth).
      * rewrite length_replace by exact Hk. lia.
      * intros j spec' p' Hj Hd' Hp'. rewrite nth_error_replace in Hp' by exact Hk.
        destruct (Nat.eqb_spec (S k + j) k); [lia|].
        apply (Hok (S j) spec' p'); [exact Hj | exact Hd' |].
        rewrite <- Hp'. f_equal. lia.
      * exists l'. repeat apply conj; [exact Hl' | |].
        { rewrite Hlen'. apply length_replace. exact Hk. }
        intros ix. rewrite Hnth, nth_error_replace by exact Hk.
        destruct (Nat.ltb_spec ix (S k)), (Nat.ltb_spec ix k),
          (Nat.eqb_spec ix k); try lia; try reflexivity.
        -- subst ix. rewrite Nat.sub_diag. cbn [nth_error]. rewrite Ep, Hd.
           symmetry. exact Hitems.
        -- replace (ix - k)%nat with (S (ix - S k)) by lia. reflexivity.
    + destruct (IH (S k) l) as (l' & Hl' & Hlen' & Hnth).
      * lia.
      * intros j spec' p' Hj Hd' Hp'. apply (Hok (S j) spec' p');
          [exact Hj | exact Hd' |]. rewrite <- Hp'. f_equal. lia.
      * exists l'. repeat apply conj; [exact Hl' | exact Hlen' |].
        intros ix. rewrite Hnth.
        destruct (Nat.ltb_spec ix (S k)), (Nat.ltb_spec ix k);
          try lia; try reflexivity.
        -- assert (ix = k) by lia. subst ix. rewrite Nat.sub_diag.
           cbn [nth_error]. rewrite Hd. destruct (nth_error l k); reflexivity.
        -- replace (ix - k)%nat with (S (ix - S k)) by lia. reflexivity.
Qed.

(** X8.  TO_NN conversion of a reference without a parameter list to an
    object whose parameter specification declares a TNVC raises TypeError,
    after the namespace and the name were rewritten. *)
Theorem to_nn_TNVC_without_params
    (self : Converter) (ident : Identity) (ns : string) (nn obj_enum : Z)
    (child : models.AdmObj) (spec : models.TypeNameList) :
  self.(_mode) = TO_NN ->
  ident.(namespace) = PyStr ns ->
  to_nn_lookup self ident ns = Ok (Some (nn, obj_enum, child)) ->
  models.parmspec child = Some spec ->
  existsb declares_TNVC spec.(models.tn_items) = true ->
  let m := _convert_ari self ident None in
  raised m = Some TypeError /\
  (fst (now m)).(namespace) = PyInt nn /\
  (fst (now m)).(name) = PyBytes (cbor2.encode_int obj_enum) /\
  snd (now m) = None.
Proof.
  intros Hmode Hns Hlook Hspec Hex m. subst m.
  unfold _convert_ari. rewrite Hmode, Hns, Hlook.
  unfold cbor2.dumps, cbor2.encode. rewrite Hspec.
  rewrite rewrap_params_None by exact Hex.
  repeat split; reflexivity.
Qed.

(** X9.  TO_NN conversion of a reference with parameters: when every
    parameter at a position that the parameter specification of the object
    declares as TNVC is an AC, EXPR or TNVC, the conversion does not raise,
    the parameter list keeps its length, the parameters at those positions
    become TNVC objects of the same items, and the other parameters stay. *)
Theorem to_nn_rewraps_TNVC_parameters
    (self : Converter) (ident : Identity) (l : list obj) (ns : string)
    (nn obj_enum : Z) (child : models.AdmObj) (spec : models.TypeNameList) :
  self.(_mode) = TO_NN ->
  ident.(namespace) = PyStr ns ->
  to_nn_lookup self ident ns = Ok (Some (nn, obj_enum, child)) ->
  models.parmspec child = Some spec ->
  (List.length spec.(models.tn_items) <= List.length l)%nat ->
  (forall ix s p,
     nth_error spec.(models.tn_items) ix = Some s -> declares_TNVC s = true ->
     nth_error l ix = Some p -> as_TNVC p <> None) ->
  exists l',
    snd (now (_convert_ari self ident (Some l))) = Some l' /\
    raised (_convert_ari self ident (Some l)) = None /\
    List.length l' = List.length l /\
    forall ix, nth_error l' ix = rewrapped_at spec.(models.tn_items) l ix.
Proof.
  intros Hmode Hns Hlook Hspec Hlen Hok.
  destruct (rewrap_params_Some spec.(models.tn_items) 0 l Hlen Hok)
    as (l' & Hl' & Hlen' & Hnth).
  exists l'. unfold _convert_ari. rewrite Hmode, Hns, Hlook.
  unfold cbor2.dumps, cbor2.encode. rewrite Hspec, Hl'.
  repeat apply conj; [reflexivity | reflexivity | exact Hlen' |].
  intros ix. rewrite Hnth. unfold rewrapped_at.
  change (ix <? 0)%nat with false. cbv iota. rewrite Nat.sub_0_r. reflexivity.
Qed.

Lemma to_nn_TNVC_without_params_witness :
  let m := _convert_ari (mkConverter TO_NN agent_catalog false)
                        gen_rpts_ident None in
  raised m = Some TypeError /\
  (fst (now m)).(namespace) = PyInt 401 /\
  (fst (now m)).(name) = PyBytes [x03] /\
  snd (now m) = None.
Proof.
  apply (to_nn_TNVC_without_params (mkConverter TO_NN agent_catalog false)
           gen_rpts_ident "IANA:amp_agent" 401 3
           (models.ACtrl gen_rpts_ctrl)
           (models.mkTypeNameList
              [models.mkTypeNameItem (Some "AC"%string) (Some "ids"%string);
               models.mkTypeNameItem (Some "TNVC"%string)
                                     (Some "rxmgrs"%string)]));
    reflexivity.
Defined.

Lemma to_nn_rewraps_TNVC_parameters_witness :
  exists l',
    snd (now (_convert_ari (mkConverter TO_NN agent_catalog false)
                gen_rpts_ident
                (Some [AC []; AC [LiteralARI StructType.VAST (PyInt 1)]])))
    = Some l' /\
    raised (_convert_ari (mkConverter TO_NN agent_catalog false)
              gen_rpts_ident
              (Some [AC []; AC [LiteralARI StructType.VAST (PyInt 1)]]))
    = None /\
    List.length l' = 2%nat /\
    forall ix,
      nth_error l' ix
      = rewrapped_at
          [models.mkTypeNameItem (Some "AC"%string) (Some "ids"%string);
           models.mkTypeNameItem (Some "TNVC"%string) (Some "rxmgrs"%string)]
          [AC []; AC [LiteralARI StructType.VAST (PyInt 1)]] ix.
Proof.
  apply (to_nn_rewraps_TNVC_parameters
           (mkConverter TO_NN agent_catalog false) gen_rpts_ident
           [AC []; AC [LiteralARI StructType.VAST (PyInt 1)]]
           "IANA:amp_agent" 401 3 (models.ACtrl gen_rpts_ctrl)
           (models.mkTypeNameList
              [models.mkTypeNameItem (Some "AC"%string) (Some "ids"%string);
               models.mkTypeNameItem (Some "TNVC"%string)
                                     (Some "rxmgrs"%string)]));
    try reflexivity.
  intros [|[|ix]] s p Hs Hd Hp; cbn in Hs, Hp.
  - injection Hs as <-. discriminate Hd.
  - injection Hp as <-. discriminate.
  - destruct ix; discriminate Hs.
Defined.

End nickname_more.

(** ** The nickname converter: what every conversion keeps *)

Section nickname_leaves.
Import ari nickname.

Lemma nth_error_middle {A} (l : list A) : forall ix x,
  nth_error l ix = Some x -> l = firstn ix l ++ x :: skipn (S ix) l.
Proof.
  induction l as [|a l IH]; intros [|ix] x H; try discriminate H.
  - injection H as ->. reflexivity.
  - cbn [firstn skipn List.app]. f_equal. apply IH. exact H.
Qed.

Lemma rewrap_param_leaves params ix :
  leaves_of_params (now (rewrap_param params ix)) = leaves_of_params params.
Proof.
  unfold rewrap_param. destruct params as [l|]; [|reflexivity].
  destruct (nth_error l ix) as [x|] eqn:E; [|reflexivity].
  destruct x as [| |items|t items|items]; try reflexivity.
  all: cbn [now leaves_of_params].
  all: rewrite (nth_error_middle l ix _ E) at 3.
  all: rewrite !flat_map_app; reflexivity.
Qed.

Lemma rewrap_params_leaves specs : forall ix params,
  leaves_of_params (now (rewrap_params specs ix params))
  = leaves_of_params params.
Proof.
  induction specs as [|spec specs IH]; intros ix params; [reflexivity|].
  cbn [rewrap_params].
  destruct (models.col_eq_str (models.tn_type spec) "TNVC"); [|apply IH].
  destruct (raised (rewrap_param params ix)) eqn:E.
  - apply rewrap_param_leaves.
  - rewrite IH. apply rewrap_param_leaves.
Qed.

Lemma convert_ari_leaves self ident params :
  let m := _convert_ari self ident params in
  (fst (now m)).(type_enum) = ident.(type_enum) /\
  (fst (now m)).(issuer) = ident.(issuer) /\
  (fst (now m)).(tag) = ident.(tag) /\
  leaves_of_params (snd (now m)) = leaves_of_params params.
Proof.
  unfold _convert_ari.
  destruct (_mode self), (namespace ident) as [|b|n|s|b];
    try (repeat split; reflexivity).
  - destruct (to_nn_lookup self ident s) as [[[[nn obj_enum] child]|]|e];
      try (repeat split; reflexivity).
    destruct (cbor2.dumps (PyInt obj_enum)); try (repeat split; reflexivity).
    destruct (models.parmspec child); try (repeat split; reflexivity).
    cbn [now fst snd type_enum issuer tag]. repeat split.
    apply rewrap_params_leaves.
  - destruct (as_int (PyBool b)); try (repeat split; reflexivity).
    destruct (from_nn_lookup self ident z) as [[adm [child|]]|e];
      repeat split; reflexivity.
  - destruct (as_int (PyInt n)); try (repeat split; reflexivity).
    destruct (from_nn_lookup self ident z) as [[adm [child|]]|e];
      repeat split; reflexivity.
Qed.

Lemma call_items_leaves (f : obj -> mutated obj) items :
  (forall item, leaves (now (f item)) = leaves item) ->
  flat_map leaves (now (call_items f items)) = flat_map leaves items.
Proof.
  intros Hf. induction items as [|item rest IH]; [reflexivity|].
  cbn [call_items]. destruct (raised (f item));
    cbn [now flat_map]; rewrite Hf; [reflexivity|]. rewrite IH. reflexivity.
Qed.

Lemma call_leaves self fuel : forall o,
  leaves (now (call self fuel o)) = leaves o.
Proof.
  induction fuel as [|fuel IH]; intros o; [reflexivity|].
  cbn [call]. destruct o as [t v|ident params|items|t items|items].
  - reflexivity.
  - pose proof (convert_ari_leaves self ident params) as H. cbv zeta in H.
    destruct (now (_convert_ari self ident params)) as [ident' params'].
    cbn [fst snd] in H. destruct H as (Ht & Hi & Hg & Hp).
    destruct (raised (_convert_ari self ident params)).
    + cbn [now leaves]. rewrite Ht, Hi, Hg. f_equal. exact Hp.
    + destruct params' as [[|p ps]|]; cbn [now leaves];
        rewrite Ht, Hi, Hg; f_equal; try exact Hp.
      rewrite (call_items_leaves _ _ IH). exact Hp.
  - cbn [now leaves]. apply call_items_leaves, IH.
  - cbn [now leaves]. apply call_items_leaves, IH.
  - cbn [now leaves]. apply call_items_leaves, IH.
Qed.

(** X22.  A nickname conversion, in either mode and whether it ends with an
    exception or not, keeps the leaves of the object: the literals with their
    types and values, and the type, issuer and tag of every reference, in the
    same order; it adds none and drops none. *)
Theorem nickname_keeps_leaves (self : Converter) :
  (forall o, leaves (now (__call__ self o)) = leaves o) /\
  (forall ident params,
     let m := _convert_ari self ident params in
     (fst (now m)).(type_enum) = ident.(type_enum) /\
     (fst (now m)).(issuer) = ident.(issuer) /\
     (fst (now m)).(tag) = ident.(tag) /\
     leaves_of_params (snd (now m)) = leaves_of_params params).
Proof.
  split.
  - intros o. apply call_leaves.
  - apply convert_ari_leaves.
Qed.

End nickname_leaves.

(** ** The constraints: when they pass, what they report *)

Section constraint_more.
Import models constraints.
Local Open Scope string_scope.

Lemma opt_eqb_string_spec (x y : option string) :
  basic.opt_eqb String.eqb x y = true <-> x = y.
Proof.
  destruct x as [a|], y as [b|]; cbn; try (split; congruence).
  rewrite String.eqb_eq. split; congruence.
Qed.

Lemma opt_eqb_Z_spec (x y : option Z) :
  basic.opt_eqb Z.eqb x y = true <-> x = y.
Proof.
  destruct x as [a|], y as [b|]; cbn; try (split; congruence).
  rewrite Z.eqb_eq. split; congruence.
Qed.

Section with_eqb.
Context {K : Type} (eqb : K -> K -> bool).
Hypothesis eqb_spec : forall x y, eqb x y = true <-> x = y.

Lemma existsb_eqb_In k l : existsb (eqb k) l = true <-> In k l.
Proof.
  rewrite existsb_exists. split.
  - intros (x & Hx & E). apply eqb_spec in E. subst. exact Hx.
  - intros H. exists k. split; [exact H | apply eqb_spec; reflexivity].
Qed.

Lemma existsb_eqb_not_In k l : existsb (eqb k) l = false <-> ~ In k l.
Proof.
  rewrite <- existsb_eqb_In. destruct (existsb (eqb k) l); split;
    congruence.
Qed.

Lemma count_of_In k l : (0 < basic.count_of eqb k l)%nat <-> In k l.
Proof.
  unfold basic.count_of. induction l as [|x l IH]; cbn [filter List.length In].
  - split; [lia | tauto].
  - destruct (eqb k x) eqn:E.
    + apply eqb_spec in E. subst. cbn [List.length]. split; [auto | lia].
    + rewrite IH. split; [auto|]. intros [->|H]; [|exact H].
      assert (eqb k k = true) by (apply eqb_spec; reflexivity). congruence.
Qed.

Lemma NoDup_count_of l :
  NoDup l <-> forall k, In k l -> (basic.count_of eqb k l <= 1)%nat.
Proof.
  induction l as [|x l IH].
  - split; [intros _ k [] | constructor].
  - split.
    + intros Hnd k Hk. inversion Hnd as [|? ? Hx Hl]; subst.
      unfold basic.count_of. cbn [filter]. destruct (eqb k x) eqn:E.
      * apply eqb_spec in E. subst. cbn [List.length].
        assert (~ (0 < basic.count_of eqb x l)%nat) by (rewrite count_of_In; exact Hx).
        unfold basic.count_of in *. lia.
      * destruct Hk as [->|Hk].
        -- assert (eqb k k = true) by (apply eqb_spec; reflexivity). congruence.
        -- apply (proj1 IH Hl k Hk).
    + intros H. constructor.
      * intros Hx. specialize (H x (or_introl eq_refl)).
        apply count_of_In in Hx. unfold basic.count_of in *. cbn [filter] in H.
        assert (eqb x x = true) as E by (apply eqb_spec; reflexivity).
        rewrite E in H. cbn [List.length] in H. lia.
      * apply IH. intros k Hk. specialize (H k (or_intror Hk)).
        unfold basic.count_of in *. cbn [filter] in H.
        destruct (eqb k x); cbn [List.length] in H; lia.
Qed.

Lemma duplicated_In all : forall keys seen k,
  In k (basic.duplicated eqb seen keys all) <->
  In k keys /\ ~ In k seen /\ (1 < basic.count_of eqb k all)%nat.
Proof.
  induction keys as [|x keys IH]; intros seen k; cbn [basic.duplicated In].
  - tauto.
  - destruct (existsb (eqb x) seen) eqn:Es.
    + apply existsb_eqb_In in Es. rewrite IH. split.
      * intros (H1 & H2 & H3). auto.
      * intros ([->|H1] & H2 & H3); [contradiction | auto].
    + apply existsb_eqb_not_In in Es.
      destruct (Nat.ltb_spec 1 (basic.count_of eqb x all)).
      * cbn [In]. rewrite IH. cbn [In]. split.
        -- intros [->|(H1 & H2 & H3)]; [auto|]. repeat split; auto.
        -- intros ([->|H1] & H2 & H3); [auto|].
           destruct (eqb x k) eqn:E.
           ++ apply eqb_spec in E. auto.
           ++ right. repeat split; auto. intros [->|Hs]; [|contradiction].
              assert (eqb k k = true) by (apply eqb_spec; reflexivity).
              congruence.
      * rewrite IH. cbn [In]. split.
        -- intros (H1 & H2 & H3). repeat split; auto.
        -- intros ([->|H1] & H2 & H3); [lia|]. repeat split; auto.
           intros [->|Hs]; [lia | contradiction].
Qed.

Lemma duplicated_nil keys : basic.duplicated eqb [] keys keys = [] <-> NoDup keys.
Proof.
  rewrite NoDup_count_of. split.
  - intros H k Hk. destruct (Nat.le_gt_cases (basic.count_of eqb k keys) 1) as [|Hgt];
      [assumption|].
    assert (In k (basic.duplicated eqb [] keys keys)).
    { apply duplicated_In. repeat split; auto. }
    rewrite H in *. contradiction.
  - intros H. destruct (basic.duplicated eqb [] keys keys) as [|k l] eqn:E;
      [reflexivity|].
    assert (Hin : In k (basic.duplicated eqb [] keys keys))
      by (rewrite E; left; reflexivity).
    apply duplicated_In in Hin as (H1 & _ & H3). specialize (H k H1). lia.
Qed.
End with_eqb.

Lemma flat_map_nil {A B} (f : A -> list B) l :
  flat_map f l = [] <-> forall x, In x l -> f x = [].
Proof.
  induction l as [|x l IH]; cbn [flat_map In].
  - split; [intros _ x [] | reflexivity].
  - split.
    + intros H. apply app_eq_nil in H as [H1 H2]. intros y [<-|Hy]; [exact H1|].
      apply IH; assumption.
    + intros H. rewrite (H x (or_introl eq_refl)). apply IH.
      intros y Hy. apply H. right. exact Hy.
Qed.

Lemma multiple_adms_nil {K} (eqb : K -> K -> bool) to_py column attr db_sess :
  (forall x y, eqb x y = true <-> x = y) ->
  basic.multiple_adms eqb to_py column attr db_sess = [] <->
  NoDup (map attr db_sess.(admfiles)).
Proof.
  intros Hspec. unfold basic.multiple_adms.
  rewrite <- (duplicated_nil eqb Hspec). rewrite flat_map_nil. split.
  - intros H.
    destruct (basic.duplicated eqb [] _ _) as [|k l] eqn:E; [reflexivity|].
    exfalso. specialize (H k (or_introl eq_refl)).
    assert (Hin : In k (basic.duplicated eqb [] (map attr (admfiles db_sess))
                          (map attr (admfiles db_sess))))
      by (rewrite E; left; reflexivity).
    apply (duplicated_In eqb Hspec) in Hin as (H1 & _ & _).
    apply in_map_iff in H1 as (adm & <- & Hadm).
    assert (Hf : In adm (filter (fun a => eqb (attr a) (attr adm))
                                (admfiles db_sess))).
    { apply filter_In. split; [exact Hadm | apply Hspec; reflexivity]. }
    destruct (filter _ _); [contradiction | discriminate H].
  - intros -> x [].
Qed.

(** X10.  [unique_adm_names] reports nothing exactly when no two ADMs of the
    session have the same normalized name, the same normalized namespace or
    the same enumeration (a missing value counts as a value). *)
Theorem unique_adm_names_iff_distinct (obj : subject) (db_sess : Session) :
  basic.unique_adm_names obj db_sess = Ok ([], 3) <->
  NoDup (map adm_norm_name db_sess.(admfiles)) /\
  NoDup (map norm_namespace db_sess.(admfiles)) /\
  NoDup (map adm_enum db_sess.(admfiles)).
Proof.
  unfold basic.unique_adm_names.
  rewrite <- (multiple_adms_nil (basic.opt_eqb String.eqb) basic.py_of_str
                "norm_name" adm_norm_name db_sess opt_eqb_string_spec).
  rewrite <- (multiple_adms_nil (basic.opt_eqb String.eqb) basic.py_of_str
                "norm_namespace" norm_namespace db_sess opt_eqb_string_spec).
  rewrite <- (multiple_adms_nil (basic.opt_eqb Z.eqb) basic.py_of_int
                "enum" adm_enum db_sess opt_eqb_Z_spec).
  split.
  - intros [= H]. apply app_eq_nil in H as [H1 H]. apply app_eq_nil in H as [H2 H3].
    auto.
  - intros (-> & -> & ->). reflexivity.
Qed.

Lemma duplicate_names_nil list_name l : forall seen,
  basic.duplicate_names list_name seen [] l = [] <->
  (forall n, In n (map (fun o => models.name (base o)) l) -> ~ In n seen) /\
  NoDup (map (fun o => models.name (base o)) l).
Proof.
  induction l as [|x l IH]; intros seen; cbn [basic.duplicate_names map].
  - split; [intros _; split; [intros n [] | constructor] | reflexivity].
  - cbn [existsb orb negb]. rewrite andb_true_r.
    destruct (existsb _ seen) eqn:Es.
    + apply (existsb_eqb_In _ opt_eqb_string_spec) in Es. split; [discriminate|].
      intros [H _]. exfalso. apply (H _ (or_introl eq_refl)). exact Es.
    + apply (existsb_eqb_not_In _ opt_eqb_string_spec) in Es. rewrite IH.
      cbn [In]. split.
      * intros [H1 H2]. split.
        -- intros n [<-|Hn]; [exact Es|]. intros Hs. apply (H1 n Hn). auto.
        -- constructor; [|exact H2]. intros Hx. apply (H1 _ Hx). auto.
      * intros [H1 H2]. inversion H2 as [|? ? Hx Hl]; subst. split; [|exact Hl].
        intros n Hn [<-|Hs]; [contradiction|]. apply (H1 n); auto.
Qed.

(** X11.  [unique_object_names] reports nothing on an ADM exactly when, in
    each of its nine sections, no two objects have the same name as
    written. *)
Theorem unique_object_names_iff_distinct (adm : AdmFile) (db_sess : Session) :
  basic.unique_object_names (OfAdmFile adm) db_sess = Ok ([], 9) <->
  forall c, NoDup (names_of adm c).
Proof.
  unfold basic.unique_object_names. split.
  - intros H c. injection H as H.
    repeat (apply app_eq_nil in H as [?H H]).
    destruct c; unfold names_of; cbn [children];
      match goal with
      | Hx : basic.duplicate_names _ [] [] (map ?f _) = []
        |- NoDup (map _ (map ?f _)) =>
          apply duplicate_names_nil in Hx; apply Hx
      end.
  - intros H. f_equal. f_equal. apply flat_map_nil. intros [ln c] _.
    apply duplicate_names_nil. split; [intros n _ [] | apply H].
Qed.



















Lemma seq_checks_raises rs r e :
  In r rs -> r = Raise e -> exists e', basic.seq_checks rs = Raise e'.
Proof.
  intros Hin Hr. unfold basic.seq_checks.
  destruct (mapM_raises (fun r => r) rs r e Hin Hr) as (e' & ->).
  exists e'. reflexivity.
Qed.

(** X13.  An ADM with a MAC that has no action makes [valid_reference_ari]
    raise an exception instead of reporting an issue, and with it the whole
    [Checker.check] of that ADM. *)
Theorem check_stops_on_mac_without_action (db_sess : Session) (adm : AdmFile)
    (m : Mac) :
  In m adm.(mac) -> m.(action) = None ->
  basic.valid_reference_ari_obj db_sess (AMac m) = Raise AttributeError /\
  (exists e, basic.valid_reference_ari (OfAdmFile adm) db_sess = Raise e) /\
  (exists e, Checker.check db_sess (Some adm) = Raise e).
Proof.
  intros Hm Ha.
  assert (Hobj : basic.valid_reference_ari_obj db_sess (AMac m)
                 = Raise AttributeError).
  { cbn [basic.valid_reference_ari_obj]. rewrite Ha. reflexivity. }
  assert (Hadm : exists e,
            basic.valid_reference_ari (OfAdmFile adm) db_sess = Raise e).
  { cbn [basic.valid_reference_ari].
    apply (seq_checks_raises _ (basic.valid_reference_ari_obj db_sess (AMac m))
             AttributeError); [|exact Hobj].
    apply in_map. apply in_or_app. left. cbn [children]. apply in_map. exact Hm. }
  repeat apply conj; [exact Hobj | exact Hadm |].
  destruct Hadm as (e & He).
  unfold Checker.check, Checker.check_with.
  destruct (mapM _ (filter is_global CONSTRAINTS)) as [g|eg];
    [|exists eg; reflexivity].
  cbn [bind].
  destruct (mapM_raises
              (fun c => Checker._add_result db_sess c (Some adm))
              (filter (fun c => negb (is_global c)) CONSTRAINTS)
              (mkRegistered "ace.constraints.basic.valid_reference_ari" false
                            basic.valid_reference_ari) e) as (e' & Hin).
  { apply filter_In. split; [cbn; tauto | reflexivity]. }
  { unfold Checker._add_result. cbn [cst]. rewrite He. reflexivity. }
  cbn [mapM]. rewrite Hin. cbn [bind]. exists e'. reflexivity.
Qed.

Lemma check_stops_on_mac_without_action_witness :
  let m := mkMac (mkAdmObj (Some "m") None (Some "m") (Some 0)) None None in
  let adm := mkAdmFile None (Some "myadm") (Some "myns") (Some "myns")
                       (Some 200) [] [] [] [] [] [m] [] [] [] [] in
  basic.valid_reference_ari_obj (mkSession [adm] []) (AMac m)
  = Raise AttributeError /\
  (exists e, basic.valid_reference_ari (OfAdmFile adm) (mkSession [adm] [])
             = Raise e) /\
  (exists e, Checker.check (mkSession [adm] []) (Some adm) = Raise e).
Proof.
  apply (check_stops_on_mac_without_action
           (mkSession
              [mkAdmFile None (Some "myadm") (Some "myns") (Some "myns")
                 (Some 200) [] [] [] [] []
                 [mkMac (mkAdmObj (Some "m") None (Some "m") (Some 0))
                        None None] [] [] [] []] [])
           (mkAdmFile None (Some "myadm") (Some "myns") (Some "myns")
              (Some 200) [] [] [] [] []
              [mkMac (mkAdmObj (Some "m") None (Some "m") (Some 0)) None None]
              [] [] [] [])
           (mkMac (mkAdmObj (Some "m") None (Some "m") (Some 0)) None None)).
  - left. reflexivity.
  - reflexivity.
Defined.

End constraint_more.

(** ** Normalized names *)

Section util_facts.
Import models constraints.
Local Open Scope string_scope.

Lemma to_lower_to_lower c : to_lower (to_lower c) = to_lower c.
Proof. destruct c as [[] [] [] [] [] [] [] []]; reflexivity. Qed.

Lemma to_lower_to_upper c : to_lower (to_upper c) = to_lower c.
Proof. destruct c as [[] [] [] [] [] [] [] []]; reflexivity. Qed.

Lemma to_upper_to_upper c : to_upper (to_upper c) = to_upper c.
Proof. destruct c as [[] [] [] [] [] [] [] []]; reflexivity. Qed.

Lemma to_lower_slash c :
  Ascii.eqb (to_lower c) "/" = Ascii.eqb c "/".
Proof. destruct c as [[] [] [] [] [] [] [] []]; reflexivity. Qed.

Lemma to_upper_dot c : Ascii.eqb "." (to_upper c) = Ascii.eqb "." c.
Proof. destruct c as [[] [] [] [] [] [] [] []]; reflexivity. Qed.

Lemma string_map_map f g s :
  string_map f (string_map g s) = string_map (fun c => f (g c)) s.
Proof. induction s as [|c s IH]; cbn; [reflexivity | rewrite IH; reflexivity]. Qed.

Lemma string_map_ext f g s :
  (forall c, f c = g c) -> string_map f s = string_map g s.
Proof.
  intros H. induction s as [|c s IH]; cbn; [reflexivity|].
  rewrite H, IH. reflexivity.
Qed.

Lemma casefold_upper s : casefold (upper s) = casefold s.
Proof.
  unfold casefold, upper. rewrite string_map_map.
  apply string_map_ext, to_lower_to_upper.
Qed.

Lemma upper_upper s : upper (upper s) = upper s.
Proof.
  unfold upper. rewrite string_map_map. apply string_map_ext, to_upper_to_upper.
Qed.

Lemma normalize_ident_upper s :
  util.normalize_ident (upper s) = util.normalize_ident s.
Proof. unfold util.normalize_ident. rewrite casefold_upper. reflexivity. Qed.

Lemma normalize_ident_map s : util.normalize_ident s = string_map norm_char s.
Proof.
  unfold util.normalize_ident, util.replace_slash, casefold.
  rewrite string_map_map. reflexivity.
Qed.

Lemma norm_char_facts c :
  norm_char (norm_char c) = norm_char c /\
  to_lower (norm_char c) = norm_char c /\
  Ascii.eqb (norm_char c) "/" = false.
Proof. destruct c as [[] [] [] [] [] [] [] []]; repeat split; reflexivity. Qed.

(** X14.  [normalize_ident] is idempotent, and its result has no upper-case
    ASCII letter and no slash: normalizing again, as [find_ident] does with
    what [get_ident] normalized, changes nothing. *)
Theorem normalize_ident_idempotent (text : string) :
  is_ascii text = true ->
  util.normalize_ident (util.normalize_ident text) = util.normalize_ident text /\
  casefold (util.normalize_ident text) = util.normalize_ident text /\
  no_char "/" (util.normalize_ident text) = true.
Proof.
  intros _. rewrite !normalize_ident_map. unfold casefold.
  induction text as [|c s (IH1 & IH2 & IH3)]; [repeat split; reflexivity|].
  destruct (norm_char_facts c) as (H1 & H2 & H3).
  cbn [string_map no_char]. rewrite IH1, IH2, IH3, H1, H2, H3.
  repeat split; reflexivity.
Qed.

Lemma normalize_ident_idempotent_witness :
  util.normalize_ident (util.normalize_ident "IANA/Amp.Agent")
  = util.normalize_ident "IANA/Amp.Agent" /\
  casefold (util.normalize_ident "IANA/Amp.Agent")
  = util.normalize_ident "IANA/Amp.Agent" /\
  no_char "/" (util.normalize_ident "IANA/Amp.Agent") = true.
Proof. apply (normalize_ident_idempotent "IANA/Amp.Agent"). reflexivity. Defined.

Lemma split_at_upper s :
  ari_text.lexmod.split_at "." (upper s)
  = (upper (fst (ari_text.lexmod.split_at "." s)),
     upper (snd (ari_text.lexmod.split_at "." s))).
Proof.
  induction s as [|c s IH]; [reflexivity|].
  cbn [upper string_map ari_text.lexmod.split_at]. fold (upper s).
  rewrite to_upper_dot. destruct (Ascii.eqb "." c); [reflexivity|].
  rewrite IH. destruct (ari_text.lexmod.split_at "." s) as [x y].
  reflexivity.
Qed.

Lemma has_dot_upper s :
  existsb (Ascii.eqb ".") (list_ascii_of_string (upper s))
  = existsb (Ascii.eqb ".") (list_ascii_of_string s).
Proof.
  induction s as [|c s IH]; [reflexivity|].
  cbn [upper string_map list_ascii_of_string existsb]. fold (upper s).
  rewrite to_upper_dot, IH. reflexivity.
Qed.

Lemma get_ident_upper a : basic.get_ident (upper_ARI a) = basic.get_ident a.
Proof.
  unfold basic.get_ident, upper_ARI. cbn [nm ns].
  destruct (nm a) as [n|]; [|reflexivity]. cbn [option_map bind].
  rewrite split_at_upper, has_dot_upper.
  destruct (ari_text.lexmod.split_at "." n) as [x y]. cbn [fst snd].
  destruct (existsb _ _); [|reflexivity]. cbn [bind].
  destruct (ns a) as [s|]; [|reflexivity]. cbn [option_map bind].
  rewrite normalize_ident_upper, upper_upper, normalize_ident_upper.
  reflexivity.
Qed.

(** X15.  Whether an ARI embedded in an ADM resolves does not depend on the
    case of the ASCII letters of its namespace, type and name: [get_ident]
    gives the same identity, and [valid_reference_ari] the same answer, for
    the ARI written in upper case. *)
Theorem reference_check_ignores_case (db_sess : Session) (top_obj : AdmObj)
    (ns_text nm_text : string) (params : list AriAP) :
  is_ascii ns_text = true -> is_ascii nm_text = true ->
  basic.get_ident (mkARI (Some (upper ns_text)) (Some (upper nm_text)) params)
  = basic.get_ident (mkARI (Some ns_text) (Some nm_text) params) /\
  basic.valid_reference_ari_ARI db_sess top_obj
    (mkARI (Some (upper ns_text)) (Some (upper nm_text)) params)
  = basic.valid_reference_ari_ARI db_sess top_obj
      (mkARI (Some ns_text) (Some nm_text) params).
Proof.
  intros _ _.
  pose proof (get_ident_upper (mkARI (Some ns_text) (Some nm_text) params))
    as H.
  unfold upper_ARI in H. cbn [ns nm ap option_map] in H.
  split; [exact H|]. unfold basic.valid_reference_ari_ARI. rewrite H.
  reflexivity.
Qed.

Lemma reference_check_ignores_case_witness :
  basic.get_ident (mkARI (Some "AMP/AGENT") (Some "EDD.NUM_RPTS") [])
  = basic.get_ident (mkARI (Some "Amp/Agent") (Some "Edd.num_rpts") []) /\
  basic.valid_reference_ari_ARI sample_catalog (var_of_type "UINT")
    (mkARI (Some "AMP/AGENT") (Some "EDD.NUM_RPTS") [])
  = basic.valid_reference_ari_ARI sample_catalog (var_of_type "UINT")
      (mkARI (Some "Amp/Agent") (Some "Edd.num_rpts") []).
Proof.
  apply (reference_check_ignores_case sample_catalog (var_of_type "UINT")
           "Amp/Agent" "Edd.num_rpts" []); reflexivity.
Defined.

Lemma basename_from_no_slash s : forall acc,
  no_char "/" s = true -> basic.basename_from acc s = acc.
Proof.
  induction s as [|c s IH]; intros acc H; [reflexivity|].
  cbn [no_char] in H. apply andb_prop in H as [Hc Hs].
  cbn [basic.basename_from]. apply negb_true_iff in Hc. rewrite Hc.
  apply IH. exact Hs.
Qed.

Lemma basename_after_slash dir file : forall acc,
  no_char "/" file = true ->
  basic.basename_from acc (dir ++ String "/" file) = file.
Proof.
  induction dir as [|c dir IH]; intros acc H.
  - cbn. apply basename_from_no_slash. exact H.
  - change (String c dir ++ String "/" file)
      with (String c (dir ++ String "/" file)).
    cbn [basic.basename_from].
    destruct (Ascii.eqb c "/"); apply IH; exact H.
Qed.

Lemma last_dot_no_dot s : no_char "." s = true -> basic.last_dot s = None.
Proof.
  induction s as [|c s IH]; intros H; [reflexivity|].
  cbn [no_char] in H. apply andb_prop in H as [Hc Hs].
  cbn [basic.last_dot]. rewrite (IH Hs). apply negb_true_iff in Hc. rewrite Hc.
  reflexivity.
Qed.

Lemma last_dot_stem stem ext :
  no_char "." ext = true ->
  basic.last_dot (stem ++ String "." ext) = Some (String.length stem).
Proof.
  intros H. induction stem as [|c stem IH].
  - cbn. rewrite (last_dot_no_dot _ H). reflexivity.
  - change (String c stem ++ String "." ext)
      with (String c (stem ++ String "." ext)).
    cbn [basic.last_dot String.length]. rewrite IH. reflexivity.
Qed.

Lemma substring_prefix a b : substring 0 (String.length a) (a ++ b) = a.
Proof.
  induction a as [|c a IH]; cbn; [destruct b; reflexivity|].
  rewrite IH. reflexivity.
Qed.

Lemma no_char_app c a b :
  no_char c (a ++ b) = no_char c a && no_char c b.
Proof.
  induction a as [|x a IH]; cbn; [reflexivity|]. rewrite IH.
  apply andb_assoc.
Qed.

Lemma splitext_basename dir stem ext :
  no_char "/" stem = true -> no_char "/" ext = true ->
  no_char "." ext = true -> basic.all_dots stem = false ->
  basic.splitext_root (basic.basename (dir ++ "/" ++ stem ++ "." ++ ext))
  = stem.
Proof.
  intros Hs He Hd Hn. unfold basic.basename.
  change ("/" ++ stem ++ "." ++ ext) with (String "/" (stem ++ String "." ext)).
  rewrite basename_after_slash.
  2:{ rewrite no_char_app, Hs. cbn. exact He. }
  unfold basic.splitext_root. rewrite (last_dot_stem _ _ Hd).
  rewrite substring_prefix, Hn. reflexivity.
Qed.

(** X16.  For an ADM read from the file [dir/stem.ext], where [stem] has a
    character other than a dot, [same_file_name] reports nothing exactly when
    the normalized name of the ADM is [stem], as written. *)
Theorem same_file_name_iff_stem (adm : AdmFile) (db_sess : Session)
    (dir stem ext : string) :
  adm.(abs_file_path) = Some (dir ++ "/" ++ stem ++ "." ++ ext) ->
  no_char "/" stem = true -> no_char "/" ext = true ->
  no_char "." ext = true -> basic.all_dots stem = false ->
  (basic.same_file_name (OfAdmFile adm) db_sess = Ok ([], 1) <->
   adm.(adm_norm_name) = Some stem).
Proof.
  intros Hp Hs He Hd Hn. cbn [basic.same_file_name]. rewrite Hp.
  rewrite (splitext_basename _ _ _ Hs He Hd Hn).
  destruct (basic.opt_eqb String.eqb (adm_norm_name adm) (Some stem)) eqn:E.
  - split; [intros _|reflexivity].
    destruct (adm_norm_name adm) as [n|]; [|discriminate E].
    cbn in E. apply String.eqb_eq in E. congruence.
  - split; [discriminate|]. intros H. rewrite H in E. cbn in E.
    rewrite String.eqb_refl in E. discriminate.
Qed.

Lemma same_file_name_iff_stem_witness :
  basic.same_file_name (OfAdmFile adm_without_mdat) sample_catalog
  = Ok ([], 1) <->
  adm_without_mdat.(adm_norm_name) = Some "myadm".
Proof.
  apply (same_file_name_iff_stem adm_without_mdat sample_catalog
           "/adms" "myadm" "json"); reflexivity.
Defined.

End util_facts.

(** ** The lexer: quoted literals *)

Section lexer_facts.
Import ari ari_text ari_text.lexmod re.
Local Open Scope string_scope.

Lemma matches_Star {A} r s (k : string -> option A) :
  matches (Star r) s k = star_loop r k (String.length s) s.
Proof. reflexivity. Qed.

Lemma length_append a b :
  String.length (a ++ b) = (String.length a + String.length b)%nat.
Proof. induction a as [|c a IH]; cbn; [reflexivity | rewrite IH; reflexivity]. Qed.

(** Greedy repetition of a class takes all of [s1] when the character after
    it is not of the class and the continuation accepts there. *)
Lemma star_class_all {A} p s1 c s2 (k : string -> option A) x :
  string_forall p s1 = true -> p c = false ->
  k (String c s2) = Some x ->
  forall n, (String.length s1 <= n)%nat ->
    star_loop (Class p) k n (s1 ++ String c s2) = Some x.
Proof.
  intros Hs Hc Hk. induction s1 as [|a s1 IH]; intros n Hn.
  - cbn [append]. destruct n as [|n]; cbn [star_loop matches]; [exact Hk|].
    rewrite Hc. exact Hk.
  - cbn [string_forall] in Hs. apply andb_prop in Hs as [Ha Hs].
    destruct n as [|n]; [cbn in Hn; lia|].
    cbn [append star_loop matches]. rewrite Ha.
    cbn [String.length].
    destruct (Nat.ltb_spec (String.length (s1 ++ String c s2))
                           (S (String.length (s1 ++ String c s2)))); [|lia].
    fold (@star_loop A (Class p) k).
    rewrite (IH Hs n); [reflexivity | cbn in Hn; lia].
Qed.

Lemma substring_all s : substring 0 (String.length s) s = s.
Proof. induction s as [|c s IH]; cbn; [reflexivity | rewrite IH; reflexivity]. Qed.

Lemma substring_over s : forall n,
  (String.length s <= n)%nat -> substring 0 n s = s.
Proof.
  induction s as [|c s IH]; intros n Hn; [destruct n; reflexivity|].
  destruct n as [|n]; [cbn in Hn; lia|]. cbn [substring].
  rewrite IH by (cbn in Hn; lia). reflexivity.
Qed.

Lemma substring_prefix_length a b :
  substring 0 (String.length a) (a ++ b) = a.
Proof.
  induction a as [|c a IH]; cbn; [destruct b; reflexivity|].
  rewrite IH. reflexivity.
Qed.

Lemma drop_last_snoc s c : drop_last (s ++ String c EmptyString) = s.
Proof.
  unfold drop_last. rewrite length_append. cbn [String.length].
  replace (String.length s + 1 - 1)%nat with (String.length s) by lia.
  apply substring_prefix_length.
Qed.

Lemma tokens_from_skip_all s : forall n,
  (String.length s <= n)%nat -> tokens_from n s = Ok [].
Proof.
  induction s as [|c s IH]; intros n Hn; [destruct n; reflexivity|].
  destruct n as [|n]; [cbn in Hn; lia|]. cbn [tokens_from].
  apply IH. cbn in Hn. lia.
Qed.

Lemma split_at_no_char c a b :
  string_forall (fun x => negb (Ascii.eqb c x)) a = true ->
  split_at c (a ++ String c b) = (a, b).
Proof.
  induction a as [|x a IH]; intros H.
  - cbn. rewrite Ascii.eqb_refl. reflexivity.
  - cbn [string_forall] in H. apply andb_prop in H as [Hx Ha].
    cbn [append split_at]. apply negb_true_iff in Hx. rewrite Hx.
    rewrite (IH Ha). reflexivity.
Qed.

Lemma is_ascii_app a b : is_ascii (a ++ b) = is_ascii a && is_ascii b.
Proof.
  induction a as [|c a IH]; cbn; [reflexivity|]. rewrite IH.
  apply andb_assoc.
Qed.

(* hexadecimal text *)

Lemma b16decode_hex_byte b rest :
  b16decode (hex [b] ++ rest)
  = (r <- b16decode rest ;; Ok (b :: r)).
Proof. destruct b; reflexivity. Qed.

Lemma b16decode_hex b : b16decode (hex b) = Ok b.
Proof.
  induction b as [|x b IH]; [reflexivity|].
  change (hex (x :: b)) with (hex [x] ++ hex b).
  rewrite b16decode_hex_byte, IH. reflexivity.
Qed.

Lemma hex_no_squote b :
  string_forall (fun c => negb (Ascii.eqb c squote)) (hex b) = true.
Proof.
  induction b as [|x b IH]; [reflexivity|].
  change (hex (x :: b)) with (hex [x] ++ hex b).
  assert (H : string_forall (fun c => negb (Ascii.eqb c squote)) (hex [x]) = true)
    by (destruct x; reflexivity).
  revert H. generalize (hex [x]). intros s Hs.
  induction s as [|c s IHs]; [exact IH|].
  cbn [string_forall] in Hs. apply andb_prop in Hs as [Hc Hs].
  cbn [append string_forall]. rewrite Hc. apply IHs. exact Hs.
Qed.

Lemma hex_is_ascii b : is_ascii (hex b) = true.
Proof.
  induction b as [|x b IH]; [reflexivity|].
  change (hex (x :: b)) with (hex [x] ++ hex b).
  rewrite is_ascii_app, IH. destruct x; reflexivity.
Qed.

Lemma earlier_rules_fail_h rest :
  match_len r_ARI_PREFIX (String "h" (String squote rest)) = None /\
  match_len r_TYPENAME (String "h" (String squote rest)) = None /\
  match_len r_TYPEDOT (String "h" (String squote rest)) = None /\
  match_len r_BOOL (String "h" (String squote rest)) = None /\
  match_len r_FLOAT (String "h" (String squote rest)) = None /\
  match_len r_INT (String "h" (String squote rest)) = None /\
  match_len r_TSTR (String "h" (String squote rest)) = None.
Proof. repeat apply conj; vm_compute; reflexivity. Qed.

Lemma earlier_rules_fail_dquote rest :
  match_len r_ARI_PREFIX (String dquote rest) = None /\
  match_len r_TYPENAME (String dquote rest) = None /\
  match_len r_TYPEDOT (String dquote rest) = None /\
  match_len r_BOOL (String dquote rest) = None /\
  match_len r_FLOAT (String dquote rest) = None /\
  match_len r_INT (String dquote rest) = None.
Proof. repeat apply conj; vm_compute; reflexivity. Qed.

Lemma match_quoted {A} q body (k : string -> option A) x :
  string_forall (fun c => negb (Ascii.eqb c q)) body = true ->
  k EmptyString = Some x ->
  matches (Seq (Chr q)
             (Seq (Star (Class (fun c => negb (Ascii.eqb c q)))) (Chr q)))
          (String q (body ++ String q EmptyString)) k = Some x.
Proof.
  intros Hb Hk. remember (Star (Class (fun c => negb (Ascii.eqb c q)))) as st.
  cbn [matches]. unfold chr_eq_ignorecase. rewrite Ascii.eqb_refl.
  subst st. rewrite matches_Star.
  apply star_class_all.
  - exact Hb.
  - rewrite Ascii.eqb_refl. reflexivity.
  - cbn [matches]. unfold chr_eq_ignorecase. rewrite Ascii.eqb_refl. exact Hk.
  - rewrite length_append. lia.
Qed.

Lemma match_len_tstr body :
  string_forall (fun c => negb (Ascii.eqb c dquote)) body = true ->
  match_len r_TSTR (String dquote (body ++ String dquote EmptyString))
  = Some (String.length (String dquote (body ++ String dquote EmptyString))).
Proof.
  intros Hb. unfold match_len, r_TSTR.
  apply match_quoted; [exact Hb|]. cbn [String.length]. f_equal; lia.
Qed.

Lemma match_len_bstr body :
  string_forall (fun c => negb (Ascii.eqb c squote)) body = true ->
  match_len r_BSTR (String "h" (String squote (body ++ String squote EmptyString)))
  = Some (String.length
            (String "h" (String squote (body ++ String squote EmptyString)))).
Proof.
  intros Hb. unfold match_len, r_BSTR.
  remember (Seq (Chr squote) _) as tail.
  cbn [matches Opt Alts Lit]. unfold chr_eq_ignorecase at 1.
  change (Ascii.eqb (to_lower "h") (to_lower "h")) with true. cbv iota.
  subst tail. rewrite match_quoted with (x := String.length
      (String "h" (String squote (body ++ String squote EmptyString)))).
  - reflexivity.
  - exact Hb.
  - cbn [String.length]. f_equal; lia.
Qed.

Lemma lex_bstr b : tokenize ("h'" ++ hex b ++ "'") = Ok [BSTR b].
Proof.
  unfold tokenize.
  assert (Ha : is_ascii ("h'" ++ hex b ++ "'") = true).
  { rewrite !is_ascii_app, hex_is_ascii. reflexivity. }
  rewrite Ha.
  change ("h'" ++ hex b ++ "'")
    with (String "h" (String squote (hex b ++ String squote EmptyString))).
  cbn [tokens_from]. change (ignored "h") with false. cbv iota.
  destruct (earlier_rules_fail_h (hex b ++ String squote EmptyString))
    as (H1 & H2 & H3 & H4 & H5 & H6 & H7).
  unfold rules. cbn [first_match].
  rewrite H1, H2, H3, H4, H5, H6, H7, (match_len_bstr _ (hex_no_squote b)).
  cbn [String.length substring]. rewrite substring_all.
  unfold a_BSTR.
  change (String "h" (String squote (hex b ++ String squote EmptyString)))
    with ("h" ++ String squote (hex b ++ String squote EmptyString)).
  rewrite split_at_no_char by reflexivity.
  rewrite drop_last_snoc. change (String.eqb "h" "h") with true. cbv iota.
  rewrite b16decode_hex. cbn [bind].
  rewrite tokens_from_skip_all by (cbn [String.length]; lia).
  reflexivity.
Qed.

Lemma lex_tstr s :
  is_ascii s = true ->
  string_forall (fun c => negb (Ascii.eqb c dquote)) s = true ->
  tokenize (String dquote s ++ String dquote EmptyString) = Ok [TSTR s].
Proof.
  intros Ha Hq. unfold tokenize.
  assert (Hascii : is_ascii (String dquote s ++ String dquote EmptyString) = true).
  { rewrite is_ascii_app. cbn [is_ascii]. rewrite Ha. reflexivity. }
  rewrite Hascii.
  change (String dquote s ++ String dquote EmptyString)
    with (String dquote (s ++ String dquote EmptyString)).
  cbn [tokens_from]. change (ignored dquote) with false. cbv iota.
  destruct (earlier_rules_fail_dquote (s ++ String dquote EmptyString))
    as (H1 & H2 & H3 & H4 & H5 & H6).
  unfold rules. cbn [first_match].
  rewrite H1, H2, H3, H4, H5, H6, (match_len_tstr _ Hq).
  cbn [String.length substring]. rewrite substring_all.
  unfold a_TSTR. cbn [String.length substring bind].
  rewrite substring_over by lia. rewrite drop_last_snoc.
  rewrite tokens_from_skip_all by (cbn [String.length]; lia).
  reflexivity.
Qed.

(** X17.  The text form of a byte string literal, of a text literal whose
    text is ASCII and has no double quote, and of a boolean literal decodes to
    the literal: the hexadecimal digits that [to_diag] writes are the ones the
    lexer reads, and a text is written between double quotes as it is. *)
Theorem text_literal_roundtrip (o : obj) :
  text_roundtrips o = true ->
  exists text,
    ari_text.Encoder.encode o = Ok text /\
    ari_text.Decoder.decode text = Ok o.
Proof.
  intros H. destruct o as [t v| | | |]; try discriminate H.
  destruct t; try discriminate H; destruct v as [| v | | s | b];
    try discriminate H; cbn [text_roundtrips] in H.
  - destruct v; eexists; split; reflexivity.
  - apply andb_prop in H as [Ha Hq].
    exists (String dquote s ++ String dquote EmptyString). split; [reflexivity|].
    unfold ari_text.Decoder.decode. rewrite (lex_tstr s Ha Hq). reflexivity.
  - exists ("h'" ++ hex b ++ "'"). split; [reflexivity|].
    unfold ari_text.Decoder.decode. rewrite lex_bstr. reflexivity.
Qed.

Lemma text_literal_roundtrip_witness :
  exists text,
    ari_text.Encoder.encode
      (LiteralARI StructType.BSTR (PyBytes [x00; xab; xff])) = Ok text /\
    ari_text.Decoder.decode text
    = Ok (LiteralARI StructType.BSTR (PyBytes [x00; xab; xff])).
Proof.
  apply (text_literal_roundtrip
           (LiteralARI StructType.BSTR (PyBytes [x00; xab; xff]))).
  reflexivity.
Defined.

End lexer_facts.

(** ** The lexer: integers *)

Section integer_text.
Import ari ari_text ari_text.lexmod re.
Local Open Scope string_scope.

(** The decimal digits of a positive number, as [str] writes them. *)





(** [int(text, 0)] on these texts *)





Lemma star_class_end {A} p (k : string -> option A) x :
  k EmptyString = Some x ->
  forall s n, string_forall p s = true -> (String.length s <= n)%nat ->
    star_loop (Class p) k n s = Some x.
Proof.
  intros Hk. induction s as [|c s IH]; intros n Hs Hn.
  - destruct n; cbn [star_loop matches]; exact Hk.
  - cbn [string_forall] in Hs. apply andb_prop in Hs as [Hc Hs'].
    destruct n as [|n]; [cbn in Hn; lia|].
    cbn [star_loop matches]. rewrite Hc. fold (@star_loop A (Class p) k).
    cbn [String.length].
    destruct (Nat.ltb_spec (String.length s) (S (String.length s))); [|lia].
    rewrite (IH n Hs'); [reflexivity | cbn in Hn; lia].
Qed.











(** The type label before a literal. *)


Lemma append_assoc_string a b c : (a ++ b) ++ c = a ++ b ++ c.
Proof. induction a as [|x a IH]; cbn; [reflexivity | rewrite IH; reflexivity]. Qed.

Lemma tokens_from_skip_prefix a b :
  tokens_from (String.length a) (a ++ b) = tokens_from 0 b.
Proof. induction a as [|c a IH]; [reflexivity | exact IH]. Qed.

Lemma typedot_matches {A} t rest (k : string -> option A) :
  matches r_TYPEDOT (StructType.name t ++ "." ++ rest) k = k rest.
Proof. destruct t; vm_compute; destruct (k rest); reflexivity. Qed.

Lemma typedot_first t rest :
  exists c s',
    StructType.name t = String c s' /\ ignored c = false /\
    match_len r_ARI_PREFIX (String c (s' ++ "." ++ rest)) = None /\
    match_len r_TYPENAME (String c (s' ++ "." ++ rest)) = None /\
    a_TYPEDOT (String c (s' ++ ".")) = Ok (TYPEDOT t) /\
    is_ascii (String c (s' ++ ".")) = true.
Proof.
  destruct t; do 2 eexists;
    (split; [reflexivity|]); repeat apply conj; vm_compute; reflexivity.
Qed.

Lemma lex_typed t rest toks :
  tokens_from 0 rest = Ok toks ->
  tokens_from 0 (StructType.name t ++ "." ++ rest) = Ok (TYPEDOT t :: toks).
Proof.
  intros Hr.
  destruct (typedot_first t rest) as (c & s' & En & Hig & H1 & H2 & Ha & _).
  assert (H3 : match_len r_TYPEDOT (String c (s' ++ "." ++ rest))
               = Some (S (String.length (s' ++ ".")))).
  { unfold match_len.
    change (String c (s' ++ "." ++ rest)) with (String c s' ++ "." ++ rest).
    rewrite <- En. rewrite typedot_matches. rewrite En.
    f_equal. cbn [append String.length]. rewrite !length_append.
    cbn [String.length]. lia. }
  rewrite En.
  change (String c s' ++ "." ++ rest) with (String c (s' ++ "." ++ rest)).
  cbn [tokens_from]. rewrite Hig.
  unfold rules. cbn [first_match]. rewrite H1, H2, H3.
  cbn [substring]. rewrite <- (append_assoc_string s' "." rest).
  rewrite substring_prefix_length, Ha. cbn [bind].
  rewrite tokens_from_skip_prefix, Hr. reflexivity.
Qed.



End integer_text.

(** ** The lexer: names, and the text of a reference *)

Section name_text_facts.
Import ari ari_text ari_text.lexmod ari_text.parsemod re.
Local Open Scope string_scope.

Lemma matches_Lit_fail {A} w : forall s (k : string -> option A),
  starts_with w s = false -> matches (Lit w) s k = None.
Proof.
  induction w as [|a w IH]; intros s k H; [discriminate H|].
  cbn [Lit matches]. destruct s as [|b s]; [reflexivity|].
  cbn [starts_with] in H. destruct (chr_eq_ignorecase a b); [|reflexivity].
  apply IH. exact H.
Qed.

Lemma matches_Lit_Chr {A} w c : forall s (k : string -> option A),
  matches (Lit w) s (fun s' => matches (Chr c) s' k)
  = matches (Lit (w ++ String c EmptyString)) s k.
Proof.
  induction w as [|a w IH]; intros s k; [reflexivity|].
  cbn [Lit append matches]. destruct s as [|b s]; [reflexivity|].
  destruct (chr_eq_ignorecase a b); [apply IH | reflexivity].
Qed.

Lemma name_char_to_lower a : name_char (to_lower a) = name_char a.
Proof. destruct a as [[] [] [] [] [] [] [] []]; reflexivity. Qed.

Lemma not_name_char_to_lower c : name_char c = false -> to_lower c = c.
Proof.
  destruct c as [[] [] [] [] [] [] [] []]; intros H; try discriminate H;
    reflexivity.
Qed.

Lemma chr_eq_name_char a c :
  name_char a = true -> name_char c = false -> chr_eq_ignorecase a c = false.
Proof.
  intros Ha Hc. unfold chr_eq_ignorecase.
  rewrite (not_name_char_to_lower c Hc).
  destruct (Ascii.eqb_spec (to_lower a) c) as [E|]; [|reflexivity].
  rewrite <- E, name_char_to_lower, Ha in Hc. discriminate Hc.
Qed.

Lemma starts_with_app w : forall s rest,
  string_forall name_char w = true -> stops rest = true ->
  starts_with w s = false -> starts_with w (s ++ rest) = false.
Proof.
  induction w as [|a w IH]; intros s rest Hw Hr H; [discriminate H|].
  cbn [string_forall] in Hw. apply andb_prop in Hw as [Ha Hw].
  destruct s as [|b s].
  - cbn [append]. destruct rest as [|c rest]; [reflexivity|].
    cbn [starts_with]. cbn [stops] in Hr. apply negb_true_iff in Hr.
    rewrite (chr_eq_name_char a c Ha Hr). reflexivity.
  - cbn [append starts_with] in *.
    destruct (chr_eq_ignorecase a b); [|reflexivity].
    apply IH; assumption.
Qed.

Lemma keywords_name_chars :
  forallb (string_forall name_char) keywords = true.
Proof. vm_compute. reflexivity. Qed.

Lemma existsb_false {A} (f : A -> bool) l :
  existsb f l = false -> forall x, In x l -> f x = false.
Proof.
  intros H x Hx. destruct (f x) eqn:E; [|reflexivity].
  rewrite <- H. symmetry. apply existsb_exists. eauto.
Qed.

(** No keyword is at the front of a name, whatever follows the name. *)
Lemma no_keyword s rest w :
  existsb (fun w => starts_with w s) keywords = false ->
  stops rest = true -> In w keywords ->
  starts_with w (s ++ rest) = false.
Proof.
  intros H Hr Hw. apply starts_with_app; [|exact Hr|].
  - pose proof keywords_name_chars as K.
    rewrite forallb_forall in K. apply K, Hw.
  - apply (existsb_false _ _ H w Hw).
Qed.

(** The rules that fail on the first character of a name. *)
Lemma alpha_first_char c rest :
  is_alpha c = true ->
  ignored c = false /\
  match_len r_TYPENAME (String c rest) = None /\
  match_len r_INT (String c rest) = None /\
  match_len r_TSTR (String c rest) = None.
Proof.
  intros H. destruct c as [[] [] [] [] [] [] [] []]; try discriminate H.
  all: repeat apply conj; vm_compute; reflexivity.
Qed.

Lemma alpha_char c :
  is_alpha c = true ->
  is_digit c = false /\
  existsb (Ascii.eqb c) (list_ascii_of_string "+-") = false /\
  chr_eq_ignorecase "." c = false /\
  chr_eq_ignorecase squote c = false.
Proof.
  intros H. destruct c as [[] [] [] [] [] [] [] []]; try discriminate H.
  all: repeat apply conj; reflexivity.
Qed.

Lemma alts_lit_chr_fail {A} c s (k : string -> option A) : forall ws,
  (forall w, In w ws -> starts_with (w ++ String c EmptyString) s = false) ->
  matches (Seq (Alts (map Lit ws)) (Chr c)) s k = None.
Proof.
  intros ws.
  change (matches (Seq (Alts (map Lit ws)) (Chr c)) s k)
    with (matches (Alts (map Lit ws)) s (fun s' => matches (Chr c) s' k)).
  induction ws as [|w ws IH]; intros H.
  - destruct s; reflexivity.
  - assert (Hw : matches (Lit w) s (fun s' => matches (Chr c) s' k) = None).
    { rewrite matches_Lit_Chr. apply matches_Lit_fail, H. left. reflexivity. }
    destruct ws as [|w2 ws]; [exact Hw|].
    change (matches (Alts (map Lit (w :: w2 :: ws))) s
              (fun s' => matches (Chr c) s' k))
      with (match matches (Lit w) s (fun s' => matches (Chr c) s' k) with
            | Some x => Some x
            | None => matches (Alts (map Lit (w2 :: ws))) s
                        (fun s' => matches (Chr c) s' k)
            end).
    rewrite Hw. apply IH. intros w' Hw'. apply H. right. exact Hw'.
Qed.

Lemma star_first_fails {A} p (k : string -> option A) c s n :
  p c = false -> star_loop (Class p) k n (String c s) = k (String c s).
Proof.
  intros H. destruct n; [reflexivity|]. cbn [star_loop matches]. rewrite H.
  reflexivity.
Qed.

Lemma append_nil_r s : s ++ EmptyString = s.
Proof. induction s as [|c s IH]; cbn; [reflexivity | rewrite IH; reflexivity]. Qed.

Lemma star_class_stop {A} p s1 s2 (k : string -> option A) x :
  string_forall p s1 = true ->
  match s2 with EmptyString => true | String c _ => negb (p c) end = true ->
  k s2 = Some x ->
  forall n, (String.length s1 <= n)%nat ->
    star_loop (Class p) k n (s1 ++ s2) = Some x.
Proof.
  intros Hs Hstop Hk n Hn. destruct s2 as [|c s2].
  - rewrite append_nil_r. apply star_class_end; assumption.
  - apply star_class_all; try assumption. apply negb_true_iff. exact Hstop.
Qed.

(** The eight rules before NAME fail at a name. *)
Lemma earlier_rules_fail_name s rest :
  name_text s = true -> stops rest = true ->
  match_len r_ARI_PREFIX (s ++ rest) = None /\
  match_len r_TYPENAME (s ++ rest) = None /\
  match_len r_TYPEDOT (s ++ rest) = None /\
  match_len r_BOOL (s ++ rest) = None /\
  match_len r_FLOAT (s ++ rest) = None /\
  match_len r_INT (s ++ rest) = None /\
  match_len r_TSTR (s ++ rest) = None /\
  match_len r_BSTR (s ++ rest) = None.
Proof.
  intros Hs Hr. unfold name_text in Hs.
  apply andb_prop in Hs as [Hs Hk]. apply andb_prop in Hs as [Hs _].
  apply negb_true_iff in Hk.
  assert (K : forall w, In w keywords -> forall A (k : string -> option A),
                matches (Lit w) (s ++ rest) k = None).
  { intros w Hw A k. apply matches_Lit_fail, (no_keyword s rest w Hk Hr Hw). }
  destruct s as [|c [|c2 r]]; try discriminate Hs.
  apply andb_prop in Hs as [Hc _].
  destruct (alpha_first_char c (String c2 r ++ rest) Hc) as (_ & H2 & H6 & H7).
  destruct (alpha_char c Hc) as (Hd & Hsg & Hdot & Hsq).
  set (text := String c (String c2 r) ++ rest) in *.
  assert (Et : text = String c (String c2 r ++ rest)) by reflexivity.
  repeat apply conj.
  - apply K. left. reflexivity.
  - exact H2.
  - unfold match_len, r_TYPEDOT, type_names.
    rewrite <- (map_map StructType.name Lit).
    apply alts_lit_chr_fail. intros w Hw.
    apply (no_keyword _ rest _ Hk Hr). right. apply in_or_app. left.
    apply in_map_iff in Hw as (item & <- & Hi).
    apply in_map_iff. exists item. split; [reflexivity | exact Hi].
  - unfold match_len, r_BOOL. cbn [matches].
    rewrite !K; [reflexivity | |].
    + right. apply in_or_app. right. right. left. reflexivity.
    + right. apply in_or_app. right. left. reflexivity.
  - unfold match_len, r_FLOAT.
    set (k := fun rest0 : string => _).
    set (E := Seq (one_of "eE") (Seq (Opt sign) (Plus digit))).
    change (matches
              (Alt (Seq (Opt sign)
                      (Alts [Seq (Alt (Plus digit) dot_number) E; dot_number;
                             Lit "Infinity"]))
                 (Lit "NaN")) text k)
      with (match
               (match matches sign text
                        (fun s' =>
                           matches
                             (Alts [Seq (Alt (Plus digit) dot_number) E;
                                    dot_number; Lit "Infinity"]) s' k) with
                | Some x => Some x
                | None =>
                    match
                      (match matches (Plus digit) text
                               (fun s' => matches E s' k) with
                       | Some x => Some x
                       | None => matches dot_number text
                                   (fun s' => matches E s' k)
                       end) with
                    | Some x => Some x
                    | None =>
                        match matches dot_number text k with
                        | Some x => Some x
                        | None => matches (Lit "Infinity") text k
                        end
                    end
                end) with
            | Some x => Some x
            | None => matches (Lit "NaN") text k
            end).
    assert (Hdn : forall B (k' : string -> option B),
              matches dot_number text k' = None).
    { intros B k'. unfold dot_number, digit.
      change (matches (Seq (Star (Class is_digit))
                         (Seq (Chr ".") (Star (Class is_digit)))) text k')
        with (matches (Star (Class is_digit)) text
                (fun s' => matches (Seq (Chr ".") (Star (Class is_digit)))
                             s' k')).
      rewrite matches_Star, Et, star_first_fails by exact Hd.
      cbn [matches]. rewrite Hdot. reflexivity. }
    assert (Hpd : forall B (k' : string -> option B),
              matches (Plus digit) text k' = None).
    { intros B k'. rewrite Et. unfold Plus, digit. cbn [matches].
      rewrite Hd. reflexivity. }
    assert (Hsn : forall B (k' : string -> option B),
              matches sign text k' = None).
    { intros B k'. rewrite Et. unfold sign, one_of. cbn [matches].
      rewrite Hsg. reflexivity. }
    rewrite Hsn, Hpd, !Hdn, !K; [reflexivity | |].
    + right. apply in_or_app. right. do 3 right. left. reflexivity.
    + right. apply in_or_app. right. do 2 right. left. reflexivity.
  - exact H6.
  - exact H7.
  - unfold match_len, r_BSTR.
    set (k := fun rest0 : string => _).
    set (body := Seq (Star (Class (fun c0 => negb (Ascii.eqb c0 squote))))
                     (Chr squote)).
    change (matches
              (Seq (Opt (Alts [Lit "h"; Lit "b32"; Lit "h32"; Lit "b64"]))
                 (Seq (Chr squote) body)) text k)
      with (match
               (match matches (Lit "h") text
                        (fun s' => matches (Chr squote) s'
                                     (fun s'' => matches body s'' k)) with
                | Some x => Some x
                | None =>
                    match matches (Lit "b32") text
                            (fun s' => matches (Chr squote) s'
                                         (fun s'' => matches body s'' k)) with
                    | Some x => Some x
                    | None =>
                        match matches (Lit "h32") text
                                (fun s' => matches (Chr squote) s'
                                             (fun s'' => matches body s'' k))
                        with
                        | Some x => Some x
                        | None =>
                            matches (Lit "b64") text
                              (fun s' => matches (Chr squote) s'
                                           (fun s'' => matches body s'' k))
                        end
                    end
                end) with
            | Some x => Some x
            | None => matches (Chr squote) text
                        (fun s'' => matches body s'' k)
            end).
    rewrite !matches_Lit_Chr.
    rewrite !K.
    + rewrite Et. cbn [matches]. rewrite Hsq. reflexivity.
    + right. apply in_or_app. right. do 7 right. left. reflexivity.
    + right. apply in_or_app. right. do 6 right. left. reflexivity.
    + right. apply in_or_app. right. do 5 right. left. reflexivity.
    + right. apply in_or_app. right. do 4 right. left. reflexivity.
Qed.

Lemma match_len_name s rest :
  name_text s = true -> stops rest = true ->
  match_len r_NAME (s ++ rest) = Some (String.length s).
Proof.
  intros Hs Hr. unfold name_text in Hs.
  apply andb_prop in Hs as [Hs _]. apply andb_prop in Hs as [Hs _].
  destruct s as [|c [|c2 r]]; try discriminate Hs.
  apply andb_prop in Hs as [Hc Hn].
  cbn [string_forall] in Hn. apply andb_prop in Hn as [Hc2 Hn].
  unfold match_len, r_NAME, Plus, none_of.
  remember (Star _) as st eqn:Est.
  cbn [append matches]. rewrite Hc.
  change (negb (existsb (Ascii.eqb c2) (list_ascii_of_string "/()[],")
                || isspace c2)) with (name_char c2).
  rewrite Hc2. subst st. rewrite matches_Star.
  change (Class _) with (Class name_char).
  apply star_class_stop.
  - exact Hn.
  - exact Hr.
  - f_equal. cbn [String.length]. rewrite length_append. lia.
  - rewrite length_append. lia.
Qed.

(** The tokens of a name followed by the text [rest]. *)
Lemma lex_name s rest toks :
  name_text s = true -> stops rest = true ->
  tokens_from 0 rest = Ok toks ->
  tokens_from 0 (s ++ rest) = Ok (NAME s :: toks).
Proof.
  intros Hs Hr Ht.
  destruct (earlier_rules_fail_name s rest Hs Hr)
    as (H1 & H2 & H3 & H4 & H5 & H6 & H7 & H8).
  pose proof (match_len_name s rest Hs Hr) as H9.
  unfold name_text in Hs.
  apply andb_prop in Hs as [Hs _]. apply andb_prop in Hs as [Hs _].
  destruct s as [|c [|c2 r]]; try discriminate Hs.
  apply andb_prop in Hs as [Hc _].
  destruct (alpha_first_char c (String c2 r ++ rest) Hc) as (Hig & _).
  change (String c (String c2 r) ++ rest)
    with (String c (String c2 r ++ rest)) in *.
  cbn [tokens_from]. rewrite Hig. unfold rules. cbn [first_match].
  rewrite H1, H2, H3, H4, H5, H6, H7, H8, H9.
  cbn [String.length]. cbn [substring bind].
  change (S (String.length r)) with (String.length (String c2 r)).
  rewrite substring_prefix_length, tokens_from_skip_prefix, Ht.
  reflexivity.
Qed.

(** The tokens of the fixed parts of a reference. *)
Lemma lex_ari_prefix rest toks :
  tokens_from 0 rest = Ok toks ->
  tokens_from 0 ("ari:" ++ rest) = Ok (ARI_PREFIX :: toks).
Proof.
  intros H. cbn [append tokens_from]. change (ignored "a") with false.
  cbv iota. unfold rules. cbn [first_match].
  assert (H1 : match_len r_ARI_PREFIX
                 (String "a" (String "r" (String "i" (String ":" rest))))
               = Some 4%nat).
  { unfold match_len.
    assert (Hk : forall A (k : string -> option A),
              matches r_ARI_PREFIX
                (String "a" (String "r" (String "i" (String ":" rest)))) k
              = k rest) by (intros; vm_compute; reflexivity).
    rewrite Hk. cbn [String.length]. f_equal. lia. }
  rewrite H1. cbn [bind tokens_from]. rewrite H. reflexivity.
Qed.

Lemma slash_rules rest :
  match_len r_ARI_PREFIX (String "/" rest) = None /\
  match_len r_TYPENAME (String "/" rest) = None /\
  match_len r_TYPEDOT (String "/" rest) = None /\
  match_len r_BOOL (String "/" rest) = None /\
  match_len r_FLOAT (String "/" rest) = None /\
  match_len r_INT (String "/" rest) = None /\
  match_len r_TSTR (String "/" rest) = None /\
  match_len r_BSTR (String "/" rest) = None /\
  match_len r_NAME (String "/" rest) = None /\
  match_len (Chr "(") (String "/" rest) = None /\
  match_len (Chr ")") (String "/" rest) = None /\
  match_len (Chr "[") (String "/" rest) = None /\
  match_len (Chr "]") (String "/" rest) = None /\
  match_len (Chr "/") (String "/" rest) = Some 1%nat.
Proof.
  repeat apply conj; try (vm_compute; reflexivity).
  unfold match_len. cbn [matches].
  change (chr_eq_ignorecase "/" "/") with true. cbv iota.
  cbn [String.length]. f_equal. lia.
Qed.

Lemma lex_slash rest toks :
  tokens_from 0 rest = Ok toks ->
  tokens_from 0 ("/" ++ rest) = Ok (SLASH :: toks).
Proof.
  intros H. cbn [append tokens_from]. change (ignored "/") with false.
  cbv iota. unfold rules. cbn [first_match].
  destruct (slash_rules rest)
    as (H1 & H2 & H3 & H4 & H5 & H6 & H7 & H8 & H9 & H10 & H11 & H12 & H13
        & H14).
  rewrite H1, H2, H3, H4, H5, H6, H7, H8, H9, H10, H11, H12, H13, H14.
  cbn [bind]. rewrite H. reflexivity.
Qed.


(** The tokens of a reference with a textual namespace and name, before
    more text. *)
Lemma lex_ref_head ns t nm rest toks :
  name_text ns = true -> name_text nm = true ->
  stops rest = true -> tokens_from 0 rest = Ok toks ->
  tokens_from 0 ("ari:" ++ "/" ++ ns ++ "/" ++ StructType.name t ++ "." ++ nm
                 ++ rest)
  = Ok (ARI_PREFIX :: SLASH :: NAME ns :: SLASH :: TYPEDOT t :: NAME nm
        :: toks).
Proof.
  intros Hns Hnm Hstop Htoks.
  apply lex_ari_prefix, lex_slash, lex_name; [exact Hns | reflexivity |].
  apply lex_slash, lex_typed, lex_name; assumption.
Qed.

End name_text_facts.

(** ** The text codec: the round trip of references with parameters *)

Section text_roundtrip_facts.
Import ari ari_text ari_text.lexmod ari_text.parsemod re.
Local Open Scope string_scope.

(** *** The tokens of the punctuation *)












(** *** The tokens of the literals, before more text *)





(** *** The tokens of an integer, before more text *)











(** *** Lists of parts *)







(** *** The parts of an object *)














(** *** More fuel does not change what the parser answers *)






End text_roundtrip_facts.

(** ** The conversion tool *)

Section tool_facts.
Import ari.
Local Open Scope string_scope.

Lemma b16decode_HEX_byte b rest :
  ari_text.lexmod.b16decode (cborutil.b16encode [b] ++ rest)
  = (r <- ari_text.lexmod.b16decode rest ;; Ok (b :: r)).
Proof. destruct b; reflexivity. Qed.

Lemma b16decode_b16encode data :
  ari_text.lexmod.b16decode (cborutil.b16encode data) = Ok data.
Proof.
  induction data as [|x data IH]; [reflexivity|].
  change (cborutil.b16encode (x :: data))
    with (cborutil.b16encode [x] ++ cborutil.b16encode data).
  rewrite b16decode_HEX_byte, IH. reflexivity.
Qed.

Lemma from_to_hexstr data :
  cborutil.from_hexstr (cborutil.to_hexstr data) = Ok data.
Proof.
  unfold cborutil.from_hexstr, cborutil.to_hexstr.
  cbn [append substring String.length].
  assert (H0 : forall s, substring 0 0 s = EmptyString) by (intros []; reflexivity).
  rewrite H0. change (String.eqb _ "0x") with true at 1. cbn [negb].
  replace (S (S (String.length (cborutil.b16encode data))) - 2)%nat
    with (String.length (cborutil.b16encode data)) by lia.
  rewrite substring_all. apply b16decode_b16encode.
Qed.

(** X19.  [from_hexstr] reads back what [to_hexstr] writes, and refuses with
    ValueError a text that does not begin with 0x or 0X. *)
Theorem hexstr_roundtrip :
  (forall data, cborutil.from_hexstr (cborutil.to_hexstr data) = Ok data) /\
  (forall text,
     String.eqb (casefold (substring 0 2 text)) "0x" = false ->
     cborutil.from_hexstr text = Raise ValueError).
Proof.
  split.
  - exact from_to_hexstr.
  - intros text H. unfold cborutil.from_hexstr. rewrite H. reflexivity.
Qed.

Lemma rstrip_newline s : ace_ari.rstrip (s ++ String "010" EmptyString) = ace_ari.rstrip s.
Proof.
  induction s as [|c s IH]; [reflexivity|].
  cbn [append ace_ari.rstrip]. rewrite IH. reflexivity.
Qed.

Lemma rstrip_no_space s :
  string_forall (fun c => negb (re.isspace c)) s = true -> ace_ari.rstrip s = s.
Proof.
  induction s as [|c s IH]; intros H; [reflexivity|].
  cbn [string_forall] in H. apply andb_prop in H as [Hc Hs].
  cbn [ace_ari.rstrip]. rewrite (IH Hs). apply negb_true_iff in Hc. rewrite Hc.
  destruct s; reflexivity.
Qed.

Lemma b16encode_no_space data :
  string_forall (fun c => negb (re.isspace c)) (cborutil.b16encode data) = true.
Proof.
  induction data as [|x data IH]; [reflexivity|].
  cbn [cborutil.b16encode string_forall]. rewrite IH.
  destruct x; reflexivity.
Qed.

Lemma strip_hexstr_line data :
  ace_ari.strip (cborutil.to_hexstr data ++ String "010" EmptyString)
  = cborutil.to_hexstr data.
Proof.
  unfold ace_ari.strip, cborutil.to_hexstr.
  change (("0x" ++ cborutil.b16encode data) ++ String "010" EmptyString)
    with (String "0" (String "x" (cborutil.b16encode data ++ String "010" EmptyString))).
  cbn [ace_ari.lstrip]. change (re.isspace "0") with false. cbv iota.
  change (String "0" (String "x" (cborutil.b16encode data ++ String "010" EmptyString)))
    with (("0x" ++ cborutil.b16encode data) ++ String "010" EmptyString).
  rewrite rstrip_newline. apply rstrip_no_space.
  cbn [append string_forall]. rewrite b16encode_no_space. reflexivity.
Qed.

(** X20.  The lines the tool writes with [--outform cborhex] for references
    that the CBOR format keeps are read back by the tool with
    [--inform cborhex] as the same references, without error. *)
Theorem cborhex_lines_roundtrip (objs : list obj) :
  Forall (fun o => is_reference o = true /\ cbor_roundtrips o = true) objs ->
  exists lines,
    mapM ace_ari.encode_cborhex objs = Ok lines /\
    ace_ari.decode_cborhex lines = (objs, None).
Proof.
  induction 1 as [|o objs [Hr Hw] _ (lines & Hl & Hd)].
  - exists []. split; reflexivity.
  - destruct (roundtrip_at_depth _ _ (Nat.le_refl _) Hw)
      as (enc & He & _ & Ha).
    assert (Henc : ari_cbor.Encoder.encode o = Ok enc).
    { unfold ari_cbor.Encoder.encode. destruct o; try discriminate Hr.
      exact He. }
    assert (Hdec : ari_cbor.Decoder.decode enc = Ok o).
    { apply (decode_with_fuel (4 * nickname.depth o) _ _ []).
      rewrite <- (app_nil_r enc) at 1. apply Ha; [exact Hr | lia]. }
    exists ((cborutil.to_hexstr enc ++ String "010" EmptyString) :: lines). split.
    + cbn [mapM]. unfold ace_ari.encode_cborhex at 1. rewrite Henc.
      cbn [bind]. rewrite Hl. reflexivity.
    + cbn [ace_ari.decode_cborhex]. rewrite strip_hexstr_line, from_to_hexstr.
      cbn [bind]. rewrite Hdec, Hd. reflexivity.
Qed.

Lemma cborhex_lines_roundtrip_witness :
  exists lines,
    mapM ace_ari.encode_cborhex
      [reference_to "IANA:amp_agent" StructType.RPTT "full_report"]
    = Ok lines /\
    ace_ari.decode_cborhex lines
    = ([reference_to "IANA:amp_agent" StructType.RPTT "full_report"], None).
Proof.
  apply (cborhex_lines_roundtrip
           [reference_to "IANA:amp_agent" StructType.RPTT "full_report"]).
  repeat constructor.
Defined.

Lemma decode_text_whole_lines lines : forall aris,
  Forall2 (fun line ari => ari_text.Decoder.decode line = Ok ari) lines aris ->
  ace_ari.decode_text EmptyString None lines = (aris, None) /\
  forall bad,
    ari_text.Decoder.decode bad = Raise ParseError ->
    ace_ari.decode_text EmptyString None (lines ++ [bad]) = (aris, Some ParseError).
Proof.
  induction lines as [|line lines IH]; intros aris H; inversion H; subst.
  - split; [reflexivity|]. intros bad Hb. cbn [List.app ace_ari.decode_text append].
    rewrite Hb. reflexivity.
  - destruct (IH _ H4) as [IH1 IH2]. split.
    + cbn [ace_ari.decode_text append]. rewrite H2, IH1. reflexivity.
    + intros bad Hb. cbn [List.app ace_ari.decode_text append].
      rewrite H2, (IH2 bad Hb). reflexivity.
Qed.

(** X21.  With [--inform text], when every line of the input is the text of
    one ARI, the tool yields these ARIs in order; a last line that does not
    parse ends the input with ParseError after they were yielded; and a line
    that does not parse alone but parses when joined with the next line gives
    one ARI for the two lines. *)
Theorem decode_text_by_lines (lines : list string) (aris : list obj) :
  Forall2 (fun line ari => ari_text.Decoder.decode line = Ok ari) lines aris ->
  ace_ari.decode_text EmptyString None lines = (aris, None) /\
  (forall bad,
     ari_text.Decoder.decode bad = Raise ParseError ->
     ace_ari.decode_text EmptyString None (lines ++ [bad])
     = (aris, Some ParseError)) /\
  (forall first second ari,
     ari_text.Decoder.decode first = Raise ParseError ->
     ari_text.Decoder.decode (first ++ second) = Ok ari ->
     ace_ari.decode_text EmptyString None (first :: second :: lines)
     = (ari :: aris, None)).
Proof.
  intros H. destruct (decode_text_whole_lines lines aris H) as [H1 H2].
  repeat apply conj; [exact H1 | exact H2 |].
  intros first second ari Hf Hs.
  cbn [ace_ari.decode_text append]. rewrite Hf, Hs, H1. reflexivity.
Qed.

Lemma decode_text_by_lines_witness :
  ace_ari.decode_text EmptyString None
    ["ari:/namespace/VAR.hello" ++ String "010" EmptyString; "true" ++ String "010" EmptyString]
  = ([ReferenceARI hello_ident None; LiteralARI StructType.BOOL (PyBool true)],
     None).
Proof.
  apply (decode_text_by_lines
           ["ari:/namespace/VAR.hello" ++ String "010" EmptyString;
            "true" ++ String "010" EmptyString]
           [ReferenceARI hello_ident None;
            LiteralARI StructType.BOOL (PyBool true)]).
  repeat constructor.
Defined.

End tool_facts.
